(** * Power_Outages_Ukraine: the cleaning and map-loading stages

    A shallow embedding of [scripts/clean_data.py] and of the data side of
    [scripts/build_maps.py], with the properties of the specification
    stated and proved over it.

    Conventions of the embedding.
    - A Python [str] is a [string]; its characters are read as the code
      points 0..255, so the library's comparison of strings is Python's
      (code point by code point, a proper prefix first).
    - A row handed out by [csv.DictReader] is a record with one
      [option string] per column the scripts read: [None] is the value
      [DictReader] gives to a column that a short line lacks. Where the
      script reads a field with [(row.get(k) or "")] or hands
      [row.get(k, "")] to [parse_float], a column that the header lacks
      behaves like [None] too; [load_region_ids] calls
      [row.get(k, "").strip()], so there a column the header lacks
      reads as the empty string and only a short line gives [None].
    - The text of the files is outside the embedding: [csv.DictReader]
      and [csv.writer] are taken as the identity between a line of the
      file and the list of its fields.
    - A [dict] is a [gmap], a [set] a [gset]; the lists a cell collects
      keep their order of arrival.
    - [datetime.strptime] and [strftime] are embedded for the one format
      the scripts use, ["%d.%m.%Y"]; a Python [float] is a binary64 value
      ([spec_float]); [float()], [statistics.mean] and [repr] are embedded
      on that type. *)

From Stdlib Require Import ZArith Lia Bool Ascii.
From Stdlib Require Import SpecFloat.
From stdpp Require Import gmap strings list sorting.

Local Open Scope Z_scope.

(** ** Python strings *)

Module PyStr.

(** [str.isspace] on the code points 0..255: TAB..CR, FS..US, space,
    NEL and the no-break space. *)
Definition isspace (c : ascii) : bool :=
  let n := N_of_ascii c in
  ((9 <=? n) && (n <=? 13) || (28 <=? n) && (n <=? 32)
   || (n =? 133) || (n =? 160))%N.

Fixpoint lstrip (s : string) : string :=
  match s with
  | EmptyString => EmptyString
  | String c s' => if isspace c then lstrip s' else s
  end.

Fixpoint rstrip (s : string) : string :=
  match s with
  | EmptyString => EmptyString
  | String c s' =>
      match rstrip s' with
      | EmptyString => if isspace c then EmptyString else String c EmptyString
      | r => String c r
      end
  end.

(** [s.strip()] *)
Definition strip (s : string) : string := rstrip (lstrip s).

(** Truthiness of a string: [if s] and [not s]. *)
Definition truthy (s : string) : bool :=
  match s with EmptyString => false | String _ _ => true end.

(** [text.replace(",", ".")] *)
Fixpoint replace_comma (s : string) : string :=
  match s with
  | EmptyString => EmptyString
  | String c s' =>
      String (if Ascii.eqb c "," then "."%char else c) (replace_comma s')
  end.

(** [sep.join(l)] *)
Fixpoint join (sep : string) (l : list string) : string :=
  match l with
  | [] => ""
  | [x] => x
  | x :: l' => x +:+ sep +:+ join sep l'
  end.

(** [sorted(xs)] on strings. For the claims below the argument never
    holds two equal strings, so the outcome does not depend on the
    order in which a [set] or the keys of a [dict] are iterated. *)
Definition sorted (l : list string) : list string :=
  merge_sort String.le l.

(** No character of the string is white space. *)
Fixpoint no_space (s : string) : bool :=
  match s with
  | EmptyString => true
  | String c s' => negb (isspace c) && no_space s'
  end.

(** The string does not start with white space. *)
Definition head_ok (s : string) : Prop :=
  match s with EmptyString => True | String c _ => isspace c = false end.

(** The value of a decimal digit, and the digit of a value. *)
Definition digit (c : ascii) : option Z :=
  match Ascii.is_nat c with Some n => Some (Z.of_nat n) | None => None end.

Definition is_digit (c : ascii) : bool :=
  match Ascii.is_nat c with Some _ => true | None => false end.

Definition digit_char (n : Z) : ascii := ascii_of_N (48 + Z.to_N n).

End PyStr.

(** ** Calendar dates: [datetime] restricted to the format ["%d.%m.%Y"] *)

Module PyDate.

Import PyStr.

Record datetime := mk_date { year : Z; month : Z; day : Z }.

#[global] Instance datetime_eq_dec : EqDecision datetime.
Proof. solve_decision. Defined.

Definition is_leap (y : Z) : bool :=
  (y mod 4 =? 0) && (negb (y mod 100 =? 0) || (y mod 400 =? 0)).

Definition days_in_month (y m : Z) : Z :=
  match m with
  | 1 | 3 | 5 | 7 | 8 | 10 | 12 => 31
  | 4 | 6 | 9 | 11 => 30
  | 2 => if is_leap y then 29 else 28
  | _ => 0
  end.

(** The values the [datetime] constructor accepts. *)
Definition valid (d : datetime) : bool :=
  (1 <=? year d) && (year d <=? 9999) && (1 <=? month d) && (month d <=? 12)
  && (1 <=? day d) && (day d <=? days_in_month (year d) (month d)).

(** Comparison of two naive datetimes at midnight. *)
Definition lt (a b : datetime) : Prop :=
  year a < year b
  ∨ (year a = year b
     ∧ (month a < month b ∨ (month a = month b ∧ day a < day b))).

Definition le (a b : datetime) : Prop := lt a b ∨ a = b.

#[global] Instance lt_dec : RelDecision lt.
Proof. intros a b. unfold lt. apply _. Defined.

#[global] Instance le_dec : RelDecision le.
Proof. intros a b. unfold le. apply _. Defined.

(** Splits a field off at the first full stop. *)
Fixpoint until_dot (s : string) : option (string * string) :=
  match s with
  | EmptyString => None
  | String c s' =>
      if Ascii.eqb c "." then Some (EmptyString, s')
      else match until_dot s' with
           | Some (f, r) => Some (String c f, r)
           | None => None
           end
  end.

(** [%d]: the alternatives [3[0-1] | [1-2]\d | 0[1-9] | [1-9] | " "[1-9]]
    of the regular expression [_strptime] compiles the directive to. *)
Definition re_day (f : string) : option Z :=
  match f with
  | String c1 (String c2 EmptyString) =>
      match digit c1, digit c2 with
      | Some a, Some b =>
          if (a =? 3) && (b <=? 1) then Some (30 + b)
          else if (1 <=? a) && (a <=? 2) then Some (10 * a + b)
          else if (a =? 0) && (1 <=? b) then Some b
          else None
      | None, Some b =>
          if Ascii.eqb c1 " " && (1 <=? b) then Some b else None
      | _, _ => None
      end
  | String c1 EmptyString =>
      match digit c1 with
      | Some a => if 1 <=? a then Some a else None
      | None => None
      end
  | _ => None
  end.

(** [%m]: [1[0-2] | 0[1-9] | [1-9]] *)
Definition re_month (f : string) : option Z :=
  match f with
  | String c1 (String c2 EmptyString) =>
      match digit c1, digit c2 with
      | Some a, Some b =>
          if (a =? 1) && (b <=? 2) then Some (10 + b)
          else if (a =? 0) && (1 <=? b) then Some b
          else None
      | _, _ => None
      end
  | String c1 EmptyString =>
      match digit c1 with
      | Some a => if 1 <=? a then Some a else None
      | None => None
      end
  | _ => None
  end.

(** [%Y]: exactly four digits, up to the end of the text. *)
Definition re_year (f : string) : option Z :=
  match f with
  | String c1 (String c2 (String c3 (String c4 EmptyString))) =>
      match digit c1, digit c2, digit c3, digit c4 with
      | Some a, Some b, Some c, Some d =>
          Some (1000 * a + 100 * b + 10 * c + d)
      | _, _, _, _ => None
      end
  | _ => None
  end.

(** [datetime.strptime(s, "%d.%m.%Y")]; [None] is [ValueError]
    (no match of the format, or a day the calendar does not have). *)
Definition strptime (s : string) : option datetime :=
  match until_dot s with
  | Some (fd, r1) =>
      match until_dot r1 with
      | Some (fm, fy) =>
          match re_day fd, re_month fm, re_year fy with
          | Some d, Some m, Some y =>
              let dt := mk_date y m d in
              if valid dt then Some dt else None
          | _, _, _ => None
          end
      | None => None
      end
  | None => None
  end.

Definition two_digits (n : Z) : string :=
  String (digit_char (n / 10)) (String (digit_char (n mod 10)) EmptyString).

Definition four_digits (n : Z) : string :=
  String (digit_char (n / 1000))
    (String (digit_char (n / 100 mod 10))
       (String (digit_char (n / 10 mod 10))
          (String (digit_char (n mod 10)) EmptyString))).

(** [d.strftime("%d.%m.%Y")]: two digits for the day and the month and
    four for the year, padded with zeros, as the library documents
    the three directives. *)
Definition strftime (d : datetime) : string :=
  two_digits (day d) +:+ "." +:+ two_digits (month d) +:+ "."
  +:+ four_digits (year d).

End PyDate.

(** ** Python floats: binary64 values, [float()], [statistics.mean], [repr] *)

Module PyFloat.

Import PyStr.

Definition float := spec_float.

#[global] Instance float_eq_dec : EqDecision float.
Proof. solve_decision. Defined.

(** The binary64 values among the [spec_float]s. *)
Definition valid (x : float) : bool := valid_binary 53 1024 x.

(** [floor (log2 (n / d))] for positive [n] and [d]. *)
Definition floor_log2_ratio (n d : Z) : Z :=
  if d <=? n then Z.log2 (n / d) else - Z.log2_up ((d + n - 1) / n).

(** The binary64 value nearest to [n / d] (ties to the even mantissa),
    with the sign [s]: an overflow gives an infinity, an underflow a
    zero. This is the rounding of [float()] on a decimal literal and of
    the true division of two integers. *)
Definition round_ratio (s : bool) (n d : positive) : float :=
  let lg := floor_log2_ratio (Zpos n) (Zpos d) in
  let e := Z.max (lg - 52) (-1074) in
  let num := Zpos n * 2 ^ Z.max 0 (- e) in
  let den := Zpos d * 2 ^ Z.max 0 e in
  let q := num / den in
  let r := num mod den in
  let q' :=
    match 2 * r ?= den with
    | Lt => q
    | Gt => q + 1
    | Eq => if Z.even q then q else q + 1
    end in
  let '(m, e') := if q' =? 2 ^ 53 then (2 ^ 52, e + 1) else (q', e) in
  match m with
  | Zpos p => if e' <=? 971 then S754_finite s p e' else S754_infinity s
  | _ => S754_zero s
  end.

(** [m * 10 ^ e10] as a float. *)
Definition of_decimal (s : bool) (m : Z) (e10 : Z) : float :=
  match m with
  | Zpos p =>
      if 0 <=? e10 then round_ratio s (p * Z.to_pos (10 ^ e10)) 1
      else round_ratio s p (Z.to_pos (10 ^ (- e10)))
  | _ => S754_zero s
  end.

(** *** [float(text)] *)

(** The check of [_Py_string_to_number_with_underscores]: an underscore
    stands only between two digits. [prev] is the character before. *)
Fixpoint underscores_ok (prev : ascii) (s : string) : bool :=
  match s with
  | EmptyString => negb (Ascii.eqb prev "_")
  | String c s' =>
      (if Ascii.eqb c "_" then is_digit prev
       else negb (Ascii.eqb prev "_") || is_digit c)
      && underscores_ok c s'
  end.

Fixpoint remove_underscores (s : string) : string :=
  match s with
  | EmptyString => EmptyString
  | String c s' =>
      if Ascii.eqb c "_" then remove_underscores s'
      else String c (remove_underscores s')
  end.

(** Reads the longest run of digits: its value on top of [acc], its
    length, and the text after it. *)
Fixpoint read_digits (acc : Z) (s : string) : Z * Z * string :=
  match s with
  | EmptyString => (acc, 0, EmptyString)
  | String c s' =>
      match digit c with
      | Some v => let '(a, k, r) := read_digits (10 * acc + v) s' in (a, k + 1, r)
      | None => (acc, 0, s)
      end
  end.

Definition read_sign (s : string) : bool * string :=
  match s with
  | String "-" s' => (true, s')
  | String "+" s' => (false, s')
  | _ => (false, s)
  end.

Definition lower (c : ascii) : ascii :=
  let n := N_of_ascii c in
  if ((65 <=? n) && (n <=? 90))%N then ascii_of_N (n + 32) else c.

Fixpoint lower_string (s : string) : string :=
  match s with
  | EmptyString => EmptyString
  | String c s' => String (lower c) (lower_string s')
  end.

(** The exponent part: nothing, or [e], an optional sign and digits. *)
Definition read_exponent (s : string) : option Z :=
  match s with
  | EmptyString => Some 0
  | String c s' =>
      if Ascii.eqb (lower c) "e" then
        let '(neg, s1) := read_sign s' in
        match read_digits 0 s1 with
        | (v, k, EmptyString) =>
            if 0 <? k then Some (if neg then - v else v) else None
        | _ => None
        end
      else None
  end.

(** A literal without underscores: [inf], [infinity] and [nan] in any
    case, or digits with an optional point and exponent. *)
Definition float_of_plain (s : string) : option float :=
  let '(neg, s1) := read_sign s in
  let w := lower_string s1 in
  if String.eqb w "inf" || String.eqb w "infinity" then Some (S754_infinity neg)
  else if String.eqb w "nan" then Some S754_nan
  else
    let '(ip, ni, s2) := read_digits 0 s1 in
    let '(m, nf, s3) :=
      match s2 with
      | String "." s2' => read_digits ip s2'
      | _ => (ip, 0, s2)
      end in
    if (0 <? ni) || (0 <? nf) then
      match read_exponent s3 with
      | Some x => Some (of_decimal neg m (x - nf))
      | None => None
      end
    else None.

(** [float(text)] on a text without white space at its ends;
    [None] is [ValueError]. *)
Definition float_of_str (s : string) : option float :=
  if underscores_ok "000" s then float_of_plain (remove_underscores s)
  else None.

(** *** [statistics.mean] *)

Definition is_finite (x : float) : bool :=
  match x with
  | S754_zero _ | S754_finite _ _ _ => true
  | S754_infinity _ | S754_nan => false
  end.

(** The exact value [m * 2 ^ e] of a finite float, as the pair [(m, e)]
    ([_exact_ratio] gives the same number as a fraction). *)
Definition dyadic (x : float) : Z * Z :=
  match x with
  | S754_finite s m e => (if s then Zneg m else Zpos m, e)
  | _ => (0, 0)
  end.

Definition dyadic_add (a b : Z * Z) : Z * Z :=
  let e := Z.min a.2 b.2 in
  (a.1 * 2 ^ (a.2 - e) + b.1 * 2 ^ (b.2 - e), e).

(** Float addition on the partial sum [_sum] keeps for the values that
    are not finite: it starts from [0], and only infinities and NaN are
    added to it. *)
Definition add_special (t x : float) : float :=
  match t, x with
  | S754_nan, _ | _, S754_nan => S754_nan
  | S754_infinity a, S754_infinity b => if Bool.eqb a b then t else S754_nan
  | S754_infinity _, _ => t
  | _, _ => x
  end.

(** [statistics.mean(l)] on a list of floats; [None] is
    [StatisticsError] (no data point). Finite data are summed exactly and
    the quotient by their number is rounded once; as soon as an infinity
    or a NaN occurs the result is the float sum of those. *)
Definition mean (l : list float) : option float :=
  match l with
  | [] => None
  | _ :: _ =>
      match filter (λ x, is_finite x = false) l with
      | x :: xs => Some (foldl add_special x xs)
      | [] =>
          let '(m, e) := foldl dyadic_add (0, 0) (dyadic <$> l) in
          let d := Z.to_pos (Z.of_nat (length l) * 2 ^ Z.max 0 (- e)) in
          Some match m with
               | Z0 => S754_zero false
               | Zpos p => round_ratio false (p * Z.to_pos (2 ^ Z.max 0 e)) d
               | Zneg p => round_ratio true (p * Z.to_pos (2 ^ Z.max 0 e)) d
               end
      end
  end.

(** *** [repr] and [str] of a float *)

Fixpoint dec_fuel (fuel : nat) (n : Z) (acc : string) : string :=
  match fuel with
  | O => acc
  | S f =>
      let acc' := String (digit_char (n mod 10)) acc in
      if n <? 10 then acc' else dec_fuel f (n / 10) acc'
  end.

(** The decimal digits of [n >= 0]. *)
Definition dec (n : Z) : string :=
  dec_fuel (S (Z.to_nat (Z.log2 n))) n EmptyString.

Fixpoint zeros (k : nat) : string :=
  match k with O => EmptyString | S k' => String "0" (zeros k') end.

Fixpoint strip_zeros_fuel (fuel : nat) (n q : Z) : Z * Z :=
  match fuel with
  | O => (n, q)
  | S f =>
      if (n mod 10 =? 0) && (0 <? n) then strip_zeros_fuel f (n / 10) (q + 1)
      else (n, q)
  end.

Fixpoint split_at (k : nat) (s : string) : string * string :=
  match k, s with
  | S k', String c s' => let '(a, b) := split_at k' s' in (String c a, b)
  | _, _ => (EmptyString, s)
  end.

(** The layout of [repr]: the digits [ds] stand for [0.ds * 10 ^ decpt];
    plain notation while [-4 < decpt <= 16], else an exponent of at
    least two digits. *)
Definition format_repr (neg : bool) (ds : string) (decpt : Z) : string :=
  let nd := Z.of_nat (String.length ds) in
  let body :=
    if (-4 <? decpt) && (decpt <=? 16) then
      if decpt <=? 0 then "0." +:+ zeros (Z.to_nat (- decpt)) +:+ ds
      else if nd <=? decpt then ds +:+ zeros (Z.to_nat (decpt - nd)) +:+ ".0"
      else let '(a, b) := split_at (Z.to_nat decpt) ds in a +:+ "." +:+ b
    else
      let x := decpt - 1 in
      let mant :=
        match ds with
        | String c EmptyString => ds
        | String c r => String c (String "." r)
        | EmptyString => ds
        end in
      let xs := dec (Z.abs x) in
      mant +:+ "e" +:+ (if x <? 0 then "-" else "+")
           +:+ (if Z.abs x <? 10 then "0" else "") +:+ xs in
  (if neg then "-" else "") +:+ body.

Fixpoint first_scale (fuel : nat) (vn vd j : Z) : Z :=
  match fuel with
  | O => j
  | S f => if vd <=? vn * 10 ^ j then j else first_scale f vn vd (j + 1)
  end.

(** The decimal point of [vn / vd]: [10 ^ (p - 1) <= vn / vd < 10 ^ p]. *)
Definition decimal_point (vn vd : Z) : Z :=
  if vd <=? vn then Z.of_nat (String.length (dec (vn / vd)))
  else 1 - first_scale (S (Z.to_nat (Z.log2 vd))) vn vd 1.

(** The decimal [D * 10 ^ (- a)] of at most [k] digits, laid out as
    [repr] would, without its trailing zeros. *)
Definition layout (neg : bool) (k a D : Z) : string :=
  let '(D', q) := strip_zeros_fuel (Z.to_nat k) D (- a) in
  let ds := dec D' in
  format_repr neg ds (Z.of_nat (String.length ds) + q).

(** The two decimals of [k] digits around [vn / vd], the nearer one
    first (the even one at a tie). *)
Definition candidates (neg : bool) (vn vd p : Z) (k : Z) : list string :=
  let a := k - p in
  let num := vn * 10 ^ Z.max 0 a in
  let den := vd * 10 ^ Z.max 0 (- a) in
  let lo := num / den in
  let r := num mod den in
  let lay := layout neg k a in
  if r =? 0 then [lay lo]
  else
    match 2 * r ?= den with
    | Lt => [lay lo; lay (lo + 1)]
    | Gt => [lay (lo + 1); lay lo]
    | Eq => if Z.even lo then [lay lo; lay (lo + 1)] else [lay (lo + 1); lay lo]
    end.

(** A literal of the exact value of a finite float, digits and a power
    of ten. *)
Definition exact_literal (neg : bool) (m : positive) (e : Z) : string :=
  let k := Z.max 0 (- e) in
  (if neg then "-" else "")
  +:+ dec (Zpos m * 2 ^ Z.max 0 e * 5 ^ k) +:+ "e-" +:+ dec k.

(** [repr(x)], which is also [str(x)] and what [csv.writer] writes for
    a float: the shortest decimal that [float()] reads back as [x], the
    nearest to [x] among those. The library never needs more than
    seventeen digits for a binary64 value; should none of those tries
    read back, the literal of the exact value stands in. *)
Definition repr (x : float) : string :=
  match x with
  | S754_nan => "nan"
  | S754_infinity s => if s then "-inf" else "inf"
  | S754_zero s => if s then "-0.0" else "0.0"
  | S754_finite s m e =>
      let vn := Zpos m * 2 ^ Z.max 0 e in
      let vd := 2 ^ Z.max 0 (- e) in
      let p := decimal_point vn vd in
      let tries :=
        flat_map (λ k, candidates s vn vd p (Z.of_nat k)) (seq 1 17) in
      match filter (λ t, float_of_str t = Some x) tries with
      | t :: _ => t
      | [] => exact_literal s m e
      end
  end.

End PyFloat.

(** [d.setdefault(k, v)], for its effect on the dictionary. *)
Definition setdefault `{Countable K} {V} (k : K) (v : V) (d : gmap K V)
    : gmap K V :=
  match d !! k with
  | Some _ => d
  | None => <[k := v]> d
  end.

(** [(value or "")] of a field of a row. *)
Definition or_empty (v : option string) : string := default EmptyString v.

(** ** [scripts/clean_data.py] *)

Module clean_data.

Import PyStr PyDate PyFloat.

(** A row of the raw survey, as [csv.DictReader] yields it: the five
    columns [load_raw_data] looks up. *)
Record raw_row := mk_raw_row {
  raw_date : option string;      (* "What date are you reporting for?" *)
  raw_oblast : option string;    (* "What Oblast are you reporting from?" *)
  raw_subqueue : option string;  (* "What sub-queue are you reporting from?" *)
  raw_scheduled : option string; (* "How many hours of scheduled outages ..." *)
  raw_actual : option string     (* "How many hours of actual outages ..." *)
}.

(** A row of the region table: the columns of the name and of [GID_1]. *)
Record region_row := mk_region_row {
  region_oblast : option string;
  region_gid : option string
}.

Definition parse_float (value : option string) : option float :=
  match value with
  | None => None
  | Some v =>
      let text := strip v in
      if negb (truthy text) then None
      else float_of_str (replace_comma text)
  end.

(** [load_region_ids]. A column that the header has and a short line
    lacks is [None], on which [.strip()] raises [AttributeError]: the
    outer [None] of the result. *)
Fixpoint load_region_ids_from (mapping : gmap string string)
    (rows : list region_row) : option (gmap string string) :=
  match rows with
  | [] => Some mapping
  | row :: rows' =>
      match region_oblast row, region_gid row with
      | Some o, Some g =>
          let oblast := strip o in
          let gid := strip g in
          load_region_ids_from
            (if truthy oblast then <[oblast := gid]> mapping else mapping)
            rows'
      | _, _ => None
      end
  end.

Definition load_region_ids (rows : list region_row)
    : option (gmap string string) :=
  load_region_ids_from ∅ rows.

(** The value kept for a (date, oblast) key. *)
Record cell := mk_cell {
  scheduled : list float;
  actual : list float;
  subqueues : gset string
}.

Definition empty_cell : cell := mk_cell [] [] ∅.

Definition append_scheduled (v : float) (c : cell) : cell :=
  mk_cell (scheduled c ++ [v]) (actual c) (subqueues c).

Definition append_actual (v : float) (c : cell) : cell :=
  mk_cell (scheduled c) (actual c ++ [v]) (subqueues c).

Definition add_subqueue (q : string) (c : cell) : cell :=
  mk_cell (scheduled c) (actual c) ({[q]} ∪ subqueues c).

(** The body of the loop of [load_raw_data] on one row. *)
Definition add_row (start_date : datetime)
    (data : gmap (string * string) cell) (row : raw_row)
    : gmap (string * string) cell :=
  let raw_date := strip (or_empty (raw_date row)) in
  let oblast := strip (or_empty (raw_oblast row)) in
  if negb (truthy raw_date) || negb (truthy oblast) then data
  else
    match strptime raw_date with
    | None => data
    | Some date_obj =>
        if decide (PyDate.lt date_obj start_date) then data
        else
          let subqueue := strip (or_empty (raw_subqueue row)) in
          let scheduled := parse_float (raw_scheduled row) in
          let actual := parse_float (raw_actual row) in
          let key := (strftime date_obj, oblast) in
          let data := setdefault key empty_cell data in
          let data :=
            match scheduled with
            | Some v => alter (append_scheduled v) key data
            | None => data
            end in
          let data :=
            match actual with
            | Some v => alter (append_actual v) key data
            | None => data
            end in
          if truthy subqueue then alter (add_subqueue subqueue) key data
          else data
    end.

Definition load_raw_data (rows : list raw_row) (start_date : datetime)
    : gmap (string * string) cell :=
  foldl (add_row start_date) ∅ rows.

(** A line of the clean dataset, with the six fields as the text
    [csv.writer] puts in the file. *)
Record clean_row := mk_clean_row {
  Date : string;
  Oblast : string;
  GID_1 : string;
  Scheduled_outages : string;
  Actual_outages : string;
  Subqueues : string
}.

#[global] Instance clean_row_eq_dec : EqDecision clean_row.
Proof. solve_decision. Defined.

(** [sorted(date_strings, key=lambda d: datetime.strptime(d, RAW_DATE_FMT))]:
    the keys are computed first, and one that does not parse raises. *)
Definition sorted_by_date (l : list string) : option (list string) :=
  keyed ← mapM (λ d, (λ k, (k, d)) <$> strptime d) l;
  Some (snd <$> merge_sort (λ a b, PyDate.le a.1 b.1) keyed).

(** [mean(values) if values else ""], then the text written for it. *)
Definition average_text (values : list float) : option string :=
  match values with
  | [] => Some EmptyString
  | _ :: _ => repr <$> mean values
  end.

Definition write_row (region_ids : gmap string string)
    (aggregated : gmap (string * string) cell) (date oblast : string)
    : option clean_row :=
  let values := default empty_cell (aggregated !! (date, oblast)) in
  scheduled_avg ← average_text (scheduled values);
  actual_avg ← average_text (actual values);
  let subqueue_text := join ", " (sorted (elements (subqueues values))) in
  Some (mk_clean_row date oblast (default EmptyString (region_ids !! oblast))
          scheduled_avg actual_avg subqueue_text).

(** The lines [main] writes after the header, from the region table and
    the aggregate; [None] stands for an exception. *)
Definition write_rows (region_ids : gmap string string)
    (aggregated : gmap (string * string) cell) : option (list clean_row) :=
  let date_strings : gset string := set_map fst (dom aggregated) in
  dates ← sorted_by_date (elements date_strings);
  let oblasts := sorted (elements (dom region_ids)) in
  mapM (λ p : string * string, write_row region_ids aggregated p.1 p.2)
    (date ← dates; oblast ← oblasts; [(date, oblast)]).

(** [main], from the parsed arguments on: the region table, the raw rows
    and the start date. *)
Definition main (region_ids : gmap string string) (raw : list raw_row)
    (start_date : datetime) : option (list clean_row) :=
  write_rows region_ids (load_raw_data raw start_date).

End clean_data.

(** ** [scripts/build_maps.py] *)

Module build_maps.

Import PyStr PyDate PyFloat.

#[global] Instance datetime_countable : Countable datetime.
Proof.
  refine (inj_countable' (λ d, (year d, month d, day d))
            (λ t, mk_date t.1.1 t.1.2 t.2) _).
  by intros [].
Defined.

(** A row of the clean dataset as [csv.DictReader] yields it. *)
Record csv_row := mk_csv_row {
  col_Date : option string;
  col_GID_1 : option string;
  col_Scheduled_outages : option string;
  col_Actual_outages : option string;
  col_Subqueues : option string
}.

Definition parse_float (value : option string) : option float :=
  match value with
  | None => None
  | Some v =>
      let text := strip v in
      if negb (truthy text) then None
      else float_of_str (replace_comma text)
  end.

(** The values kept for a region on a day; [None] is Python's [None]. *)
Record entry := mk_entry {
  scheduled : option float;
  actual : option float;
  subqueues : string
}.

#[global] Instance entry_eq_dec : EqDecision entry.
Proof. solve_decision. Defined.

(** The body of the loop of [load_clean_data] on one row, on the pair of
    the dictionary [data] and the list [dates]. *)
Definition index_row
    (st : gmap string (gmap string entry) * list datetime) (row : csv_row)
    : gmap string (gmap string entry) * list datetime :=
  let '(data, dates) := st in
  let date := strip (or_empty (col_Date row)) in
  let gid := strip (or_empty (col_GID_1 row)) in
  if negb (truthy date) || negb (truthy gid) then (data, dates)
  else
    let scheduled := parse_float (col_Scheduled_outages row) in
    let actual := parse_float (col_Actual_outages row) in
    let data := setdefault date ∅ data in
    let subqueues := strip (or_empty (col_Subqueues row)) in
    let data :=
      alter (insert gid (mk_entry scheduled actual subqueues)) date data in
    match strptime date with
    | Some d => (data, dates ++ [d])
    | None => (data, dates)
    end.

Definition load_clean_data (rows : list csv_row)
    : list string * gmap string (gmap string entry) :=
  let '(data, dates) := foldl index_row (∅, []) rows in
  let unique_dates :=
    merge_sort PyDate.le (elements (list_to_set dates : gset datetime)) in
  (strftime <$> unique_dates, data).

(** *** The colour scale of the rendered page *)

Definition palette : list (string * string) :=
  [("0", "#2f9e44"); ("1-4", "#f2e86d"); ("5-8", "#f5c76b");
   ("9-12", "#f19a6b"); ("13-16", "#e76b5a"); ("17-20", "#c7433c");
   ("21-24", "#8f1d1d")].

Definition palette_color (i : nat) : string :=
  default EmptyString (snd <$> palette !! i).

(** The values [getColor] is called on: [null], [undefined], the empty
    string, or a number. *)
Inductive js_value :=
  | Null
  | Undefined
  | EmptyStr
  | Number (x : float).

(** The outcome of [Math.round]: an integer, an infinity or NaN. *)
Inductive js_rounded :=
  | RInt (n : Z)
  | RInf (neg : bool)
  | RNaN.

(** [Math.round(x)]: the integer nearest to [x], a half going up. *)
Definition Math_round (x : float) : js_rounded :=
  match x with
  | S754_nan => RNaN
  | S754_infinity s => RInf s
  | S754_zero _ => RInt 0
  | S754_finite s m e =>
      let v := if s then Zneg m else Zpos m in
      if 0 <=? e then RInt (v * 2 ^ e)
      else RInt ((2 * v + 2 ^ (- e)) / 2 ^ (- e + 1))
  end.

(** [rounded <= k] and [rounded >= k] for an integer constant [k]. *)
Definition r_le (r : js_rounded) (k : Z) : bool :=
  match r with
  | RInt n => n <=? k
  | RInf neg => neg
  | RNaN => false
  end.

Definition r_ge (r : js_rounded) (k : Z) : bool :=
  match r with
  | RInt n => k <=? n
  | RInf neg => negb neg
  | RNaN => false
  end.

Definition getColor (value : js_value) : string :=
  match value with
  | Null | Undefined | EmptyStr => "#cfcfcf"
  | Number x =>
      let rounded := Math_round x in
      if r_le rounded 0 then palette_color 0
      else if r_ge rounded 1 && r_le rounded 4 then palette_color 1
      else if r_ge rounded 5 && r_le rounded 8 then palette_color 2
      else if r_ge rounded 9 && r_le rounded 12 then palette_color 3
      else if r_ge rounded 13 && r_le rounded 16 then palette_color 4
      else if r_ge rounded 17 && r_le rounded 20 then palette_color 5
      else palette_color 6
  end.

(** The rows of the legend [addLegend] draws: the palette, then the
    swatch of the regions without data. *)
Definition legend : list (string * string) :=
  palette ++ [("No data", "#cfcfcf")].

(** The legend label whose swatch has the colour [c]. *)
Definition bucket_of_color (c : string) : option string :=
  (λ ip : nat * (string * string), ip.2.1)
    <$> list_find (λ p : string * string, p.2 = c) legend.

Definition bucket (value : js_value) : option string :=
  bucket_of_color (getColor value).

End build_maps.


(** ** Notions the properties are stated with *)

Module Spec.

Import PyStr PyDate PyFloat clean_data.

(** The key under which [load_raw_data] files a row: the formatted date
    and the region name; [None] for a row it passes over (no date or no
    region, a date that does not parse, a date before the start date). *)
Definition row_key (start_date : datetime) (row : raw_row)
    : option (string * string) :=
  let raw_date := strip (or_empty (raw_date row)) in
  let oblast := strip (or_empty (raw_oblast row)) in
  if truthy raw_date && truthy oblast then
    match strptime raw_date with
    | Some d =>
        if decide (PyDate.lt d start_date) then None
        else Some (strftime d, oblast)
    | None => None
    end
  else None.

(** The rows of a (date, region) group, in the order of the input. *)
Definition group (start_date : datetime) (raw : list raw_row)
    (key : string * string) : list raw_row :=
  filter (λ r, row_key start_date r = Some key) raw.

(** The present, well-formed values of a group for the two metrics. *)
Definition scheduled_values (g : list raw_row) : list float :=
  omap (λ r, parse_float (raw_scheduled r)) g.

Definition actual_values (g : list raw_row) : list float :=
  omap (λ r, parse_float (raw_actual r)) g.

(** The sub-unit labels a group reports. *)
Definition subqueue_labels (g : list raw_row) : gset string :=
  list_to_set
    (filter (λ q, truthy q = true)
       ((λ r, strip (or_empty (raw_subqueue r))) <$> g)).

(** The valid dates of the filtered data: the formatted dates of the
    rows that are kept. *)
Definition valid_dates (raw : list raw_row) (start_date : datetime)
    : gset string :=
  list_to_set (omap (λ r, fst <$> row_key start_date r) raw).

(** What one row adds to the cell of its group. *)
Definition store_row (row : raw_row) (c : cell) : cell :=
  let q := strip (or_empty (raw_subqueue row)) in
  mk_cell
    (scheduled c ++ option_list (parse_float (raw_scheduled row)))
    (actual c ++ option_list (parse_float (raw_actual row)))
    (if truthy q then {[q]} ∪ subqueues c else subqueues c).

(** The cell of a group. *)
Definition cell_of (g : list raw_row) : cell :=
  mk_cell (scheduled_values g) (actual_values g) (subqueue_labels g).

(** Calendar order on date strings. *)
Definition calendar_lt (a b : string) : Prop :=
  match strptime a, strptime b with
  | Some x, Some y => PyDate.lt x y
  | _, _ => False
  end.

(** Strict lexicographic order on strings. *)
Definition string_lt (a b : string) : Prop := String.le a b ∧ a ≠ b.

(** The text of a metric: the mean of the values, nothing without one. *)
Definition metric_text (values : list float) : string :=
  match mean values with
  | Some m => repr m
  | None => EmptyString
  end.

(** The line of the clean dataset for a date and a region. *)
Definition expected_row (region_ids : gmap string string)
    (raw : list raw_row) (start_date : datetime) (date oblast : string)
    : clean_row :=
  let g := group start_date raw (date, oblast) in
  mk_clean_row date oblast (default EmptyString (region_ids !! oblast))
    (metric_text (scheduled_values g)) (metric_text (actual_values g))
    (join ", " (sorted (elements (subqueue_labels g)))).

(** A date string with its sort key. *)
Definition date_key (s : string) : datetime * string :=
  (default (mk_date 0 0 0) (strptime s), s).

(** The pairs the two nested loops of [main] go through. *)
Definition grid (dates oblasts : list string) : list (string * string) :=
  date ← dates; oblast ← oblasts; [(date, oblast)].

(** The key of a line of the clean dataset. *)
Definition row_pair (r : clean_row) : string * string := (Date r, Oblast r).

(** The order of the lines of the clean dataset: by date in calendar
    order, then by region name. *)
Definition row_lt (r1 r2 : clean_row) : Prop :=
  calendar_lt (Date r1) (Date r2)
  ∨ (Date r1 = Date r2 ∧ string_lt (Oblast r1) (Oblast r2)).

(** A row contributes to the aggregate when processing it changes some
    aggregate; it is excluded when it changes none. *)
Definition contributes (start_date : datetime) (row : raw_row) : Prop :=
  ∃ data, add_row start_date data row ≠ data.

Definition excluded (start_date : datetime) (row : raw_row) : Prop :=
  ∀ data, add_row start_date data row = data.

(** The region of a row is a name of the region table. *)
Definition known_region (region_ids : gmap string string) (row : raw_row)
    : Prop :=
  strip (or_empty (raw_oblast row)) ∈ dom region_ids.

#[global] Instance known_region_dec region_ids row :
  Decision (known_region region_ids row).
Proof. unfold known_region. apply _. Defined.

End Spec.

Module MapSpec.

Import PyStr PyDate PyFloat build_maps.

(** The (date string, region identifier) pair under which
    [load_clean_data] indexes a row; [None] for a row it skips. *)
Definition index_key (row : csv_row) : option (string * string) :=
  let date := strip (or_empty (col_Date row)) in
  let gid := strip (or_empty (col_GID_1 row)) in
  if truthy date && truthy gid then Some (date, gid) else None.

(** The values [load_clean_data] keeps for a row. *)
Definition entry_of (row : csv_row) : entry :=
  mk_entry (parse_float (col_Scheduled_outages row))
    (parse_float (col_Actual_outages row))
    (strip (or_empty (col_Subqueues row))).

(** [data[date][gid]], when both keys are there. *)
Definition lookup2 (data : gmap string (gmap string entry))
    (date gid : string) : option entry :=
  data !! date ≫= λ day, day !! gid.

(** The date [load_clean_data] appends to [dates] for a row, if any. *)
Definition row_date (row : csv_row) : option datetime :=
  index_key row ≫= λ k, strptime k.1.

(** The bucket of an hour count, as the legend names them. *)
Definition hour_bucket (h : Z) : option string :=
  if h =? 0 then Some "0"
  else if (1 <=? h) && (h <=? 4) then Some "1-4"
  else if (5 <=? h) && (h <=? 8) then Some "5-8"
  else if (9 <=? h) && (h <=? 12) then Some "9-12"
  else if (13 <=? h) && (h <=? 16) then Some "13-16"
  else if (17 <=? h) && (h <=? 20) then Some "17-20"
  else if (21 <=? h) && (h <=? 24) then Some "21-24"
  else None.

(** The float of an integer hour count. *)
Definition hours (h : Z) : float := of_decimal false h 0.

End MapSpec.

Module FloatSpec.

Import PyStr PyFloat.

Fixpoint all_digits (s : string) : bool :=
  match s with
  | EmptyString => true
  | String c s' => is_digit c && all_digits s'
  end.

(** Splits the longest run of digits off the front. *)
Fixpoint span_digits (s : string) : string * string :=
  match s with
  | EmptyString => (EmptyString, EmptyString)
  | String c s' =>
      if is_digit c then let '(a, r) := span_digits s' in (String c a, r)
      else (EmptyString, s)
  end.

Definition drop_sign (s : string) : string :=
  match s with
  | String "+" r | String "-" r => r
  | _ => s
  end.

(** Decimal notation with a comma or a point: an optional sign, digits,
    and optionally a comma or a point followed by digits. *)
Definition decimal_numeral (s : string) : bool :=
  let '(a, r) := span_digits (drop_sign s) in
  truthy a
  && match r with
     | EmptyString => true
     | String c b =>
         (Ascii.eqb c "," || Ascii.eqb c ".") && truthy b && all_digits b
     end.

(** [2 ^ L <= n / d], for any integer [L], without fractions. *)
Definition pow_le (L n d : Z) : Prop :=
  d * 2 ^ Z.max 0 L ≤ n * 2 ^ Z.max 0 (- L).

(** The scaled numerator and denominator [round_ratio] divides. *)
Definition scaled_num (e n : Z) : Z := n * 2 ^ Z.max 0 (- e).

Definition scaled_den (e d : Z) : Z := d * 2 ^ Z.max 0 e.

(** The number a string of digits stands for, on top of [a]. *)
Fixpoint digits_value (a : Z) (x : string) : Z :=
  match x with
  | EmptyString => a
  | String c x' => digits_value (10 * a + default 0 (digit c)) x'
  end.

(** Neither white space nor a comma. *)
Definition plain_char (c : ascii) : bool :=
  negb (isspace c) && negb (Ascii.eqb c ",").

Fixpoint plain (s : string) : bool :=
  match s with
  | EmptyString => true
  | String c s' => plain_char c && plain s'
  end.

End FloatSpec.

Module RoundTrip.

Import PyStr PyDate PyFloat.

(** The row [csv.DictReader] reads from a line [csv.writer] wrote: the
    fields come back as they were written. *)
Definition read_back (r : clean_data.clean_row) : build_maps.csv_row :=
  build_maps.mk_csv_row (Some (clean_data.Date r))
    (Some (clean_data.GID_1 r)) (Some (clean_data.Scheduled_outages r))
    (Some (clean_data.Actual_outages r)) (Some (clean_data.Subqueues r)).

(** Python's [==] on two values that are floats or [None]. *)
Definition num_eq (a b : option float) : bool :=
  match a, b with
  | Some x, Some y => SFeqb x y
  | None, None => true
  | _, _ => false
  end.

(** The averages the writer computes for a line: the means of the
    group of the line, [None] where there is no value. *)
Definition written_scheduled (raw : list clean_data.raw_row)
    (start_date : datetime) (r : clean_data.clean_row) : option float :=
  mean (Spec.scheduled_values
          (Spec.group start_date raw (clean_data.Date r, clean_data.Oblast r))).

Definition written_actual (raw : list clean_data.raw_row)
    (start_date : datetime) (r : clean_data.clean_row) : option float :=
  mean (Spec.actual_values
          (Spec.group start_date raw (clean_data.Date r, clean_data.Oblast r))).

(** The values the loader holds for a date and a region identifier
    after reading the lines back. *)
Definition loaded (rows : list clean_data.clean_row) (date gid : string)
    : option build_maps.entry :=
  MapSpec.lookup2 (build_maps.load_clean_data (read_back <$> rows)).2 date gid.

(** A region table with one region. *)
Definition kyiv_table : gmap string string := {["Kyiv" := "UA-30"]}.

(** Two reports for Kyiv on one day, of 4 and of 6 scheduled hours. *)
Definition one_day_raw : list clean_data.raw_row :=
  [clean_data.mk_raw_row (Some "01.02.2026") (Some "Kyiv") None (Some "4")
     None;
   clean_data.mk_raw_row (Some "01.02.2026") (Some "Kyiv") None (Some "6")
     None].

End RoundTrip.

(** ** The scripts from their arguments, and the start of the page *)

Module Run.

Import PyStr PyDate PyFloat.

(** [clean_data.main] from the text of [--start-date], the rows of the
    region table and the rows of the raw survey: the start date is
    parsed, the region table is loaded, then the raw rows are aggregated
    and the lines written. [None] stands for an exception. *)
Definition clean_data_main (start_text : string)
    (regions : list clean_data.region_row) (raw : list clean_data.raw_row)
    : option (list clean_data.clean_row) :=
  start_date ← strptime start_text;
  region_ids ← clean_data.load_region_ids regions;
  clean_data.main region_ids raw start_date.

(** [a[i]] on a JavaScript array, for an integer [i]; [None] is
    [undefined]. *)
Definition js_index {A} (a : list A) (i : Z) : option A :=
  if i <? 0 then None else a !! Z.to_nat i.

(** [const initialDate = dates[dates.length - 1]] *)
Definition initialDate (dates : list string) : option string :=
  js_index dates (Z.of_nat (length dates) - 1).

End Run.

(** ** Notions the further properties are stated with *)

Module Reading.

Import PyStr PyDate PyFloat.

(** Two raw rows that [load_raw_data] reads alike: the same parsed date,
    the same region and sub-unit once stripped, the same two numbers. *)
Definition same_reading (r r' : clean_data.raw_row) : Prop :=
  strptime (strip (or_empty (clean_data.raw_date r)))
  = strptime (strip (or_empty (clean_data.raw_date r')))
  ∧ strip (or_empty (clean_data.raw_oblast r))
    = strip (or_empty (clean_data.raw_oblast r'))
  ∧ strip (or_empty (clean_data.raw_subqueue r))
    = strip (or_empty (clean_data.raw_subqueue r'))
  ∧ clean_data.parse_float (clean_data.raw_scheduled r)
    = clean_data.parse_float (clean_data.raw_scheduled r')
  ∧ clean_data.parse_float (clean_data.raw_actual r)
    = clean_data.parse_float (clean_data.raw_actual r').

(** The date a string stands for is not before [start]. *)
Definition on_or_after (start : datetime) (s : string) : Prop :=
  match strptime s with
  | Some d => ¬ PyDate.lt d start
  | None => False
  end.

#[global] Instance on_or_after_dec start s : Decision (on_or_after start s).
Proof. unfold on_or_after. destruct (strptime s); apply _. Defined.

(** The region name a row of the region table is filed under. *)
Definition region_name (row : clean_data.region_row) : option string :=
  strip <$> clean_data.region_oblast row.

(** The identifier a row of the region table gives. *)
Definition region_id (row : clean_data.region_row) : option string :=
  strip <$> clean_data.region_gid row.

End Reading.


(** * Properties *)

(** Settles a [Forall] over a range of numbers by evaluating every case. *)
Ltac forall_range :=
  match goal with
  | |- Forall _ ?l => let l' := eval vm_compute in l in change l with l'
  end;
  repeat (constructor; [vm_compute; reflexivity|]);
  constructor.

(** ** Strings *)

Section string_facts.
Import PyStr.

Lemma app_String c s t : String c s +:+ t = String c (s +:+ t).
Proof. reflexivity. Qed.

Lemma app_empty_l t : "" +:+ t = t.
Proof. reflexivity. Qed.

Lemma app_eq_empty s t : s +:+ t = "" → s = "" ∧ t = "".
Proof.
  destruct s; [|discriminate]. intros H. change (t = "") in H. by subst.
Qed.

Lemma truthy_true s : truthy s = true ↔ s ≠ "".
Proof. by destruct s. Qed.

Lemma truthy_false s : truthy s = false ↔ s = "".
Proof. by destruct s. Qed.

Lemma lstrip_head_ok s : head_ok (lstrip s).
Proof.
  induction s as [|c s IH]; simpl; [done|].
  destruct (isspace c) eqn:E; [done|]. simpl. done.
Qed.

Lemma lstrip_fix s : head_ok s → lstrip s = s.
Proof. destruct s as [|c s]; simpl; [done|]. by intros ->. Qed.

Lemma rstrip_head_ok s : head_ok s → head_ok (rstrip s).
Proof.
  destruct s as [|c s]; simpl; [done|]. intros Hc.
  destruct (rstrip s); rewrite ?Hc; done.
Qed.

Lemma rstrip_idemp s : rstrip (rstrip s) = rstrip s.
Proof.
  induction s as [|c s IH]; simpl; [done|].
  destruct (rstrip s) as [|c' r] eqn:E.
  - destruct (isspace c) eqn:Ec; simpl; [done|]. by rewrite Ec.
  - simpl in *. by rewrite IH.
Qed.

Lemma strip_idemp s : strip (strip s) = strip s.
Proof.
  unfold strip. rewrite (lstrip_fix (rstrip _)).
  - apply rstrip_idemp.
  - apply rstrip_head_ok, lstrip_head_ok.
Qed.

Lemma rstrip_no_space s : no_space s = true → rstrip s = s.
Proof.
  induction s as [|c s IH]; simpl; [done|].
  intros [Hc Hs]%andb_true_iff. rewrite (IH Hs).
  destruct s; [|done]. by destruct (isspace c).
Qed.

Lemma strip_no_space s : no_space s = true → strip s = s.
Proof.
  intros H. unfold strip. rewrite lstrip_fix; [by apply rstrip_no_space|].
  destruct s as [|c s]; simpl in *; [done|]. by destruct (isspace c).
Qed.

Lemma no_space_app s t : no_space (s +:+ t) = no_space s && no_space t.
Proof.
  induction s as [|c s IH]; [done|].
  rewrite app_String. simpl. by rewrite IH, andb_assoc.
Qed.

End string_facts.

(** ** Dates *)

Section date_facts.
Import PyStr PyDate.

Lemma digit_digit_char k : 0 ≤ k < 10 → digit (digit_char k) = Some k.
Proof.
  intros H. assert (Hk : k ∈ seqZ 0 10) by (apply elem_of_seqZ; lia).
  revert Hk. generalize k. apply Forall_forall. forall_range.
Qed.

Lemma digit_char_not_dot k : 0 ≤ k < 10 → Ascii.eqb (digit_char k) "." = false.
Proof.
  intros H. assert (Hk : k ∈ seqZ 0 10) by (apply elem_of_seqZ; lia).
  revert Hk. generalize k. apply Forall_forall. forall_range.
Qed.

Lemma digit_char_no_space k : 0 ≤ k < 10 → isspace (digit_char k) = false.
Proof.
  intros H. assert (Hk : k ∈ seqZ 0 10) by (apply elem_of_seqZ; lia).
  revert Hk. generalize k. apply Forall_forall. forall_range.
Qed.

Lemma valid_bounds d :
  valid d = true →
  1 ≤ year d ≤ 9999 ∧ 1 ≤ month d ≤ 12 ∧ 1 ≤ day d ≤ 31.
Proof.
  unfold valid. rewrite !andb_true_iff, !Z.leb_le.
  intros [[[[[? ?] ?] ?] ?] Hd]. repeat split; try done.
  etrans; [exact Hd|]. unfold days_in_month.
  repeat case_match; lia.
Qed.

Lemma re_day_two_digits n : 1 ≤ n ≤ 31 → re_day (two_digits n) = Some n.
Proof.
  intros H. assert (Hk : n ∈ seqZ 1 31) by (apply elem_of_seqZ; lia).
  revert Hk. generalize n. apply Forall_forall. forall_range.
Qed.

Lemma re_month_two_digits n : 1 ≤ n ≤ 12 → re_month (two_digits n) = Some n.
Proof.
  intros H. assert (Hk : n ∈ seqZ 1 12) by (apply elem_of_seqZ; lia).
  revert Hk. generalize n. apply Forall_forall. forall_range.
Qed.

Lemma re_year_four_digits n : 0 ≤ n ≤ 9999 → re_year (four_digits n) = Some n.
Proof.
  intros H. unfold re_year, four_digits.
  rewrite !digit_digit_char; [f_equal|..]; Z.div_mod_to_equations; lia.
Qed.

Lemma until_dot_two_digits n r :
  0 ≤ n < 100 → until_dot (two_digits n +:+ "." +:+ r) = Some (two_digits n, r).
Proof.
  intros H. unfold two_digits. rewrite !app_String. simpl.
  rewrite !digit_char_not_dot by (Z.div_mod_to_equations; lia). done.
Qed.

Lemma strptime_strftime d : valid d = true → strptime (strftime d) = Some d.
Proof.
  intros Hv. destruct (valid_bounds d Hv) as (Hy & Hm & Hd).
  unfold strptime, strftime.
  rewrite until_dot_two_digits by lia. rewrite until_dot_two_digits by lia.
  rewrite re_day_two_digits, re_month_two_digits, re_year_four_digits by lia.
  destruct d; simpl in *. by rewrite Hv.
Qed.

Lemma strptime_valid s d : strptime s = Some d → valid d = true.
Proof.
  unfold strptime. intros H. repeat case_match; by simplify_eq.
Qed.

Lemma strftime_inj d1 d2 :
  valid d1 = true → valid d2 = true → strftime d1 = strftime d2 → d1 = d2.
Proof.
  intros H1 H2 E. apply strptime_strftime in H1, H2.
  rewrite E in H1. congruence.
Qed.

Lemma strftime_no_space d : valid d = true → no_space (strftime d) = true.
Proof.
  intros Hv. destruct (valid_bounds d Hv) as (Hy & Hm & Hd).
  unfold strftime, two_digits, four_digits. rewrite !app_String. simpl.
  rewrite !digit_char_no_space by (Z.div_mod_to_equations; lia). done.
Qed.

Lemma strftime_strip d : valid d = true → strip (strftime d) = strftime d.
Proof. intros. by apply strip_no_space, strftime_no_space. Qed.

Lemma strftime_truthy d : truthy (strftime d) = true.
Proof. done. Qed.

Lemma date_trichotomy a b : PyDate.lt a b ∨ a = b ∨ PyDate.lt b a.
Proof.
  destruct a as [y1 m1 d1], b as [y2 m2 d2]. unfold lt; simpl.
  destruct (Z.lt_trichotomy y1 y2) as [?|[ -> |?]],
    (Z.lt_trichotomy m1 m2) as [?|[ -> |?]],
    (Z.lt_trichotomy d1 d2) as [?|[ -> |?]];
    first [by right; left | left; lia | right; right; lia].
Qed.

Lemma date_lt_asym a b : PyDate.lt a b → PyDate.lt b a → False.
Proof. destruct a, b. unfold lt; simpl. lia. Qed.

Lemma date_lt_irrefl a : ¬ PyDate.lt a a.
Proof. destruct a. unfold lt; simpl. lia. Qed.

#[global] Instance date_le_total : Total PyDate.le.
Proof.
  intros a b. unfold le. destruct (date_trichotomy a b) as [?|[ -> |?]]; auto.
Qed.

#[global] Instance date_le_trans : Transitive PyDate.le.
Proof.
  intros a b c [H1| ->] [H2| ->]; unfold le; auto.
  left. destruct a, b, c. unfold lt in *; simpl in *. lia.
Qed.

#[global] Instance date_le_antisym : AntiSymm (=) PyDate.le.
Proof.
  intros a b [H1| ->] [H2|H2]; auto. by destruct (date_lt_asym a b).
Qed.

Lemma date_lt_not_le a b : PyDate.lt a b ↔ ¬ PyDate.le b a.
Proof.
  split.
  - intros H [H'| ->]; [by eapply date_lt_asym|by eapply date_lt_irrefl].
  - intros H. destruct (date_trichotomy a b) as [?|[ -> |?]]; [done|..].
    + destruct H. by right.
    + destruct H. by left.
Qed.

End date_facts.

Section aggregate_facts.
Import PyStr PyDate PyFloat clean_data Spec.

Lemma setdefault_lookup `{Countable K} {V} (k k' : K) (v : V) (d : gmap K V) :
  setdefault k v d !! k' =
  if decide (k = k') then Some (default v (d !! k)) else d !! k'.
Proof.
  unfold setdefault. destruct (d !! k) eqn:E; case_decide; subst; simpl.
  - done.
  - done.
  - by rewrite lookup_insert_eq.
  - by rewrite lookup_insert_ne.
Qed.

Lemma add_row_lookup start data row key :
  add_row start data row !! key =
  if decide (row_key start row = Some key)
  then Some (store_row row (default empty_cell (data !! key)))
  else data !! key.
Proof.
  unfold add_row, row_key.
  destruct (truthy (strip (or_empty (raw_date row)))) eqn:Ed;
    cbn [negb orb andb]; [|by case_decide].
  destruct (truthy (strip (or_empty (raw_oblast row)))) eqn:Eo;
    cbn [negb orb andb]; [|by case_decide].
  destruct (strptime _) as [d|] eqn:Ep; [|by case_decide].
  destruct (decide (PyDate.lt d start)); [by case_decide|].
  set (k := (strftime d, strip (or_empty (raw_oblast row)))).
  unfold store_row.
  destruct (decide (Some k = Some key)) as [[= <-]|Hne].
  - destruct (truthy (strip (or_empty (raw_subqueue row)))),
      (parse_float (raw_actual row)), (parse_float (raw_scheduled row));
      rewrite ?lookup_alter_eq, setdefault_lookup, decide_True by done;
      simpl; rewrite ?app_nil_r; try done.
    by destruct (default empty_cell (data !! k)).
  - assert (k ≠ key) by congruence.
    destruct (truthy (strip (or_empty (raw_subqueue row)))),
      (parse_float (raw_actual row)), (parse_float (raw_scheduled row));
      rewrite ?lookup_alter_ne, setdefault_lookup, decide_False by done;
      done.
Qed.

Lemma cell_of_snoc g r : cell_of (g ++ [r]) = store_row r (cell_of g).
Proof.
  unfold cell_of, store_row, scheduled_values, actual_values, subqueue_labels.
  simpl. rewrite !omap_app, fmap_app, filter_app, list_to_set_app_L. simpl.
  f_equal.
  rewrite filter_cons, filter_nil.
  destruct (truthy (strip (or_empty (raw_subqueue r)))) eqn:E.
  - rewrite decide_True by done. simpl.
    by rewrite (right_id_L ∅ (∪)), (comm_L (∪)).
  - rewrite decide_False by done. simpl. by rewrite (right_id_L ∅ (∪)).
Qed.

Lemma group_snoc start raw r key :
  group start (raw ++ [r]) key =
  group start raw key ++ (if decide (row_key start r = Some key) then [r] else []).
Proof.
  unfold group. rewrite filter_app, filter_cons, filter_nil. by case_decide.
Qed.

(** The aggregate [load_raw_data] builds, read key by key: a key is
    present exactly when its group has a row, and its cell collects the
    values of the group in the order of the input. *)
Lemma load_raw_data_lookup raw start key :
  load_raw_data raw start !! key =
  match group start raw key with
  | [] => None
  | g => Some (cell_of g)
  end.
Proof.
  unfold load_raw_data. induction raw as [|r raw IH] using rev_ind; [done|].
  rewrite foldl_app. simpl. rewrite add_row_lookup, group_snoc, IH.
  case_decide as Hk.
  - destruct (group start raw key) as [|r0 g] eqn:Eg; simpl.
    + f_equal. by rewrite <- (cell_of_snoc []).
    + f_equal. change (r0 :: g ++ [r]) with ((r0 :: g) ++ [r]).
      by rewrite cell_of_snoc.
  - rewrite app_nil_r. done.
Qed.

Lemma row_key_date start r key :
  row_key start r = Some key →
  ∃ d, key.1 = strftime d ∧ PyDate.valid d = true ∧ ¬ PyDate.lt d start
       ∧ strptime (strip (or_empty (raw_date r))) = Some d
       ∧ key.2 = strip (or_empty (raw_oblast r)) ∧ key.2 ≠ "".
Proof.
  unfold row_key. intros H.
  destruct (truthy (strip (or_empty (raw_date r)))) eqn:Ed; [|done].
  destruct (truthy (strip (or_empty (raw_oblast r)))) eqn:Eo; [|done].
  simpl in H. destruct (strptime _) as [d|] eqn:Ep; [|done].
  case_decide; [done|]. simplify_eq. exists d. simpl.
  split_and!; try done.
  - by eapply strptime_valid.
  - by apply truthy_true.
Qed.

Lemma elem_of_dom_load_raw_data raw start key :
  key ∈ dom (load_raw_data raw start) ↔ group start raw key ≠ [].
Proof.
  rewrite elem_of_dom, load_raw_data_lookup.
  destruct (group start raw key); split; done.
Qed.

Lemma elem_of_group start raw key r :
  r ∈ group start raw key ↔ row_key start r = Some key ∧ r ∈ raw.
Proof. unfold group. by rewrite list_elem_of_filter. Qed.

Lemma group_nonempty start raw key :
  group start raw key ≠ [] ↔ ∃ r, r ∈ raw ∧ row_key start r = Some key.
Proof.
  split.
  - intros H. destruct (group start raw key) as [|r g] eqn:E; [done|].
    exists r. apply and_comm, (elem_of_group start raw key). rewrite E. left.
  - intros (r & Hr & Hk) E.
    assert (r ∈ group start raw key) as Hin by (by apply elem_of_group).
    rewrite E in Hin. by apply elem_of_nil in Hin.
Qed.

Lemma date_strings_valid_dates raw start :
  set_map fst (dom (load_raw_data raw start)) = valid_dates raw start.
Proof.
  apply set_eq. intros d. unfold valid_dates.
  rewrite elem_of_map, elem_of_list_to_set, list_elem_of_omap. split.
  - intros ([d' o] & -> & Hk). apply elem_of_dom_load_raw_data, group_nonempty in Hk.
    destruct Hk as (r & Hr & Hk). exists r. split; [done|]. by rewrite Hk.
  - intros (r & Hr & Hk). destruct (row_key start r) as [key|] eqn:E; [|done].
    simpl in Hk. simplify_eq. exists key. split; [done|].
    apply elem_of_dom_load_raw_data, group_nonempty. eauto.
Qed.

End aggregate_facts.

Section writer_facts.
Import PyStr PyDate PyFloat clean_data Spec.

Lemma mean_is_Some l : l ≠ [] → is_Some (mean l).
Proof.
  destruct l as [|x l]; [done|]. intros _. unfold mean.
  destruct (filter _ (x :: l)); [|by eexists].
  destruct (foldl dyadic_add _ _). by eexists.
Qed.

Lemma average_text_spec values : average_text values = Some (metric_text values).
Proof.
  unfold average_text, metric_text. destruct values as [|x l]; [done|].
  destruct (mean_is_Some (x :: l)) as [m ->]; done.
Qed.

Lemma cell_of_nil : cell_of [] = empty_cell.
Proof. done. Qed.

Lemma load_raw_data_default raw start key :
  default empty_cell (load_raw_data raw start !! key)
  = cell_of (group start raw key).
Proof. rewrite load_raw_data_lookup. by destruct (group start raw key). Qed.

Lemma write_row_spec region_ids raw start d o :
  write_row region_ids (load_raw_data raw start) d o
  = Some (expected_row region_ids raw start d o).
Proof.
  unfold write_row, expected_row. rewrite load_raw_data_default.
  simpl. rewrite !average_text_spec. done.
Qed.

(** Sorting a list without repetition by a key that tells its elements
    apart puts it in strict order. *)
Lemma StronglySorted_strict {A} (R S : relation A) (l : list A) :
  (∀ x y, x ∈ l → y ∈ l → R x y → x ≠ y → S x y) →
  NoDup l → StronglySorted R l → StronglySorted S l.
Proof.
  induction l as [|x l IH]; intros HS Hnd Hs; [constructor|].
  apply NoDup_cons in Hnd as [Hx Hnd]. apply StronglySorted_cons in Hs as [Hxl Hs].
  constructor.
  - apply IH; [|done..]. intros ?? ? ?. apply HS; by right.
  - apply Forall_forall. intros y Hy. apply HS.
    + left.
    + by right.
    + by eapply Forall_forall in Hxl.
    + intros ->. done.
Qed.

Lemma sorted_strings l :
  NoDup l → sorted l ≡ₚ l ∧ StronglySorted string_lt (sorted l).
Proof.
  intros Hnd. unfold sorted. split; [apply merge_sort_Permutation|].
  eapply (StronglySorted_strict String.le).
  - intros x y _ _ ? ?. by split.
  - by rewrite merge_sort_Permutation.
  - apply (StronglySorted_merge_sort _).
Qed.

Lemma sorted_by_date_spec l :
  (∀ s, s ∈ l → ∃ d, PyDate.valid d = true ∧ s = strftime d) →
  NoDup l →
  ∃ dates, sorted_by_date l = Some dates ∧ dates ≡ₚ l
           ∧ StronglySorted calendar_lt dates.
Proof.
  intros Hl Hnd.
  assert (Hm : mapM (λ d, (λ k, (k, d)) <$> strptime d) l = Some (date_key <$> l)).
  { apply mapM_Some. apply Forall2_fmap_r, Forall_Forall2_diag, Forall_forall.
    intros s Hs. destruct (Hl s Hs) as (d & Hv & ->).
    unfold date_key, compose. by rewrite !strptime_strftime. }
  unfold sorted_by_date. rewrite Hm. simpl.
  set (R := λ a b : datetime * string, PyDate.le a.1 b.1).
  assert (Total R) by (intros a b; apply date_le_total).
  assert (Transitive R) by (intros a b c; apply date_le_trans).
  eexists. split; [reflexivity|]. split.
  - rewrite merge_sort_Permutation. rewrite <- list_fmap_compose.
    by rewrite (list_fmap_ext (snd ∘ date_key) id l), list_fmap_id.
  - assert (Hp := merge_sort_Permutation R (date_key <$> l)).
    assert (Hs := StronglySorted_merge_sort R (date_key <$> l)).
    assert (Hnd' : NoDup (merge_sort R (date_key <$> l))).
    { rewrite Hp. apply NoDup_fmap_2; [|done]. by intros ?? [= ?]. }
    eapply (StronglySorted_fmap snd
              (λ a b, R a b ∧ a ∈ date_key <$> l ∧ b ∈ date_key <$> l ∧ a ≠ b)
              calendar_lt).
    + intros [d1 s1] [d2 s2] (HR & H1 & H2 & Hne). simpl.
      apply list_elem_of_fmap in H1 as (s1' & [= -> ->] & Hs1).
      apply list_elem_of_fmap in H2 as (s2' & [= -> ->] & Hs2).
      destruct (Hl _ Hs1) as (d1 & Hv1 & ->), (Hl _ Hs2) as (d2 & Hv2 & ->).
      unfold calendar_lt. unfold R, date_key in HR. simpl in HR.
      rewrite !strptime_strftime in * by done. simpl in HR.
      destruct HR as [?| ->]; [done|]. by destruct Hne.
    + eapply StronglySorted_strict; [|done|exact Hs].
      intros x y Hx Hy HR Hne. rewrite Hp in Hx, Hy. done.
Qed.

Lemma length_grid dates oblasts :
  length (grid dates oblasts) = (length dates * length oblasts)%nat.
Proof.
  assert (Hin : ∀ d : string,
    length (oblasts ≫= λ o : string, [(d, o)]) = length oblasts).
  { intros d. induction oblasts as [|o oblasts IH]; [done|].
    rewrite bind_cons. simpl. by rewrite IH. }
  unfold grid. induction dates as [|d dates IH]; [done|].
  rewrite bind_cons, length_app, Hin. simpl. by rewrite <- IH.
Qed.

Lemma elem_of_grid dates oblasts d o :
  (d, o) ∈ grid dates oblasts ↔ d ∈ dates ∧ o ∈ oblasts.
Proof.
  unfold grid. rewrite list_elem_of_bind. split.
  - intros (d' & Ho & Hd). apply list_elem_of_bind in Ho as (o' & Hp & Ho).
    apply list_elem_of_singleton in Hp. by simplify_eq.
  - intros [Hd Ho]. exists d. split; [|done].
    apply list_elem_of_bind. exists o. split; [|done]. by apply list_elem_of_singleton.
Qed.

Lemma NoDup_grid dates oblasts :
  NoDup dates → NoDup oblasts → NoDup (grid dates oblasts).
Proof.
  intros Hd Ho. unfold grid. apply NoDup_bind; [| |done].
  - intros d1 d2 p _ _ H1 H2.
    apply list_elem_of_bind in H1 as (o1 & Hp1 & _), H2 as (o2 & Hp2 & _).
    apply list_elem_of_singleton in Hp1, Hp2. congruence.
  - intros d _. apply NoDup_bind; [| |done].
    + intros o1 o2 p _ _ H1 H2. apply list_elem_of_singleton in H1, H2. congruence.
    + intros o _. apply NoDup_singleton.
Qed.

Lemma valid_dates_formatted raw start s :
  s ∈ valid_dates raw start → ∃ d, PyDate.valid d = true ∧ s = strftime d.
Proof.
  unfold valid_dates. rewrite elem_of_list_to_set, list_elem_of_omap.
  intros (r & _ & Hk). destruct (row_key start r) as [key|] eqn:E; [|done].
  destruct (row_key_date _ _ _ E) as (d & Hd & Hv & _). simpl in Hk.
  simplify_eq. eauto.
Qed.

(** [main] never raises, and writes the expected line for every pair of
    the grid of the sorted dates and the sorted region names. *)
Lemma main_spec region_ids raw start :
  ∃ dates,
    dates ≡ₚ elements (valid_dates raw start)
    ∧ StronglySorted calendar_lt dates
    ∧ main region_ids raw start
      = Some ((λ p, expected_row region_ids raw start p.1 p.2)
                <$> grid dates (sorted (elements (dom region_ids)))).
Proof.
  destruct (sorted_by_date_spec (elements (valid_dates raw start)))
    as (dates & Hs & Hp & Hsorted).
  { intros s Hs. apply elem_of_elements in Hs. by eapply valid_dates_formatted. }
  { apply NoDup_elements. }
  exists dates. split_and!; [done..|].
  unfold main, write_rows. rewrite date_strings_valid_dates, Hs. simpl.
  apply mapM_Some, Forall2_fmap_r, Forall_Forall2_diag, Forall_forall.
  intros [d o] _. apply write_row_spec.
Qed.

Lemma row_pair_expected region_ids raw start (l : list (string * string)) :
  row_pair <$> ((λ p, expected_row region_ids raw start p.1 p.2) <$> l) = l.
Proof.
  rewrite <- list_fmap_compose. rewrite <- (list_fmap_id l) at 2.
  apply list_fmap_ext. by intros ? [].
Qed.

(** No two lines of the clean dataset have the same date and region. *)
Lemma main_pairs_NoDup region_ids raw start rows :
  main region_ids raw start = Some rows → NoDup (row_pair <$> rows).
Proof.
  destruct (main_spec region_ids raw start) as (dates & Hp & _ & Hmain).
  destruct (sorted_strings (elements (dom region_ids))) as [Hpo _];
    [apply NoDup_elements|].
  rewrite Hmain. intros [= <-]. rewrite row_pair_expected. apply NoDup_grid.
  - rewrite Hp. apply NoDup_elements.
  - rewrite Hpo. apply NoDup_elements.
Qed.

End writer_facts.

Section clean_dataset_claims.
Import PyStr PyDate PyFloat clean_data Spec.

Lemma metric_text_nil : metric_text [] = "".
Proof. done. Qed.

Lemma float_of_str_empty : float_of_str "" = None.
Proof. done. Qed.

Lemma repr_nonempty x : repr x ≠ "".
Proof.
  destruct x as [[]|[]| |s m e]; try done. unfold repr.
  destruct (filter _ _) as [|t ts] eqn:E.
  - unfold exact_literal. intros H.
    apply app_eq_empty in H as [_ H]. apply app_eq_empty in H as [_ H]. done.
  - assert (t ∈ t :: ts) as Ht by left. rewrite <- E in Ht.
    apply list_elem_of_filter in Ht as [Ht _]. intros ->. done.
Qed.

Lemma metric_text_empty_iff values : metric_text values = "" ↔ values = [].
Proof.
  split; [|by intros ->]. unfold metric_text. intros H.
  destruct values as [|x l]; [done|].
  destruct (mean_is_Some (x :: l)) as [m Hm]; [done|]. rewrite Hm in H.
  by apply repr_nonempty in H.
Qed.

(** C1. For every region table and every raw input, [main] writes
    exactly |valid dates| x |known regions| lines: one line for every
    pair of a valid date of the filtered data and a region name of the
    table, no pair twice; a pair without any raw row gets empty metric
    values and an empty sub-unit list; an empty raw input gives no line. *)
Theorem C1_cross_product region_ids raw start :
  ∃ rows,
    main region_ids raw start = Some rows
    ∧ length rows
      = (size (valid_dates raw start) * size (dom region_ids))%nat
    ∧ NoDup (row_pair <$> rows)
    ∧ (∀ d o, (d, o) ∈ row_pair <$> rows
              ↔ d ∈ valid_dates raw start ∧ o ∈ dom region_ids)
    ∧ (∀ r, r ∈ rows → group start raw (Date r, Oblast r) = [] →
            Scheduled_outages r = "" ∧ Actual_outages r = ""
            ∧ Subqueues r = "")
    ∧ (raw = [] → rows = []).
Proof.
  destruct (main_spec region_ids raw start) as (dates & Hp & Hs & Hmain).
  destruct (sorted_strings (elements (dom region_ids))) as [Hpo Hso];
    [apply NoDup_elements|].
  eexists. split; [exact Hmain|]. split_and!.
  - rewrite length_fmap, length_grid, Hp, Hpo. done.
  - rewrite row_pair_expected. apply NoDup_grid.
    + rewrite Hp. apply NoDup_elements.
    + rewrite Hpo. apply NoDup_elements.
  - intros d o. rewrite row_pair_expected, elem_of_grid, Hp, Hpo.
    by rewrite !elem_of_elements.
  - intros r Hr Hg. apply list_elem_of_fmap in Hr as ([d o] & -> & _).
    simpl in *. unfold expected_row. rewrite Hg. done.
  - intros ->. change (valid_dates [] start) with (∅ : gset string) in Hp.
    rewrite elements_empty in Hp. apply Permutation_nil_r in Hp as ->. done.
Qed.

Lemma StronglySorted_grid_rows (f : string * string → clean_row) dates oblasts :
  (∀ p, row_pair (f p) = p) →
  StronglySorted calendar_lt dates → StronglySorted string_lt oblasts →
  StronglySorted row_lt (f <$> grid dates oblasts).
Proof.
  intros Hf Hd Ho. unfold grid.
  induction Hd as [|d dates Hd IH Hall]; [constructor|].
  rewrite bind_cons, fmap_app. apply StronglySorted_app_2.
  - intros r1 r2 H1 H2.
    apply list_elem_of_fmap in H1 as (p1 & -> & H1), H2 as (p2 & -> & H2).
    apply list_elem_of_bind in H1 as (o1 & H1 & _), H2 as (d2 & H2 & Hd2).
    apply list_elem_of_singleton in H1 as ->.
    apply list_elem_of_bind in H2 as (o2 & H2 & _).
    apply list_elem_of_singleton in H2 as ->.
    left. unfold row_lt. pose proof (Hf (d, o1)) as E1. pose proof (Hf (d2, o2)) as E2.
    unfold row_pair in E1, E2. simplify_eq. rewrite H, H1.
    by eapply Forall_forall in Hall.
  - clear IH. induction Ho as [|o oblasts Ho IHo Hallo]; [constructor|].
    rewrite bind_cons, fmap_app. simpl. constructor; [done|].
    apply Forall_forall. intros r Hr.
    apply list_elem_of_fmap in Hr as (p & -> & Hr).
    apply list_elem_of_bind in Hr as (o2 & Hr & Ho2).
    apply list_elem_of_singleton in Hr as ->.
    right. pose proof (Hf (d, o)) as E1. pose proof (Hf (d, o2)) as E2.
    unfold row_pair in E1, E2. simplify_eq. rewrite H, H1, H0, H2.
    split; [done|]. by eapply Forall_forall in Hallo.
  - exact IH.
Qed.

(** C8. The lines of the clean dataset are in strict order: dates
    ascending in calendar order (the order of the parsed dates, not of
    the date strings), and under one date the region names ascending in
    lexicographic order. *)
Theorem C8_row_order region_ids raw start :
  ∃ rows,
    main region_ids raw start = Some rows ∧ StronglySorted row_lt rows.
Proof.
  destruct (main_spec region_ids raw start) as (dates & Hp & Hs & Hmain).
  destruct (sorted_strings (elements (dom region_ids))) as [Hpo Hso];
    [apply NoDup_elements|].
  eexists. split; [exact Hmain|].
  apply StronglySorted_grid_rows; [by intros []|done..].
Qed.

(** C2. In every line of the clean dataset each metric is the mean
    ([statistics.mean]) of all the present, well-formed values of that
    metric in the line's (date, region) group, written as a float; a
    group without any value for a metric gets the empty field, which is
    the text of no number, so never a zero. *)
Theorem C2_group_means region_ids raw start :
  ∃ rows,
    main region_ids raw start = Some rows
    ∧ ∀ r, r ∈ rows →
        let g := group start raw (Date r, Oblast r) in
        (Scheduled_outages r
         = match mean (scheduled_values g) with
           | Some m => repr m
           | None => ""
           end)
        ∧ (Actual_outages r
           = match mean (actual_values g) with
             | Some m => repr m
             | None => ""
             end)
        ∧ (Scheduled_outages r = "" ↔ scheduled_values g = [])
        ∧ (Actual_outages r = "" ↔ actual_values g = [])
        ∧ (scheduled_values g = [] →
           ∀ x : float, Scheduled_outages r ≠ repr x)
        ∧ (actual_values g = [] → ∀ x : float, Actual_outages r ≠ repr x).
Proof.
  destruct (main_spec region_ids raw start) as (dates & Hp & Hs & Hmain).
  eexists. split; [exact Hmain|]. intros r Hr.
  apply list_elem_of_fmap in Hr as ([d o] & -> & _). simpl.
  fold (metric_text (scheduled_values (group start raw (d, o)))).
  fold (metric_text (actual_values (group start raw (d, o)))).
  split_and!; try done.
  - apply metric_text_empty_iff.
  - apply metric_text_empty_iff.
  - intros -> x. rewrite metric_text_nil. intros H. by eapply repr_nonempty.
  - intros -> x. rewrite metric_text_nil. intros H. by eapply repr_nonempty.
Qed.

End clean_dataset_claims.

Section filter_claims.
Import PyStr PyDate PyFloat clean_data Spec.

Lemma add_row_skip start data row :
  row_key start row = None → add_row start data row = data.
Proof.
  intros H. apply map_eq. intros key. rewrite add_row_lookup, H.
  by rewrite decide_False.
Qed.

Lemma add_row_keep start row key :
  row_key start row = Some key → add_row start ∅ row ≠ ∅.
Proof.
  intros H E. assert (add_row start ∅ row !! key = None) as Hl
    by (by rewrite E, lookup_empty).
  rewrite add_row_lookup, H, decide_True in Hl by done. done.
Qed.

Lemma contributes_iff start row :
  contributes start row ↔ is_Some (row_key start row).
Proof.
  split.
  - intros [data H]. destruct (row_key start row) eqn:E; [done|].
    destruct H. by apply add_row_skip.
  - intros [key H]. exists ∅. by eapply add_row_keep.
Qed.

Lemma excluded_iff start row : excluded start row ↔ row_key start row = None.
Proof.
  split.
  - intros H. destruct (row_key start row) eqn:E; [|done].
    destruct (add_row_keep _ _ _ E). apply H.
  - intros H data. by apply add_row_skip.
Qed.

Lemma load_raw_data_drop start raw1 row raw2 :
  excluded start row →
  load_raw_data (raw1 ++ row :: raw2) start = load_raw_data (raw1 ++ raw2) start.
Proof.
  intros H. unfold load_raw_data. rewrite !foldl_app. simpl. by rewrite H.
Qed.

(** C4, as stated, fails: a row whose date parses and is not before the
    start date, but whose region is empty, contributes nothing. *)
Lemma C4_counterexample :
  ¬ ∀ start row d,
      strptime (strip (or_empty (raw_date row))) = Some d →
      (contributes start row ↔ PyDate.le start d).
Proof.
  intros H.
  specialize (H (mk_date 2026 1 31)
                (mk_raw_row (Some "01.02.2026") (Some "") None (Some "4") None)
                (mk_date 2026 2 1) eq_refl).
  destruct H as [_ H].
  assert (Hle : PyDate.le (mk_date 2026 1 31) (mk_date 2026 2 1)).
  { left. right. simpl. lia. }
  apply H, contributes_iff in Hle as [key Hkey]. done.
Qed.

(** C4, amended. For every raw row with a date that parses and a region
    name that is not empty, the row contributes to the aggregate if and
    only if its date is on or after the start date. Whatever the region,
    a row that contributes is dated on or after the start date, and a
    row dated before it is excluded from all aggregates: the aggregate
    is the one of the input without that row. *)
Theorem C4_date_filter start row d :
  strptime (strip (or_empty (raw_date row))) = Some d →
  (strip (or_empty (raw_oblast row)) ≠ "" →
   (contributes start row ↔ PyDate.le start d))
  ∧ (contributes start row → PyDate.le start d)
  ∧ (PyDate.lt d start →
     excluded start row
     ∧ ∀ raw1 raw2,
         load_raw_data (raw1 ++ row :: raw2) start
         = load_raw_data (raw1 ++ raw2) start).
Proof.
  intros Hd.
  assert (Hk : row_key start row
               = if truthy (strip (or_empty (raw_oblast row)))
                 then if decide (PyDate.lt d start) then None
                      else Some (strftime d, strip (or_empty (raw_oblast row)))
                 else None).
  { unfold row_key. rewrite Hd.
    assert (truthy (strip (or_empty (raw_date row))) = true) as ->.
    { by destruct (strip (or_empty (raw_date row))). }
    by destruct (truthy (strip (or_empty (raw_oblast row)))). }
  assert (Hle : contributes start row → PyDate.le start d).
  { rewrite contributes_iff, Hk. intros [key Hkey].
    destruct (truthy _); [|done]. case_decide as Hlt; [done|].
    destruct (decide (PyDate.le start d)) as [|Hn]; [done|].
    by apply date_lt_not_le in Hn. }
  split_and!; [|done|].
  - intros Ho. split; [done|]. intros Hsd.
    apply contributes_iff. rewrite Hk. apply truthy_true in Ho as ->.
    case_decide as Hlt; [|done]. by apply date_lt_not_le in Hlt.
  - intros Hlt. assert (excluded start row) as Hex.
    { apply excluded_iff. rewrite Hk. destruct (truthy _); [|done].
      by rewrite decide_True. }
    split; [done|]. intros. by apply load_raw_data_drop.
Qed.

(** The theorem at a report for Kyiv dated on the start date. *)
Lemma C4_date_filter_witness :
  strptime (strip (or_empty (raw_date
     (mk_raw_row (Some "31.01.2026") (Some "Kyiv") None (Some "4") None))))
  = Some (mk_date 2026 1 31)
  ∧ contributes (mk_date 2026 1 31)
      (mk_raw_row (Some "31.01.2026") (Some "Kyiv") None (Some "4") None).
Proof.
  split; [reflexivity|].
  apply (C4_date_filter (mk_date 2026 1 31)
           (mk_raw_row (Some "31.01.2026") (Some "Kyiv") None (Some "4") None)
           (mk_date 2026 1 31) eq_refl).
  - discriminate.
  - by right.
Defined.

End filter_claims.

Section unknown_region_claims.
Import PyStr PyDate PyFloat clean_data Spec.

Lemma calendar_lt_asym a b : calendar_lt a b → calendar_lt b a → False.
Proof.
  unfold calendar_lt. destruct (strptime a), (strptime b); try done.
  apply date_lt_asym.
Qed.

Lemma group_known region_ids raw start d o :
  o ∈ dom region_ids →
  group start (filter (known_region region_ids) raw) (d, o)
  = group start raw (d, o).
Proof.
  intros Ho. unfold group. induction raw as [|r raw IH]; [done|].
  rewrite !filter_cons. destruct (decide (row_key start r = Some (d, o))) as [Hk|Hk].
  - assert (known_region region_ids r) as Hr.
    { apply row_key_date in Hk as (_ & _ & _ & _ & _ & Hko & _).
      simpl in Hko. unfold known_region. by rewrite <- Hko. }
    rewrite decide_True by done. rewrite filter_cons, decide_True by done.
    by rewrite IH.
  - case_decide; [|done]. rewrite filter_cons, decide_False by done. done.
Qed.

Lemma expected_row_known region_ids raw start d o :
  o ∈ dom region_ids →
  expected_row region_ids (filter (known_region region_ids) raw) start d o
  = expected_row region_ids raw start d o.
Proof. intros Ho. unfold expected_row. by rewrite group_known. Qed.

Lemma valid_dates_known_subseteq region_ids raw start :
  valid_dates (filter (known_region region_ids) raw) start
  ⊆ valid_dates raw start.
Proof.
  intros d. unfold valid_dates. rewrite !elem_of_list_to_set, !list_elem_of_omap.
  intros (r & Hr & Hk). exists r. split; [|done].
  by apply list_elem_of_filter in Hr as [_ ?].
Qed.

Lemma group_date_not_known region_ids raw start d o :
  o ∈ dom region_ids →
  d ∉ valid_dates (filter (known_region region_ids) raw) start →
  group start raw (d, o) = [].
Proof.
  intros Ho Hd. destruct (group start raw (d, o)) as [|r g] eqn:E; [done|].
  destruct Hd. assert (r ∈ group start raw (d, o)) as Hr by (rewrite E; left).
  rewrite <- (group_known region_ids) in Hr by done.
  apply elem_of_group in Hr as [Hk Hr].
  unfold valid_dates. rewrite elem_of_list_to_set, list_elem_of_omap.
  exists r. split; [done|]. by rewrite Hk.
Qed.

Lemma StronglySorted_filter {A} (R : relation A) (P : A → Prop)
    `{∀ x, Decision (P x)} (l : list A) :
  StronglySorted R l → StronglySorted R (filter P l).
Proof.
  induction 1 as [|x l Hs IH Hall]; [constructor|].
  rewrite filter_cons. case_decide; [|done]. constructor; [done|].
  apply Forall_forall. intros y [_ Hy]%list_elem_of_filter.
  by eapply Forall_forall in Hall.
Qed.

Lemma filter_grid_rows (f : string * string → clean_row) (S : gset string)
    dates oblasts :
  (∀ p, row_pair (f p) = p) →
  filter (λ r, Date r ∈ S) (f <$> grid dates oblasts)
  = f <$> grid (filter (λ d, d ∈ S) dates) oblasts.
Proof.
  intros Hf. unfold grid. induction dates as [|d dates IH]; [done|].
  rewrite bind_cons, fmap_app, filter_app, IH, filter_cons.
  assert (Hblock : ∀ os : list string,
    filter (λ r, Date r ∈ S) (f <$> (os ≫= λ o : string, [(d, o)]))
    = if decide (d ∈ S) then f <$> (os ≫= λ o : string, [(d, o)]) else []).
  { induction os as [|o os IHo]; [by case_decide|].
    rewrite bind_cons.
    change ([(d, o)] ++ ?x) with ((d, o) :: x).
    rewrite fmap_cons, filter_cons, IHo.
    pose proof (Hf (d, o)) as E. unfold row_pair in E. simplify_eq.
    rewrite H. by case_decide. }
  rewrite Hblock. case_decide; [|done]. by rewrite bind_cons, fmap_app.
Qed.

(** C5, as stated, fails: a row of an unknown region still brings its
    date into the output, so the output is not that of the input
    without the row. *)
Lemma C5_counterexample :
  ¬ ∀ region_ids raw start,
      main region_ids raw start
      = main region_ids (filter (known_region region_ids) raw) start.
Proof.
  intros H.
  specialize (H {["Kyiv" := "UA-30"]}
                [mk_raw_row (Some "01.02.2026") (Some "Atlantis") None
                   (Some "5") None]
                (mk_date 2026 1 31)).
  vm_compute in H. discriminate.
Qed.

(** C5, amended. Rows whose region name is not in the region table never
    raise and bring no value into the output: the lines written are those
    of the input without these rows, and in addition, for every date that
    only such rows report, one line per known region with empty metric
    values and an empty sub-unit list. *)
Theorem C5_unknown_regions region_ids raw start :
  ∃ rows rows',
    main region_ids raw start = Some rows
    ∧ main region_ids (filter (known_region region_ids) raw) start
      = Some rows'
    ∧ rows'
      = filter (λ r, Date r ∈ valid_dates
                               (filter (known_region region_ids) raw) start)
          rows
    ∧ ∀ r, r ∈ rows →
        Date r ∉ valid_dates (filter (known_region region_ids) raw) start →
        Scheduled_outages r = "" ∧ Actual_outages r = "" ∧ Subqueues r = "".
Proof.
  set (raw' := filter (known_region region_ids) raw).
  destruct (main_spec region_ids raw start) as (dates & Hp & Hs & Hmain).
  destruct (main_spec region_ids raw' start) as (dates' & Hp' & Hs' & Hmain').
  destruct (sorted_strings (elements (dom region_ids))) as [Hpo Hso];
    [apply NoDup_elements|].
  do 2 eexists. split; [exact Hmain|]. split; [exact Hmain'|]. split.
  - rewrite filter_grid_rows by (by intros []).
    assert (dates' = filter (λ d, d ∈ valid_dates raw' start) dates) as ->.
    { apply (StronglySorted_unique_strong calendar_lt).
      - intros ???? H1 H2. destruct (calendar_lt_asym _ _ H1 H2).
      - done.
      - by apply StronglySorted_filter.
      - rewrite Hp'. apply NoDup_Permutation.
        + apply NoDup_elements.
        + apply NoDup_filter. rewrite Hp. apply NoDup_elements.
        + intros d. rewrite list_elem_of_filter, Hp, !elem_of_elements.
          pose proof (valid_dates_known_subseteq region_ids raw start d) as Hsub.
          split; [intros Hd; split; [done|by apply Hsub]|by intros [? _]]. }
    apply list_fmap_ext. intros i [d o] Hi. simpl.
    apply list_elem_of_lookup_2, elem_of_grid in Hi as [_ Ho].
    rewrite Hpo, elem_of_elements in Ho. by apply expected_row_known.
  - intros r Hr Hd. apply list_elem_of_fmap in Hr as ([d o] & -> & Hg).
    apply elem_of_grid in Hg as [_ Ho]. rewrite Hpo, elem_of_elements in Ho.
    simpl in *. unfold expected_row.
    rewrite (group_date_not_known region_ids) by done. done.
Qed.

End unknown_region_claims.

Section loader_facts.
Import PyStr PyDate PyFloat build_maps MapSpec.

Lemma index_row_unfold data dates row :
  index_row (data, dates) row =
  match index_key row with
  | Some (d, g) =>
      (<[d := <[g := entry_of row]> (default ∅ (data !! d))]> data,
       dates ++ option_list (strptime d))
  | None => (data, dates)
  end.
Proof.
  unfold index_row, index_key.
  destruct (truthy (strip (or_empty (col_Date row)))),
    (truthy (strip (or_empty (col_GID_1 row)))); cbn [negb orb andb]; try done.
  set (d := strip (or_empty (col_Date row))).
  set (g := strip (or_empty (col_GID_1 row))).
  assert (alter (insert g (mk_entry (parse_float (col_Scheduled_outages row))
                             (parse_float (col_Actual_outages row))
                             (strip (or_empty (col_Subqueues row)))))
            d (setdefault d ∅ data)
          = <[d := <[g := entry_of row]> (default ∅ (data !! d))]> data) as ->.
  { apply map_eq. intros d'. destruct (decide (d = d')) as [<-|Hne].
    - rewrite lookup_alter_eq, lookup_insert_eq, setdefault_lookup, decide_True by done.
      done.
    - rewrite lookup_alter_ne, lookup_insert_ne, setdefault_lookup, decide_False by done.
      done. }
  destruct (strptime d); simpl; by rewrite ?app_nil_r.
Qed.

Lemma index_row_lookup2 data dates row d g :
  lookup2 (index_row (data, dates) row).1 d g =
  if decide (index_key row = Some (d, g)) then Some (entry_of row)
  else lookup2 data d g.
Proof.
  rewrite index_row_unfold. unfold lookup2.
  destruct (index_key row) as [[d' g']|]; [|by rewrite decide_False].
  simpl. destruct (decide (d' = d)) as [->|Hd].
  - rewrite lookup_insert_eq. simpl. destruct (decide (g' = g)) as [->|Hg].
    + by rewrite lookup_insert_eq, decide_True.
    + rewrite lookup_insert_ne, decide_False by congruence.
      by destruct (data !! d).
  - rewrite lookup_insert_ne, decide_False by congruence. done.
Qed.

Lemma index_row_dates data dates row :
  (index_row (data, dates) row).2 = dates ++ option_list (row_date row).
Proof.
  rewrite index_row_unfold. unfold row_date.
  destruct (index_key row) as [[d g]|]; simpl; by rewrite ?app_nil_r.
Qed.

Lemma foldl_index_row_dates rows :
  (foldl index_row (∅, []) rows).2 = omap row_date rows.
Proof.
  induction rows as [|r rows IH] using rev_ind; [done|].
  rewrite foldl_app. simpl. destruct (foldl index_row (∅, []) rows) as [data dates].
  rewrite index_row_dates, omap_app. simpl in *. rewrite IH.
  by destruct (row_date r).
Qed.

(** The keyed structure holds, for a pair of keys, the values of the
    last row indexed under it. *)
Lemma foldl_index_row_lookup2 rows r d g :
  lookup2 (foldl index_row (∅, []) (rows ++ [r])).1 d g =
  if decide (index_key r = Some (d, g)) then Some (entry_of r)
  else lookup2 (foldl index_row (∅, []) rows).1 d g.
Proof.
  rewrite foldl_app. simpl. destruct (foldl index_row (∅, []) rows) as [data dates].
  apply index_row_lookup2.
Qed.

Lemma load_clean_data_data rows :
  (load_clean_data rows).2 = (foldl index_row (∅, []) rows).1.
Proof. unfold load_clean_data. by destruct (foldl index_row (∅, []) rows). Qed.

Lemma load_clean_data_dates rows s :
  s ∈ (load_clean_data rows).1 ↔ ∃ r d, r ∈ rows ∧ row_date r = Some d ∧ s = strftime d.
Proof.
  unfold load_clean_data. pose proof (foldl_index_row_dates rows) as Hd.
  destruct (foldl index_row (∅, []) rows) as [data dates]. simpl in *. subst.
  rewrite list_elem_of_fmap. setoid_rewrite merge_sort_Permutation.
  setoid_rewrite elem_of_elements. setoid_rewrite elem_of_list_to_set.
  setoid_rewrite list_elem_of_omap.
  split; [intros (d & -> & r & ? & ?)|intros (r & d & ? & ? & ->)]; eauto 10.
Qed.

Lemma lookup2_last rows1 r rows2 d g :
  index_key r = Some (d, g) →
  (∀ r', r' ∈ rows2 → index_key r' ≠ Some (d, g)) →
  lookup2 (load_clean_data (rows1 ++ r :: rows2)).2 d g = Some (entry_of r).
Proof.
  rewrite load_clean_data_data. intros Hr.
  induction rows2 as [|r2 rows2 IH] using rev_ind; intros Hrest.
  - by rewrite foldl_index_row_lookup2, decide_True.
  - change (rows1 ++ r :: rows2 ++ [r2]) with (rows1 ++ (r :: rows2) ++ [r2]).
    rewrite app_assoc, foldl_index_row_lookup2, decide_False.
    + apply IH. intros r' Hr'. apply Hrest, elem_of_app. by left.
    + apply Hrest, elem_of_app. right. left.
Qed.

Lemma lookup2_is_Some rows r d g :
  r ∈ rows → index_key r = Some (d, g) →
  is_Some (lookup2 (load_clean_data rows).2 d g).
Proof.
  rewrite load_clean_data_data. intros Hr Hk.
  induction rows as [|r2 rows IH] using rev_ind; [by apply elem_of_nil in Hr|].
  rewrite foldl_index_row_lookup2. case_decide; [done|].
  apply IH. apply elem_of_app in Hr as [?|Hr]; [done|].
  apply list_elem_of_singleton in Hr as ->. done.
Qed.

End loader_facts.

Section loader_claims.
Import PyStr PyDate PyFloat build_maps MapSpec.

Lemma index_key_Some row :
  strip (or_empty (col_Date row)) ≠ "" →
  strip (or_empty (col_GID_1 row)) ≠ "" →
  index_key row
  = Some (strip (or_empty (col_Date row)), strip (or_empty (col_GID_1 row))).
Proof.
  intros Hd Hg. unfold index_key.
  apply truthy_true in Hd as ->. by apply truthy_true in Hg as ->.
Qed.

Lemma index_key_inv row d g :
  index_key row = Some (d, g) →
  d = strip (or_empty (col_Date row)) ∧ g = strip (or_empty (col_GID_1 row))
  ∧ d ≠ "" ∧ g ≠ "".
Proof.
  unfold index_key.
  destruct (truthy (strip (or_empty (col_Date row)))) eqn:Ed; [|done].
  destruct (truthy (strip (or_empty (col_GID_1 row)))) eqn:Eg; [|done].
  intros [= <- <-]. by rewrite <- !truthy_true.
Qed.

Lemma date_list_parses rows s :
  s ∈ (load_clean_data rows).1 → is_Some (strptime s).
Proof.
  intros (r & d & _ & Hd & ->)%load_clean_data_dates.
  unfold row_date in Hd. destruct (index_key r) as [k|]; [|done]. simpl in Hd.
  apply strptime_valid in Hd. rewrite strptime_strftime by done. done.
Qed.

(** C7, as stated, fails: of two rows with the same date string and the
    same region identifier only the later one is found in the keyed
    structure. *)
Lemma C7_counterexample :
  ¬ ∀ rows row s g,
      row ∈ rows → index_key row = Some (s, g) → strptime s = None →
      lookup2 (load_clean_data rows).2 s g = Some (entry_of row)
      ∧ s ∉ (load_clean_data rows).1.
Proof.
  intros H.
  pose (r1 := mk_csv_row (Some "soon") (Some "UA-30") (Some "1") (Some "") (Some "")).
  pose (r2 := mk_csv_row (Some "soon") (Some "UA-30") (Some "2") (Some "") (Some "")).
  destruct (H [r1; r2] r1 "soon" "UA-30") as [Hl _]; [left|done..|].
  vm_compute in Hl. discriminate.
Qed.

(** C7, amended. When the clean dataset has a row with a non-empty date
    string [s] that does not parse and a non-empty region identifier [g],
    the load does not abort; the keyed structure has an entry under the
    raw date string and the identifier, which holds the values of this
    row unless a later row with the same date string and identifier
    replaces them; and the date string is not in the returned date
    list. *)
Theorem C7_unparseable_date rows1 row rows2 s g :
  index_key row = Some (s, g) →
  strptime s = None →
  ∃ dates data,
    load_clean_data (rows1 ++ row :: rows2) = (dates, data)
    ∧ (s ∉ dates)
    ∧ is_Some (lookup2 data s g)
    ∧ ((∀ r', r' ∈ rows2 → index_key r' ≠ Some (s, g)) →
       lookup2 data s g = Some (entry_of row)).
Proof.
  intros Hk Hp.
  exists (load_clean_data (rows1 ++ row :: rows2)).1,
    (load_clean_data (rows1 ++ row :: rows2)).2.
  split; [by destruct (load_clean_data _)|]. split_and!.
  - intros Hin%date_list_parses. rewrite Hp in Hin. by destruct Hin.
  - apply (lookup2_is_Some _ row); [|done]. apply elem_of_app. right. left.
  - intros Hrest. by apply lookup2_last.
Qed.

(** The theorem at a clean dataset of one row dated "soon". *)
Lemma C7_unparseable_date_witness :
  index_key (mk_csv_row (Some "soon") (Some "UA-30") (Some "1") None None)
  = Some ("soon", "UA-30")
  ∧ strptime "soon" = None
  ∧ ∃ dates data,
    load_clean_data
      ([] ++ mk_csv_row (Some "soon") (Some "UA-30") (Some "1") None None :: [])
    = (dates, data)
    ∧ ("soon" ∉ dates)
    ∧ is_Some (lookup2 data "soon" "UA-30")
    ∧ ((∀ r', r' ∈ [] → index_key r' ≠ Some ("soon", "UA-30")) →
       lookup2 data "soon" "UA-30"
       = Some (entry_of (mk_csv_row (Some "soon") (Some "UA-30") (Some "1")
                           None None))).
Proof.
  split; [reflexivity|]. split; [reflexivity|].
  apply (C7_unparseable_date []
           (mk_csv_row (Some "soon") (Some "UA-30") (Some "1") None None) []
           "soon" "UA-30").
  - reflexivity.
  - reflexivity.
Defined.

(** C10 fails on the code: for a row whose date parses but is not
    written with two digits for the day and the month, the date list
    holds the formatted date while the keyed structure holds the raw
    string, so the listed date is no key of the structure. *)
Theorem C10_failing_input :
  let out :=
    load_clean_data
      [mk_csv_row (Some "1.2.2026") (Some "UA-30") (Some "5.0") (Some "")
         (Some "")] in
  out.1 = ["01.02.2026"]
  ∧ out.2 !! "01.02.2026" = None
  ∧ is_Some (out.2 !! "1.2.2026").
Proof. vm_compute. split_and!; [done..|]. by eexists. Qed.

(** What holds of the date list in general: each of its strings is the
    formatted date of a key of the structure, and is itself a key when
    the clean dataset writes its dates formatted. *)
Lemma date_list_keys rows s :
  s ∈ (load_clean_data rows).1 →
  ∃ k d, k ∈ dom (load_clean_data rows).2 ∧ strptime k = Some d
         ∧ s = strftime d.
Proof.
  intros (r & d & Hr & Hd & ->)%load_clean_data_dates.
  unfold row_date in Hd. destruct (index_key r) as [[k g]|] eqn:Hk; [|done].
  simpl in Hd. exists k, d. split_and!; [|done..].
  destruct (lookup2_is_Some rows r k g Hr Hk) as [e He].
  unfold lookup2 in He. apply elem_of_dom.
  destruct ((load_clean_data rows).2 !! k); [done|done].
Qed.

Lemma date_list_keys_formatted rows :
  (∀ r d, r ∈ rows → row_date r = Some d →
          strip (or_empty (col_Date r)) = strftime d) →
  ∀ s, s ∈ (load_clean_data rows).1 → s ∈ dom (load_clean_data rows).2.
Proof.
  intros Hfmt s (r & d & Hr & Hd & ->)%load_clean_data_dates.
  pose proof (Hfmt r d Hr Hd) as Hs.
  unfold row_date in Hd. destruct (index_key r) as [[k g]|] eqn:Hk; [|done].
  destruct (index_key_inv _ _ _ Hk) as (-> & _).
  destruct (lookup2_is_Some rows r _ g Hr Hk) as [e He].
  unfold lookup2 in He. apply elem_of_dom. rewrite <- Hs.
  destruct ((load_clean_data rows).2 !! _); [done|done].
Qed.

End loader_claims.

Section color_claims.
Import PyStr PyDate PyFloat build_maps MapSpec.

Lemma bucket_int n :
  0 ≤ n ≤ 24 →
  bucket_of_color
    (if r_le (RInt n) 0 then palette_color 0
     else if r_ge (RInt n) 1 && r_le (RInt n) 4 then palette_color 1
     else if r_ge (RInt n) 5 && r_le (RInt n) 8 then palette_color 2
     else if r_ge (RInt n) 9 && r_le (RInt n) 12 then palette_color 3
     else if r_ge (RInt n) 13 && r_le (RInt n) 16 then palette_color 4
     else if r_ge (RInt n) 17 && r_le (RInt n) 20 then palette_color 5
     else palette_color 6) = hour_bucket n.
Proof.
  intros Hn. assert (Hk : n ∈ seqZ 0 25) by (apply elem_of_seqZ; lia).
  revert Hk. generalize n. apply Forall_forall.
  forall_range.
Qed.

Lemma bucket_rounded x n :
  Math_round x = RInt n → 0 ≤ n ≤ 24 → bucket (Number x) = hour_bucket n.
Proof.
  intros Hr Hn. unfold bucket, getColor. rewrite Hr. by apply bucket_int.
Qed.

Lemma Math_round_hours h : 0 ≤ h ≤ 24 → Math_round (hours h) = RInt h.
Proof.
  intros Hn. assert (Hk : h ∈ seqZ 0 25) by (apply elem_of_seqZ; lia).
  revert Hk. generalize h. apply Forall_forall.
  forall_range.
Qed.

Lemma palette_color_bucket (i : nat) :
  (i < 7)%nat →
  ∃ label, (label, palette_color i) ∈ palette
           ∧ bucket_of_color (palette_color i) = Some label.
Proof.
  intros Hi. do 7 (destruct i as [|i];
    [eexists; split; [|vm_compute; reflexivity]; unfold palette;
     repeat first [apply list_elem_of_here | apply list_elem_of_further]|]).
  lia.
Qed.

Lemma getColor_palette x :
  ∃ label,
    (label, getColor (Number x)) ∈ palette
    ∧ bucket (Number x) = Some label.
Proof.
  unfold bucket, getColor. generalize (Math_round x). intros r.
  repeat match goal with
         | |- context [if ?b then _ else _] => destruct b
         end; apply palette_color_bucket; lia.
Qed.

(** C9. [getColor] sends an hour count to one of the seven buckets
    0, 1-4, 5-8, 9-12, 13-16, 17-20 and 21-24, both ends of a bucket
    included, over the hours 0 to 24 (a fractional value counts as the
    integer [Math.round] gives), and an absent value to the bucket
    "No data"; so 0 goes to "0", 4 to "1-4" and 24 to "21-24". *)
Theorem C9_color_buckets :
  (∀ x n, Math_round x = RInt n → 0 ≤ n ≤ 24 →
          bucket (Number x) = hour_bucket n)
  ∧ (∀ h, 0 ≤ h ≤ 24 → bucket (Number (hours h)) = hour_bucket h)
  ∧ (∀ x, ∃ label, (label, getColor (Number x)) ∈ palette
                   ∧ bucket (Number x) = Some label)
  ∧ bucket (Number (hours 0)) = Some "0"
  ∧ bucket (Number (hours 4)) = Some "1-4"
  ∧ bucket (Number (hours 24)) = Some "21-24"
  ∧ bucket Null = Some "No data"
  ∧ bucket Undefined = Some "No data"
  ∧ bucket EmptyStr = Some "No data".
Proof.
  split; [apply bucket_rounded|].
  split; [intros h Hh; apply bucket_rounded; [by apply Math_round_hours|done]|].
  split; [apply getColor_palette|].
  split_and!; vm_compute; reflexivity.
Qed.

End color_claims.

Section coercion_claims.
Import PyStr PyFloat FloatSpec.

Lemma is_digit_char c :
  is_digit c = true → ∃ k, digit c = Some k ∧ 0 ≤ k < 10 ∧ c = digit_char k.
Proof.
  destruct c as [[] [] [] [] [] [] [] []]; try discriminate; intros _;
    eexists; (split; [reflexivity|split; [lia|reflexivity]]).
Qed.

Lemma span_digits_spec s :
  ∃ a r, span_digits s = (a, r) ∧ s = a +:+ r ∧ all_digits a = true
         ∧ match r with
           | EmptyString => True
           | String c _ => is_digit c = false
           end.
Proof.
  induction s as [|c s (a & r & E & -> & Ha & Hr)]; [by exists "", ""|].
  simpl. destruct (is_digit c) eqn:Ec.
  - rewrite E. exists (String c a), r. split_and!; try done. simpl. by rewrite Ec.
  - exists "", (String c (a +:+ r)). by rewrite Ec.
Qed.

Lemma read_digits_all acc a r :
  all_digits a = true →
  match r with EmptyString => True | String c _ => is_digit c = false end →
  ∃ v, read_digits acc (a +:+ r) = (v, Z.of_nat (String.length a), r).
Proof.
  intros Ha Hr. revert acc. induction a as [|c a IH]; intros acc.
  - exists acc. destruct r as [|c r]; [done|]. simpl. unfold digit.
    unfold is_digit in Hr. by destruct (Ascii.is_nat c).
  - simpl in Ha. apply andb_true_iff in Ha as [Hc Ha].
    destruct (is_digit_char c Hc) as (k & Hk & _ & _).
    rewrite app_String. simpl. rewrite Hk.
    destruct (IH Ha (10 * acc + k)) as [v ->]. exists v. f_equal. f_equal. lia.
Qed.

Lemma replace_comma_digits a r :
  all_digits a = true → replace_comma (a +:+ r) = a +:+ replace_comma r.
Proof.
  induction a as [|c a IH]; [done|]. simpl. intros [Hc Ha]%andb_true_iff.
  rewrite app_String. simpl. rewrite IH by done.
  destruct (is_digit_char c Hc) as (k & _ & Hk & ->).
  assert (Ascii.eqb (digit_char k) "," = false) as ->; [|done].
  assert (Hr : k ∈ seqZ 0 10) by (apply elem_of_seqZ; lia).
  revert Hr. generalize k. apply Forall_forall. forall_range.
Qed.

Lemma underscores_ok_none prev s :
  Ascii.eqb prev "_" = false → remove_underscores s = s →
  underscores_ok prev s = true.
Proof.
  revert prev. induction s as [|c s IH]; intros prev Hp; simpl.
  - by rewrite Hp.
  - destruct (Ascii.eqb c "_") eqn:Ec.
    + intros H. exfalso. clear -H.
      assert (∀ t, String.length (remove_underscores t) ≤ String.length t)%nat as Hlen.
      { clear. induction t as [|c t IH]; simpl; [done|].
        destruct (Ascii.eqb c "_"); simpl; lia. }
      pose proof (Hlen s) as Hl. rewrite H in Hl. simpl in Hl. lia.
    + intros [= H]. rewrite Hp. simpl. by apply IH.
Qed.

Lemma app_empty_r (s : string) : s +:+ "" = s.
Proof. induction s as [|c s IH]; [done|]. by rewrite app_String, IH. Qed.

Lemma remove_underscores_app s t :
  remove_underscores (s +:+ t) = remove_underscores s +:+ remove_underscores t.
Proof.
  induction s as [|c s IH]; [done|]. rewrite app_String. simpl.
  destruct (Ascii.eqb c "_"); by rewrite IH.
Qed.

Lemma digit_not_special c :
  is_digit c = true →
  Ascii.eqb c "_" = false ∧ Ascii.eqb c "+" = false ∧ Ascii.eqb c "-" = false
  ∧ lower c = c ∧ Ascii.eqb c "i" = false ∧ Ascii.eqb c "n" = false.
Proof.
  intros (k & _ & Hk & ->)%is_digit_char.
  assert (Hr : k ∈ seqZ 0 10) by (apply elem_of_seqZ; lia).
  revert Hr. generalize k. apply Forall_forall.
  match goal with
  | |- Forall _ ?l => let l' := eval vm_compute in l in change l with l'
  end.
  repeat (constructor; [vm_compute; done|]). constructor.
Qed.

Lemma remove_underscores_digits a :
  all_digits a = true → remove_underscores a = a.
Proof.
  induction a as [|c a IH]; [done|]. simpl. intros [Hc Ha]%andb_true_iff.
  destruct (digit_not_special c Hc) as (-> & _). by rewrite IH.
Qed.

(** [float()] reads every numeral made of an optional sign, digits and
    optionally a point followed by digits. *)
Lemma float_of_str_decimal sgn c a r :
  sgn = "" ∨ sgn = "+" ∨ sgn = "-" →
  all_digits (String c a) = true →
  r = "" ∨ (∃ b, r = String "." b ∧ all_digits b = true) →
  is_Some (float_of_str (sgn +:+ String c a +:+ r)).
Proof.
  intros Hs Ha Hr.
  assert (Hhead : match r with
                  | EmptyString => True
                  | String c _ => is_digit c = false
                  end) by (by destruct Hr as [->|(b & -> & _)]).
  assert (Hru : remove_underscores r = r).
  { destruct Hr as [->|(b & -> & Hb)]; [done|]. simpl.
    by rewrite remove_underscores_digits. }
  assert (Hru' : remove_underscores (sgn +:+ String c a +:+ r)
                 = sgn +:+ String c a +:+ r).
  { rewrite !remove_underscores_app, Hru.
    rewrite (remove_underscores_digits (String c a)) by done.
    by destruct Hs as [->|[->| ->]]. }
  unfold float_of_str. rewrite underscores_ok_none, Hru' by done.
  pose proof Ha as Ha'. simpl in Ha'. apply andb_true_iff in Ha' as [Hc _].
  destruct (digit_not_special c Hc) as (_ & Hplus & Hminus & Hlow & Hi & Hn).
  assert (Hsign : ∃ neg, read_sign (sgn +:+ String c a +:+ r)
                         = (neg, String c a +:+ r)).
  { destruct Hs as [->|[->| ->]]; [|by eexists..].
    exists false. rewrite app_empty_l, app_String. unfold read_sign.
    destruct (Ascii.eqb_spec c "-") as [->|?]; [done|].
    destruct (Ascii.eqb_spec c "+") as [->|?]; [done|].
    destruct c as [[] [] [] [] [] [] [] []]; done. }
  destruct Hsign as [neg Hsign]. unfold float_of_plain. rewrite Hsign.
  assert (Hw1 : String.eqb (lower_string (String c a +:+ r)) "inf" = false).
  { rewrite app_String. simpl. by rewrite Hlow, Hi. }
  assert (Hw2 : String.eqb (lower_string (String c a +:+ r)) "infinity" = false).
  { rewrite app_String. simpl. by rewrite Hlow, Hi. }
  assert (Hw3 : String.eqb (lower_string (String c a +:+ r)) "nan" = false).
  { rewrite app_String. simpl. by rewrite Hlow, Hn. }
  rewrite Hw1, Hw2, Hw3. cbn [orb].
  destruct (read_digits_all 0 (String c a) r Ha Hhead) as [ip ->].
  assert (Hni : (0 <? Z.of_nat (String.length (String c a))) = true)
    by (apply Z.ltb_lt; simpl; lia).
  destruct Hr as [->|(b & -> & Hb)].
  - rewrite Hni. simpl. by eexists.
  - destruct (read_digits_all ip b "" Hb I) as [m Hm].
    rewrite app_empty_r in Hm. rewrite Hm, Hni. simpl. by eexists.
Qed.

Lemma drop_sign_spec s :
  ∃ sgn, (sgn = "" ∨ sgn = "+" ∨ sgn = "-")
         ∧ s = sgn +:+ drop_sign s
         ∧ replace_comma s = sgn +:+ replace_comma (drop_sign s).
Proof.
  destruct s as [|c s]; [exists ""; split_and!; auto|].
  destruct (Ascii.eqb_spec c "+") as [->|Hp]; [exists "+"; split_and!; auto|].
  destruct (Ascii.eqb_spec c "-") as [->|Hm]; [exists "-"; split_and!; auto|].
  exists "". split; [auto|].
  assert (drop_sign (String c s) = String c s) as ->; [|done].
  destruct c as [[] [] [] [] [] [] [] []]; done.
Qed.

Lemma decimal_numeral_accepted s :
  decimal_numeral (strip s) = true →
  is_Some (clean_data.parse_float (Some s)).
Proof.
  unfold clean_data.parse_float, decimal_numeral.
  destruct (drop_sign_spec (strip s)) as (sgn & Hsgn & Hs & Hrc).
  destruct (span_digits_spec (drop_sign (strip s))) as (a & r & -> & Hd & Ha & _).
  intros [Hta Hr]%andb_true_iff. destruct a as [|c a]; [done|].
  assert (truthy (strip s) = true) as ->.
  { rewrite Hs, Hd. by destruct Hsgn as [->|[->| ->]]. }
  simpl. rewrite Hrc, Hd, replace_comma_digits by done.
  apply float_of_str_decimal; [done..|].
  destruct r as [|c' b]; [by left|]. right.
  apply andb_true_iff in Hr as [[Hc Hb]%andb_true_iff Hdb].
  exists b. simpl. rewrite <- (app_empty_r b) at 1.
  rewrite replace_comma_digits, app_empty_r by done.
  apply orb_true_iff in Hc as [->%Ascii.eqb_eq| ->%Ascii.eqb_eq]; done.
Qed.

(** C6, as stated, fails: the text "nan" is no numeral in decimal-comma
    or decimal-point notation, and yet both stages turn it into a float
    (a NaN), not into an absent field. *)
Lemma C6_counterexample :
  ¬ ∀ s, is_Some (clean_data.parse_float (Some s))
         ↔ decimal_numeral (strip s) = true.
Proof.
  intros H. specialize (H "nan"). destruct H as [H _].
  assert (decimal_numeral (strip "nan") = true) as E; [|done].
  apply H. by eexists.
Qed.

(** C6, amended. In both stages the coercion of a numeric field never
    raises and gives the same result; it accepts every numeral in
    decimal-comma or decimal-point notation, and beyond those exactly
    the texts that [float()] reads once the white space at the ends is
    stripped and every comma is turned into a point (so also exponents,
    underscores between digits, inf, infinity and nan); for every other
    text, and for a missing field, the field becomes absent. *)
Theorem C6_numeric_coercion :
  (∀ v, clean_data.parse_float v = build_maps.parse_float v)
  ∧ (∀ s, decimal_numeral (strip s) = true →
          is_Some (clean_data.parse_float (Some s)))
  ∧ (∀ s, is_Some (clean_data.parse_float (Some s))
          ↔ strip s ≠ ""
            ∧ is_Some (float_of_str (replace_comma (strip s))))
  ∧ (∀ s, clean_data.parse_float (Some s) = None
          ↔ strip s = ""
            ∨ float_of_str (replace_comma (strip s)) = None)
  ∧ clean_data.parse_float None = None
  ∧ clean_data.parse_float (Some "nan") = Some S754_nan
  ∧ is_Some (clean_data.parse_float (Some "1e3"))
  ∧ is_Some (clean_data.parse_float (Some "1_000"))
  ∧ clean_data.parse_float (Some "inf") = Some (S754_infinity false).
Proof.
  split; [by intros []|]. split; [apply decimal_numeral_accepted|].
  split; [|split].
  - intros s. unfold clean_data.parse_float.
    destruct (strip s) as [|c t]; simpl; [|by split; [|intros [_ ?]]].
    split; [by intros []|by intros []].
  - intros s. unfold clean_data.parse_float.
    destruct (strip s) as [|c t]; simpl; [by split; [left|]|].
    split; [by right|by intros [|]].
  - split_and!; try done; by eexists.
Qed.

End coercion_claims.

Section rounding_facts.
Import PyStr PyFloat FloatSpec.

Lemma pow2_pos k : 0 < 2 ^ k ∨ (k < 0 ∧ 2 ^ k = 0).
Proof.
  destruct (decide (0 ≤ k)); [left; by apply Z.pow_pos_nonneg|].
  right. split; [lia|]. apply Z.pow_neg_r. lia.
Qed.

Lemma pow2_max_pos k : 0 < 2 ^ Z.max 0 k.
Proof. apply Z.pow_pos_nonneg; lia. Qed.

(** [2 ^ (a + b) <= n / d] is [2 ^ a <= (n / d) / 2 ^ b], spelled on the
    scaled numerator and denominator. *)
Lemma pow_le_shift a b n d :
  0 ≤ a → pow_le (a + b) n d ↔ 2 ^ a * scaled_den b d ≤ scaled_num b n.
Proof.
  intros Ha. unfold pow_le, scaled_num, scaled_den.
  pose proof (pow2_max_pos b) as Hb. pose proof (pow2_max_pos (- b)) as Hnb.
  pose proof (pow2_max_pos (a + b)) as Hab.
  pose proof (pow2_max_pos (- (a + b))) as Hnab.
  assert (Ha2 : 0 < 2 ^ a) by (by apply Z.pow_pos_nonneg).
  assert (E : 2 ^ Z.max 0 (a + b) * 2 ^ Z.max 0 (- b)
              = 2 ^ a * 2 ^ Z.max 0 b * 2 ^ Z.max 0 (- (a + b))).
  { rewrite <- !Z.pow_add_r by lia. f_equal. lia. }
  split; intros H.
  - apply (Z.mul_le_mono_pos_r _ _ (2 ^ Z.max 0 (- (a + b)))); [done|].
    transitivity (d * (2 ^ Z.max 0 (a + b) * 2 ^ Z.max 0 (- b))); [rewrite E; lia|].
    transitivity (n * 2 ^ Z.max 0 (- (a + b)) * 2 ^ Z.max 0 (- b)); [|lia].
    rewrite Z.mul_assoc. apply Z.mul_le_mono_pos_r; [done|]. exact H.
  - apply (Z.mul_le_mono_pos_r _ _ (2 ^ Z.max 0 (- b))); [done|].
    transitivity (2 ^ a * (d * 2 ^ Z.max 0 b) * 2 ^ Z.max 0 (- (a + b)));
      [rewrite <- Z.mul_assoc, E; lia|].
    transitivity (n * 2 ^ Z.max 0 (- b) * 2 ^ Z.max 0 (- (a + b))); [|lia].
    apply Z.mul_le_mono_pos_r; [done|]. exact H.
Qed.

Lemma pow_le_scaled b n d : pow_le b n d ↔ scaled_den b d ≤ scaled_num b n.
Proof.
  rewrite <- (Z.add_0_l b) at 1. rewrite pow_le_shift by done.
  by rewrite Z.pow_0_r, Z.mul_1_l.
Qed.

Lemma pow_le_mono L L' n d : 0 < d → L' ≤ L → pow_le L n d → pow_le L' n d.
Proof.
  intros Hd HL H. replace L with ((L - L') + L') in H by lia.
  apply pow_le_shift in H; [|lia]. apply pow_le_scaled.
  etrans; [|exact H].
  assert (0 < scaled_den L' d) by (apply Z.mul_pos_pos; [done|apply pow2_max_pos]).
  assert (1 ≤ 2 ^ (L - L')) by (apply Z.lt_pred_le, Z.pow_pos_nonneg; lia).
  nia.
Qed.

Lemma floor_log2_ratio_spec n d :
  0 < n → 0 < d →
  pow_le (floor_log2_ratio n d) n d ∧ ¬ pow_le (floor_log2_ratio n d + 1) n d.
Proof.
  intros Hn Hd. unfold floor_log2_ratio, pow_le.
  destruct (Z.leb_spec d n) as [Hle|Hlt].
  - assert (Hq : 0 < n / d) by (apply Z.div_str_pos; lia).
    destruct (Z.log2_spec (n / d) Hq) as [H1 H2].
    pose proof (Z.log2_nonneg (n / d)) as Hnn.
    set (L := Z.log2 (n / d)) in *.
    replace (Z.max 0 L) with L by lia.
    replace (Z.max 0 (- L)) with 0 by lia.
    replace (Z.max 0 (L + 1)) with (Z.succ L) by lia.
    replace (Z.max 0 (- (L + 1))) with 0 by lia.
    rewrite Z.pow_0_r, !Z.mul_1_r.
    pose proof (Z.mul_div_le n d Hd) as Hlo.
    pose proof (Z.mul_succ_div_gt n d Hd) as Hhi.
    split.
    + etrans; [|exact Hlo]. apply Z.mul_le_mono_nonneg_l; lia.
    + intros Hc. assert (d * Z.succ (n / d) ≤ d * 2 ^ Z.succ L)
        by (apply Z.mul_le_mono_nonneg_l; lia). lia.
  - set (c := (d + n - 1) / n).
    assert (Hc1 : d ≤ n * c).
    { unfold c. pose proof (Z.mul_succ_div_gt (d + n - 1) n Hn).
      unfold Z.succ in *. lia. }
    assert (Hc2 : n * (c - 1) < d).
    { unfold c. pose proof (Z.mul_div_le (d + n - 1) n Hn). lia. }
    assert (Hc : 1 < c) by nia.
    destruct (Z.log2_up_spec c Hc) as [H1 H2].
    assert (Hj : 0 < Z.log2_up c) by (by apply Z.log2_up_pos).
    set (j := Z.log2_up c) in *.
    replace (Z.max 0 (- j)) with 0 by lia.
    replace (Z.max 0 (- - j)) with j by lia.
    replace (Z.max 0 (- j + 1)) with 0 by lia.
    replace (Z.max 0 (- (- j + 1))) with (Z.pred j) by lia.
    rewrite Z.pow_0_r, !Z.mul_1_r. split.
    + etrans; [exact Hc1|]. apply Z.mul_le_mono_nonneg_l; lia.
    + intros Hc'. assert (n * 2 ^ Z.pred j ≤ n * (c - 1))
        by (apply Z.mul_le_mono_nonneg_l; lia). lia.
Qed.

Lemma floor_log2_ratio_unique L n d :
  0 < n → 0 < d → pow_le L n d → ¬ pow_le (L + 1) n d →
  floor_log2_ratio n d = L.
Proof.
  intros Hn Hd H1 H2. destruct (floor_log2_ratio_spec n d Hn Hd) as [H3 H4].
  destruct (Z.lt_trichotomy (floor_log2_ratio n d) L) as [Hlt|[?|Hlt]]; [|done|].
  - destruct H4. apply (pow_le_mono L); [done|lia|done].
  - destruct H2. apply (pow_le_mono (floor_log2_ratio n d)); [done|lia|done].
Qed.

Lemma digits2_pos_size p : digits2_pos p = Pos.size p.
Proof. induction p; simpl; by rewrite ?IHp. Qed.

Lemma digits2_log2 p : Zpos (digits2_pos p) = Z.log2 (Zpos p) + 1.
Proof.
  rewrite digits2_pos_size. destruct p; simpl; rewrite ?Pos2Z.inj_succ; lia.
Qed.

Lemma bounded_intro p e :
  (2 ^ 52 ≤ Zpos p < 2 ^ 53 ∧ -1074 ≤ e ≤ 971) ∨ (Zpos p < 2 ^ 52 ∧ e = -1074) →
  bounded 53 1024 p e = true.
Proof.
  intros H. unfold bounded, canonical_mantissa, fexp, emin.
  rewrite digits2_log2. apply andb_true_iff. rewrite Z.eqb_eq, Z.leb_le.
  destruct H as [[[H1 H2] He]|[H1 ->]].
  - assert (Z.log2 (Zpos p) = 52) as ->
      by (apply Z.log2_unique; [lia|split; [exact H1|exact H2]]).
    lia.
  - assert (Z.log2 (Zpos p) < 52) by (apply Z.log2_lt_pow2; lia). lia.
Qed.

Lemma bounded_elim p e :
  bounded 53 1024 p e = true →
  Z.log2 (Zpos p) + 1 ≤ 53 ∧ -1074 ≤ e ≤ 971
  ∧ Z.max (Z.log2 (Zpos p) + 1 + e - 53) (-1074) = e.
Proof.
  unfold bounded, canonical_mantissa, fexp, emin. rewrite digits2_log2.
  intros [H1 H2]%andb_true_iff. apply Z.eqb_eq in H1. apply Z.leb_le in H2.
  lia.
Qed.

Lemma scaled_den_pos e d : 0 < d → 0 < scaled_den e d.
Proof. intros. apply Z.mul_pos_pos; [done|apply pow2_max_pos]. Qed.

Lemma scaled_num_pos e n : 0 < n → 0 < scaled_num e n.
Proof. intros. apply Z.mul_pos_pos; [done|apply pow2_max_pos]. Qed.

(** [round_ratio] only gives binary64 values. *)
Lemma round_ratio_valid s n d : valid (round_ratio s n d) = true.
Proof.
  unfold round_ratio.
  destruct (floor_log2_ratio_spec (Zpos n) (Zpos d)) as [Hlo Hhi]; [done..|].
  set (lg := floor_log2_ratio (Zpos n) (Zpos d)) in *.
  set (e := Z.max (lg - 52) (-1074)).
  fold (scaled_num e (Zpos n)). fold (scaled_den e (Zpos d)).
  pose proof (scaled_den_pos e (Zpos d) eq_refl) as Hden.
  pose proof (scaled_num_pos e (Zpos n) eq_refl) as Hnum.
  set (num := scaled_num e (Zpos n)) in *. set (den := scaled_den e (Zpos d)) in *.
  set (q := num / den). set (r := num mod den).
  set (q' := match 2 * r ?= den with
             | Eq => if Z.even q then q else q + 1
             | Lt => q
             | Gt => q + 1
             end).
  assert (Hq' : q ≤ q' ≤ q + 1).
  { unfold q'. destruct (2 * r ?= den); [destruct (Z.even q)|..]; lia. }
  assert (Hq0 : 0 ≤ q) by (apply Z.div_pos; lia).
  assert (Hqb : q < 2 ^ 53 ∧ (lg - 52 < -1074 → q < 2 ^ 52)
                ∧ (-1074 ≤ lg - 52 → 2 ^ 52 ≤ q)).
  { split_and!.
    - apply Z.div_lt_upper_bound; [done|].
      destruct (decide (num < den * 2 ^ 53)) as [|Hn]; [done|]. destruct Hhi.
      apply (pow_le_mono (53 + e)); [done|lia|].
      apply pow_le_shift; [lia|]. fold num den. lia.
    - intros He. apply Z.div_lt_upper_bound; [done|].
      destruct (decide (num < den * 2 ^ 52)) as [|Hn]; [done|]. destruct Hhi.
      apply (pow_le_mono (52 + e)); [done|lia|].
      apply pow_le_shift; [lia|]. fold num den. lia.
    - intros He. apply Z.div_le_lower_bound; [done|].
      assert (pow_le (52 + e) (Zpos n) (Zpos d)) as H
        by (replace (52 + e) with lg by lia; done).
      apply pow_le_shift in H; [|lia]. fold num den in H. lia. }
  destruct Hqb as (Hq53 & Hsub & Hnorm).
  destruct (Z.eqb_spec q' (2 ^ 53)) as [E|E].
  - simpl. destruct (Z.leb_spec (e + 1) 971); [|done]. simpl.
    apply bounded_intro. left. assert (lg - 52 < -1074 → False) by (intros ?%Hsub; lia).
    change (Z.pos 4503599627370496) with (2 ^ 52). lia.
  - destruct q' as [|p|p] eqn:Ep; [done| |done].
    destruct (Z.leb_spec e 971); [|done]. simpl. apply bounded_intro.
    destruct (decide (lg - 52 < -1074)) as [Hs|Hs].
    + specialize (Hsub Hs). destruct (decide (Zpos p < 2 ^ 52)); [right; lia|left; lia].
    + left. lia.
Qed.

(** [round_ratio] gives back a binary64 value when the ratio is that
    value. *)
Lemma round_ratio_exact s n d m e :
  bounded 53 1024 m e = true →
  scaled_num e (Zpos n) = Zpos m * scaled_den e (Zpos d) →
  round_ratio s n d = S754_finite s m e.
Proof.
  intros Hb Hnd. destruct (bounded_elim m e Hb) as (Hk & He & Hfexp).
  destruct (Z.log2_spec (Zpos m) eq_refl) as [Hm1 Hm2].
  pose proof (Z.log2_nonneg (Zpos m)) as Hl0.
  pose proof (scaled_den_pos e (Zpos d) eq_refl) as Hden.
  assert (Hlg : floor_log2_ratio (Zpos n) (Zpos d) = Z.log2 (Zpos m) + e).
  { apply floor_log2_ratio_unique; [done..| |].
    - apply pow_le_shift; [done|]. rewrite Hnd. apply Z.mul_le_mono_pos_r; lia.
    - rewrite <- Z.add_assoc, (Z.add_comm e 1), Z.add_assoc.
      rewrite pow_le_shift by lia. rewrite Hnd. intros Hc.
      apply Z.mul_le_mono_pos_r in Hc; [|done]. unfold Z.succ in *. lia. }
  unfold round_ratio. rewrite Hlg.
  replace (Z.max (Z.log2 (Zpos m) + e - 52) (-1074)) with e by lia.
  fold (scaled_num e (Zpos n)). fold (scaled_den e (Zpos d)).
  rewrite Hnd, Z.div_mul, Z_mod_mult by lia.
  assert ((2 * 0 ?= scaled_den e (Zpos d)) = Lt) as -> by (by apply Z.compare_lt_iff).
  assert (Zpos m < 2 ^ 53).
  { eapply Z.lt_le_trans; [exact Hm2|]. apply Z.pow_le_mono_r; lia. }
  destruct (Z.eqb_spec (Zpos m) (2 ^ 53)); [lia|].
  destruct (Z.leb_spec e 971); [done|lia].
Qed.

End rounding_facts.

Section literal_facts.
Import PyStr PyFloat FloatSpec.

Lemma read_digits_app a x y :
  all_digits x = true →
  read_digits a (x +:+ y)
  = let '(v, l, r) := read_digits (digits_value a x) y in
    (v, l + Z.of_nat (String.length x), r).
Proof.
  revert a. induction x as [|c x IH]; intros a Hx.
  - rewrite app_empty_l. simpl. destruct (read_digits a y) as [[v l] r].
    by rewrite Z.add_0_r.
  - simpl in Hx. apply andb_true_iff in Hx as [Hc Hx].
    destruct (is_digit_char c Hc) as (k & Hk & _ & _).
    rewrite app_String. simpl. rewrite Hk. simpl. rewrite (IH _ Hx).
    destruct (read_digits _ y) as [[v l] r]. f_equal. f_equal. lia.
Qed.

Lemma read_digits_end a x :
  all_digits x = true →
  read_digits a x = (digits_value a x, Z.of_nat (String.length x), "").
Proof.
  intros Hx. rewrite <- (app_empty_r x) at 1. by rewrite read_digits_app.
Qed.

Lemma digits_value_app a x y :
  digits_value a (x +:+ y) = digits_value (digits_value a x) y.
Proof.
  revert a. induction x as [|c x IH]; intros a; [done|].
  rewrite app_String. simpl. by rewrite IH.
Qed.

Lemma all_digits_app x y : all_digits (x +:+ y) = all_digits x && all_digits y.
Proof.
  induction x as [|c x IH]; [done|]. rewrite app_String. simpl.
  by rewrite IH, andb_assoc.
Qed.

Lemma is_digit_digit_char k : 0 ≤ k < 10 → is_digit (digit_char k) = true.
Proof.
  intros H. unfold is_digit, digit in *.
  pose proof (digit_digit_char k H) as Hd. unfold digit in Hd.
  by destruct (Ascii.is_nat (digit_char k)).
Qed.

Lemma dec_fuel_app fuel n acc :
  dec_fuel fuel n acc = dec_fuel fuel n "" +:+ acc.
Proof.
  revert n acc. induction fuel as [|f IH]; intros n acc; [done|].
  simpl. destruct (n <? 10); [done|].
  rewrite IH, (IH _ (String _ "")). 
  generalize (dec_fuel f (n / 10) ""). intros x.
  induction x as [|c x IHx]; [done|]. by rewrite !app_String, IHx.
Qed.

Lemma dec_fuel_S f n acc :
  dec_fuel (S f) n acc
  = if n <? 10 then String (digit_char (n mod 10)) acc
    else dec_fuel f (n / 10) (String (digit_char (n mod 10)) acc).
Proof. done. Qed.

Lemma dec_fuel_spec fuel n :
  0 ≤ n < 2 ^ Z.of_nat (S fuel) →
  all_digits (dec_fuel (S fuel) n "") = true
  ∧ dec_fuel (S fuel) n "" ≠ ""
  ∧ digits_value 0 (dec_fuel (S fuel) n "") = n.
Proof.
  revert n. induction fuel as [|f IH]; intros n Hn;
    rewrite dec_fuel_S; destruct (Z.ltb_spec n 10) as [Hlt|Hge].
  - assert (n mod 10 = n) as -> by (apply Z.mod_small; lia).
    simpl. rewrite is_digit_digit_char, digit_digit_char by lia.
    split_and!; [done|done|simpl; lia].
  - simpl in Hn. lia.
  - assert (n mod 10 = n) as -> by (apply Z.mod_small; lia).
    simpl. rewrite is_digit_digit_char, digit_digit_char by lia.
    split_and!; [done|done|simpl; lia].
  - rewrite dec_fuel_app.
    destruct (IH (n / 10)) as (Hd & Hne & Hv).
    { rewrite (Nat2Z.inj_succ (S f)), Z.pow_succ_r in Hn by lia. split.
      - apply Z.div_pos; lia.
      - apply Z.div_lt_upper_bound; lia. }
    split_and!.
    + rewrite all_digits_app, Hd. simpl.
      rewrite is_digit_digit_char; [done|]. apply Z.mod_pos_bound. lia.
    + intros H. by apply app_eq_empty in H as [_ ?].
    + rewrite digits_value_app, Hv. simpl.
      rewrite digit_digit_char by (apply Z.mod_pos_bound; lia). simpl.
      pose proof (Z.div_mod n 10). lia.
Qed.

Lemma dec_spec n :
  0 ≤ n →
  all_digits (dec n) = true ∧ dec n ≠ "" ∧ digits_value 0 (dec n) = n.
Proof.
  intros Hn. apply dec_fuel_spec. split; [done|].
  rewrite Nat2Z.inj_succ, Z2Nat.id by apply Z.log2_nonneg.
  destruct (decide (n = 0)) as [->|]; [done|]. apply Z.log2_spec. lia.
Qed.

Lemma digit_head_sign c r :
  is_digit c = true → read_sign (String c r) = (false, String c r).
Proof.
  intros Hc. destruct c as [[] [] [] [] [] [] [] []]; try done.
Qed.

Lemma digit_head_keyword c r w :
  is_digit c = true → (w = "inf" ∨ w = "infinity" ∨ w = "nan") →
  String.eqb (lower_string (String c r)) w = false.
Proof.
  intros Hc Hw. destruct (digit_not_special c Hc) as (_ & _ & _ & Hl & Hi & Hn).
  simpl. rewrite Hl. destruct Hw as [->|[->| ->]]; simpl; by rewrite ?Hi, ?Hn.
Qed.

(** [float()] reads the literal of the exact value of a binary64 number
    back as that number. *)
Lemma float_of_str_exact_literal s m e :
  bounded 53 1024 m e = true →
  float_of_str (exact_literal s m e) = Some (S754_finite s m e).
Proof.
  intros Hb. unfold exact_literal.
  set (k := Z.max 0 (- e)). set (N := Zpos m * 2 ^ Z.max 0 e * 5 ^ k).
  assert (HN : 0 < N).
  { unfold N. apply Z.mul_pos_pos; [apply Z.mul_pos_pos; [done|]|];
      apply Z.pow_pos_nonneg; lia. }
  destruct (dec_spec N) as (HdN & HneN & HvN); [lia|].
  destruct (dec_spec k) as (Hdk & Hnek & Hvk); [lia|].
  destruct (dec N) as [|c0 DN] eqn:EN; [done|]. clear HneN.
  pose proof HdN as Hc0. simpl in Hc0. apply andb_true_iff in Hc0 as [Hc0 _].
  assert (Hru : remove_underscores
                  ((if s then "-" else "") +:+ String c0 DN +:+ "e-" +:+ dec k)
                = (if s then "-" else "") +:+ String c0 DN +:+ "e-" +:+ dec k).
  { rewrite !remove_underscores_app.
    rewrite (remove_underscores_digits (String c0 DN)) by done.
    rewrite (remove_underscores_digits (dec k)) by done. by destruct s. }
  unfold float_of_str. rewrite underscores_ok_none, Hru by done.
  assert (Hsign : read_sign ((if s then "-" else "") +:+ String c0 DN +:+ "e-" +:+ dec k)
                  = (s, String c0 DN +:+ "e-" +:+ dec k)).
  { destruct s; [done|]. rewrite app_empty_l, app_String.
    by apply digit_head_sign. }
  unfold float_of_plain. rewrite Hsign.
  rewrite (app_String c0), !digit_head_keyword by auto. cbn [orb].
  rewrite <- (app_String c0), read_digits_app, HvN by done.
  change ("e-" +:+ dec k) with (String "e" (String "-" (dec k))).
  change (read_digits N (String "e" (String "-" (dec k))))
    with (N, 0, String "e" (String "-" (dec k))).
  cbn iota beta.
  assert (((0 <? 0 + Z.of_nat (String.length (String c0 DN))) || (0 <? 0)) = true)
    as -> by (apply orb_true_iff; left; apply Z.ltb_lt; cbn [String.length]; lia).
  change (read_exponent (String "e" (String "-" (dec k))))
    with (match read_digits 0 (dec k) with
          | (v, k', EmptyString) => if 0 <? k' then Some (- v) else None
          | _ => None
          end).
  rewrite read_digits_end, Hvk by done.
  assert ((0 <? Z.of_nat (String.length (dec k))) = true) as ->.
  { apply Z.ltb_lt. destruct (dec k); [done|simpl; lia]. }
  f_equal. unfold of_decimal.
  assert (HNdef : N = Zpos m * 2 ^ Z.max 0 e * 5 ^ k) by done.
  clearbody N. destruct N as [|p|p]; [lia| |lia].
  destruct (bounded_elim m e Hb) as (_ & He & _).
  destruct (Z.leb_spec 0 (- k - 0)) as [Hk|Hk].
  - assert (k = 0) as Hk0 by lia. rewrite Hk0 in *. simpl.
    apply round_ratio_exact; [done|]. unfold scaled_num, scaled_den.
    rewrite Pos.mul_1_r, HNdef.
    replace (Z.max 0 (- e)) with 0 by lia. rewrite !Z.pow_0_r. lia.
  - replace (- (- k - 0)) with k by lia.
    apply round_ratio_exact; [done|]. unfold scaled_num, scaled_den.
    assert (0 < 10 ^ k) by (apply Z.pow_pos_nonneg; lia).
    rewrite Z2Pos.id by done. rewrite HNdef.
    replace (Z.max 0 e) with 0 by lia. fold k.
    change 10 with (5 * 2). rewrite Z.pow_mul_l, !Z.pow_0_r. lia.
Qed.

End literal_facts.

Section repr_facts.
Import PyStr PyFloat FloatSpec.

Lemma plain_app s t : plain (s +:+ t) = plain s && plain t.
Proof.
  induction s as [|c s IH]; [done|]. rewrite app_String. simpl.
  by rewrite IH, andb_assoc.
Qed.

Lemma plain_digits a : all_digits a = true → plain a = true.
Proof.
  induction a as [|c a IH]; [done|]. simpl. intros [Hc Ha]%andb_true_iff.
  rewrite IH by done. rewrite andb_true_r.
  destruct c as [[] [] [] [] [] [] [] []]; done.
Qed.

Lemma all_digits_dec_fuel fuel n acc :
  all_digits acc = true → all_digits (dec_fuel fuel n acc) = true.
Proof.
  revert n acc. induction fuel as [|f IH]; intros n acc Hacc; [done|].
  rewrite dec_fuel_S.
  assert (all_digits (String (digit_char (n mod 10)) acc) = true) as Hd.
  { simpl. rewrite Hacc, is_digit_digit_char; [done|]. apply Z.mod_pos_bound. lia. }
  destruct (n <? 10); [done|]. by apply IH.
Qed.

Lemma plain_dec n : plain (dec n) = true.
Proof. by apply plain_digits, all_digits_dec_fuel. Qed.

Lemma plain_zeros k : plain (zeros k) = true.
Proof. induction k; [done|]. simpl. by rewrite IHk. Qed.

Lemma plain_split_at k s :
  plain s = true →
  plain (split_at k s).1 = true ∧ plain (split_at k s).2 = true.
Proof.
  revert s. induction k as [|k IH]; intros s Hs; [by destruct s|].
  destruct s as [|c s]; [done|]. simpl in *.
  apply andb_true_iff in Hs as [Hc Hs]. destruct (IH s Hs) as [H1 H2].
  destruct (split_at k s). simpl in *. by rewrite Hc, H1.
Qed.

Lemma plain_format_repr neg ds p :
  plain ds = true → plain (format_repr neg ds p) = true.
Proof.
  intros Hds. unfold format_repr. rewrite plain_app.
  apply andb_true_iff. split; [by destruct neg|].
  destruct (_ && _).
  - destruct (p <=? 0); [|destruct (_ <=? p)].
    + by rewrite !plain_app, plain_zeros, Hds.
    + by rewrite !plain_app, plain_zeros, Hds.
    + destruct (plain_split_at (Z.to_nat p) ds Hds) as [H1 H2].
      destruct (split_at _ ds). simpl in *. by rewrite !plain_app, H1, H2.
  - rewrite !plain_app, plain_dec.
    assert (plain match ds with
                  | String c EmptyString => ds
                  | String c r => String c (String "." r)
                  | EmptyString => ds
                  end = true) as ->.
    { by destruct ds as [|c [|c' r]]. }
    by destruct (_ <? 0), (_ <? 10).
Qed.

Lemma plain_layout neg k a D : plain (layout neg k a D) = true.
Proof.
  unfold layout. destruct (strip_zeros_fuel _ _ _).
  apply plain_format_repr, plain_dec.
Qed.

Lemma plain_candidates neg vn vd p k t :
  t ∈ candidates neg vn vd p k → plain t = true.
Proof.
  unfold candidates. intros Ht%list_elem_of_In.
  destruct (_ =? 0); [|destruct (_ ?= _); [destruct (Z.even _)|..]];
    simpl in Ht;
    repeat (destruct Ht as [<-|Ht]; [apply plain_layout|]); destruct Ht.
Qed.

Lemma plain_strip s : plain s = true → strip s = s.
Proof.
  intros H. apply strip_no_space. induction s as [|c s IH]; [done|].
  simpl in *. apply andb_true_iff in H as [Hc Hs]. rewrite IH by done.
  unfold plain_char in Hc. apply andb_true_iff in Hc as [-> _]. done.
Qed.

Lemma plain_replace_comma s : plain s = true → replace_comma s = s.
Proof.
  induction s as [|c s IH]; [done|]. simpl. intros [Hc Hs]%andb_true_iff.
  rewrite IH by done. unfold plain_char in Hc.
  apply andb_true_iff in Hc as [_ Hc]. by destruct (Ascii.eqb c ",").
Qed.

Lemma repr_plain x : plain (repr x) = true.
Proof.
  destruct x as [[]|[]| |s m e]; try done. unfold repr.
  destruct (filter _ _) as [|t ts] eqn:E.
  - unfold exact_literal. rewrite !plain_app, !plain_dec. by destruct s.
  - assert (t ∈ t :: ts) as Ht by left. rewrite <- E in Ht.
    apply list_elem_of_filter in Ht as [_ Ht].
    apply list_elem_of_In, in_flat_map in Ht as (k & _ & Ht).
    apply list_elem_of_In in Ht. by eapply plain_candidates.
Qed.

(** [float(repr(x))] is [x], for every binary64 value. *)
Lemma float_of_str_repr x : valid x = true → float_of_str (repr x) = Some x.
Proof.
  destruct x as [[]|[]| |s m e]; try done. intros Hv. unfold repr.
  destruct (filter _ _) as [|t ts] eqn:E.
  - by apply float_of_str_exact_literal.
  - assert (t ∈ t :: ts) as Ht by left. rewrite <- E in Ht.
    by apply list_elem_of_filter in Ht as [Ht _].
Qed.

Lemma parse_float_repr x :
  valid x = true → clean_data.parse_float (Some (repr x)) = Some x.
Proof.
  intros Hv. unfold clean_data.parse_float.
  rewrite plain_strip, plain_replace_comma by apply repr_plain.
  assert (truthy (repr x) = true) as ->
    by (apply truthy_true, repr_nonempty).
  simpl. by apply float_of_str_repr.
Qed.

Lemma add_special_not_finite t l :
  is_finite t = false → is_finite (foldl add_special t l) = false.
Proof.
  revert t. induction l as [|x l IH]; intros t Ht; [done|].
  simpl. apply IH. destruct t as [| | |]; try done; destruct x; try done.
  simpl. by destruct (Bool.eqb _ _).
Qed.

Lemma not_finite_valid x : is_finite x = false → valid x = true.
Proof. by destruct x. Qed.

(** [statistics.mean] of floats is a float. *)
Lemma mean_valid l m : mean l = Some m → valid m = true.
Proof.
  unfold mean. destruct l as [|x0 l0]; [done|].
  destruct (filter _ (x0 :: l0)) as [|x xs] eqn:E.
  - destruct (foldl dyadic_add _ _) as [M e]. intros [= <-].
    destruct M; [done|apply round_ratio_valid..].
  - intros [= <-]. apply not_finite_valid, add_special_not_finite.
    assert (x ∈ x :: xs) as Hx by left. rewrite <- E in Hx.
    by apply list_elem_of_filter in Hx as [Hx _].
Qed.

End repr_facts.

Section mean_facts.
Import PyStr PyFloat FloatSpec.

(** The sum [statistics.mean] divides is exact: scaled by any common
    power of two, the pair [foldl dyadic_add] ends with stands for the
    sum of the scaled values. *)
Lemma foldl_dyadic_add_exact c (l : list (Z * Z)) acc :
  c ≤ acc.2 → Forall (λ p, c ≤ p.2) l →
  c ≤ (foldl dyadic_add acc l).2
  ∧ (foldl dyadic_add acc l).1 * 2 ^ ((foldl dyadic_add acc l).2 - c)
    = acc.1 * 2 ^ (acc.2 - c) + foldr Z.add 0 ((λ p, p.1 * 2 ^ (p.2 - c)) <$> l).
Proof.
  revert acc. induction l as [|p l IH]; intros acc Hacc Hl.
  - simpl. split; [done|ring].
  - apply Forall_cons in Hl as [Hp Hl]. simpl.
    destruct (IH (dyadic_add acc p)) as [H1 H2]; [unfold dyadic_add; simpl; lia|done|].
    split; [done|]. rewrite H2. unfold dyadic_add. simpl.
    set (e := Z.min acc.2 p.2).
    rewrite Z.mul_add_distr_r, <- !Z.mul_assoc, <- !Z.pow_add_r by lia.
    replace (acc.2 - e + (e - c)) with (acc.2 - c) by lia.
    replace (p.2 - e + (e - c)) with (p.2 - c) by lia.
    symmetry. apply Z.add_assoc.
Qed.

End mean_facts.

Section round_trip_claims.
Import PyStr PyDate PyFloat Spec MapSpec RoundTrip.
Import clean_data.

Lemma load_region_ids_from_stripped mapping rows region_ids :
  (∀ o g, mapping !! o = Some g → strip g = g) →
  load_region_ids_from mapping rows = Some region_ids →
  ∀ o g, region_ids !! o = Some g → strip g = g.
Proof.
  revert mapping. induction rows as [|row rows IH]; intros mapping Hm; simpl.
  - by intros [= <-].
  - destruct (region_oblast row) as [o'|]; [|done].
    destruct (region_gid row) as [g'|]; [|done].
    apply IH. destruct (truthy (strip o')); [|done].
    intros o g. destruct (decide (strip o' = o)) as [<-|Hne].
    + rewrite lookup_insert_eq. intros [= <-]. apply strip_idemp.
    + rewrite lookup_insert_ne by done. apply Hm.
Qed.

Lemma load_region_ids_stripped rows region_ids :
  load_region_ids rows = Some region_ids →
  ∀ o g, region_ids !! o = Some g → strip g = g.
Proof. apply load_region_ids_from_stripped. intros ??. by rewrite lookup_empty. Qed.

Lemma parse_float_metric_text values :
  build_maps.parse_float (Some (metric_text values)) = mean values.
Proof.
  unfold metric_text. destruct (mean values) as [m|] eqn:E; [|done].
  apply mean_valid in E. by apply (parse_float_repr m).
Qed.

Lemma SFeqb_refl x : x ≠ S754_nan → SFeqb x x = true.
Proof.
  unfold SFeqb, SFcompare. destruct x as [s|s| |s m e]; try done.
  - by destruct s.
  - intros _. rewrite Z.compare_refl, Pos.compare_cont_refl.
    by destruct s.
Qed.

Lemma num_eq_refl a : a ≠ Some S754_nan → num_eq a a = true.
Proof. destruct a as [x|]; [|done]. intros H. apply SFeqb_refl. congruence. Qed.

Lemma index_key_read_back r :
  strip (Date r) = Date r → strip (GID_1 r) = GID_1 r →
  index_key (read_back r)
  = if truthy (Date r) && truthy (GID_1 r) then Some (Date r, GID_1 r)
    else None.
Proof. unfold index_key, read_back. simpl. by intros -> ->. Qed.

Lemma entry_of_read_back region_ids raw start d o :
  build_maps.scheduled
    (entry_of (read_back (expected_row region_ids raw start d o)))
  = mean (scheduled_values (group start raw (d, o)))
  ∧ build_maps.actual
      (entry_of (read_back (expected_row region_ids raw start d o)))
    = mean (actual_values (group start raw (d, o))).
Proof. split; exact (parse_float_metric_text _). Qed.

(** The lines [main] writes come back from the file with the date and
    the identifier they were written with. *)
Lemma written_rows_stripped region_rows region_ids raw start rows r :
  load_region_ids region_rows = Some region_ids →
  main region_ids raw start = Some rows → r ∈ rows →
  strip (Date r) = Date r ∧ Date r ≠ "" ∧ strip (GID_1 r) = GID_1 r
  ∧ (∃ o, r = expected_row region_ids raw start (Date r) o
          ∧ o ∈ dom region_ids ∧ Oblast r = o).
Proof.
  intros Hreg Hmain Hr.
  destruct (main_spec region_ids raw start) as (dates & Hp & _ & Hmain').
  destruct (sorted_strings (elements (dom region_ids))) as [Hpo _];
    [apply NoDup_elements|].
  rewrite Hmain in Hmain'. injection Hmain' as ->.
  apply list_elem_of_fmap in Hr as ([d o] & -> & Hg).
  apply elem_of_grid in Hg as [Hd Ho]. simpl.
  rewrite Hp, elem_of_elements in Hd. rewrite Hpo, elem_of_elements in Ho.
  apply valid_dates_formatted in Hd as (dt & Hv & ->).
  split_and!.
  - by apply strftime_strip.
  - done.
  - destruct (region_ids !! o) as [g|] eqn:E; [|done]. simpl.
    by eapply load_region_ids_stripped.
  - eauto.
Qed.

(** C3, as stated, fails: when two region names have the same
    identifier, the loader keeps one entry for the two lines of a date,
    that of the later line, and the averages of the earlier line are not
    reconstructed. *)
Lemma C3_counterexample :
  ¬ ∀ region_rows region_ids raw start rows r,
      load_region_ids region_rows = Some region_ids →
      main region_ids raw start = Some rows →
      r ∈ rows → GID_1 r ≠ "" →
      ∃ e, loaded rows (Date r) (GID_1 r) = Some e
           ∧ num_eq (build_maps.scheduled e) (written_scheduled raw start r)
             = true
           ∧ num_eq (build_maps.actual e) (written_actual raw start r) = true.
Proof.
  intros H.
  pose (ra := mk_clean_row "01.02.2026" "A" "X" "4.0" "" "").
  pose (rb := mk_clean_row "01.02.2026" "B" "X" "6.0" "" "").
  destruct (H [mk_region_row (Some "A") (Some "X");
               mk_region_row (Some "B") (Some "X")]
              (<["B" := "X"]> (<["A" := "X"]> ∅))
              [mk_raw_row (Some "01.02.2026") (Some "A") None (Some "4") None;
               mk_raw_row (Some "01.02.2026") (Some "B") None (Some "6") None]
              (mk_date 2026 1 31) [ra; rb] ra)
    as (e & He & Hs & _).
  - by vm_compute.
  - by vm_compute.
  - left.
  - done.
  - vm_compute in He. injection He as <-. vm_compute in Hs. discriminate.
Qed.

(** C3, amended. When the lines [main] writes are read back by the
    loader, then for every written line with a non-empty region
    identifier that no later line repeats with the same date, the
    day-data structure holds, under the date and the identifier of the
    line, the scheduled and actual averages that were written: the same
    floats ([None] for an empty field), hence numerically equal unless
    the average is NaN. This is the case of every line with a non-empty
    identifier when no two region names share an identifier. *)
Theorem C3_round_trip region_rows region_ids raw start :
  load_region_ids region_rows = Some region_ids →
  ∃ rows,
    main region_ids raw start = Some rows
    ∧ (∀ rows1 r rows2,
         rows = rows1 ++ r :: rows2 → GID_1 r ≠ "" →
         (∀ r', r' ∈ rows2 → (Date r', GID_1 r') ≠ (Date r, GID_1 r)) →
         ∃ e, loaded rows (Date r) (GID_1 r) = Some e
              ∧ build_maps.scheduled e = written_scheduled raw start r
              ∧ build_maps.actual e = written_actual raw start r
              ∧ (written_scheduled raw start r ≠ Some S754_nan →
                 num_eq (build_maps.scheduled e)
                   (written_scheduled raw start r) = true)
              ∧ (written_actual raw start r ≠ Some S754_nan →
                 num_eq (build_maps.actual e)
                   (written_actual raw start r) = true))
    ∧ ((∀ o1 o2 g, region_ids !! o1 = Some g → region_ids !! o2 = Some g →
                   g ≠ "" → o1 = o2) →
       ∀ r, r ∈ rows → GID_1 r ≠ "" →
            ∃ e, loaded rows (Date r) (GID_1 r) = Some e
                 ∧ build_maps.scheduled e = written_scheduled raw start r
                 ∧ build_maps.actual e = written_actual raw start r).
Proof.
  intros Hreg.
  destruct (main_spec region_ids raw start) as (dates & _ & _ & Hmain).
  pose proof (main_pairs_NoDup _ _ _ _ Hmain) as Hnd. revert Hmain Hnd.
  generalize ((λ p : string * string, expected_row region_ids raw start p.1 p.2)
                <$> grid dates (sorted (elements (dom region_ids)))).
  intros rows Hmain Hnd. exists rows. split; [done|].
  assert (Hlast : ∀ rows1 r rows2,
    rows = rows1 ++ r :: rows2 → GID_1 r ≠ "" →
    (∀ r', r' ∈ rows2 → (Date r', GID_1 r') ≠ (Date r, GID_1 r)) →
    ∃ e, loaded rows (Date r) (GID_1 r) = Some e
         ∧ build_maps.scheduled e = written_scheduled raw start r
         ∧ build_maps.actual e = written_actual raw start r).
  { intros rows1 r rows2 Hrows Hgid Hlater.
    assert (Hin : ∀ r', r' ∈ r :: rows2 → r' ∈ rows).
    { intros r' Hr'. rewrite Hrows. apply elem_of_app. by right. }
    destruct (written_rows_stripped _ _ _ _ _ r Hreg Hmain)
      as (Hsd & Hdne & Hsg & o & Hr & _ & Ho); [apply Hin; left|].
    exists (entry_of (read_back r)). split.
    - unfold loaded. rewrite Hrows, fmap_app, fmap_cons.
      apply lookup2_last.
      + rewrite index_key_read_back by done.
        apply truthy_true in Hdne as ->. by apply truthy_true in Hgid as ->.
      + intros r0 (r' & -> & Hr')%list_elem_of_fmap Hk.
        destruct (written_rows_stripped _ _ _ _ _ r' Hreg Hmain)
          as (Hsd' & _ & Hsg' & _); [apply Hin; by right|].
        rewrite index_key_read_back in Hk by done.
        destruct (_ && _); [|done]. apply (Hlater r' Hr'). congruence.
    - unfold written_scheduled, written_actual. rewrite Ho, Hr.
      apply entry_of_read_back. }
  split.
  - intros rows1 r rows2 Hrows Hgid Hlater.
    destruct (Hlast rows1 r rows2 Hrows Hgid Hlater) as (e & He & Hs & Ha).
    exists e. split_and!; try done.
    + intros Hn. rewrite Hs. by apply num_eq_refl.
    + intros Hn. rewrite Ha. by apply num_eq_refl.
  - intros Hinj r Hr Hgid.
    apply list_elem_of_split in Hr as (rows1 & rows2 & Hrows).
    apply (Hlast rows1 r rows2 Hrows Hgid).
    intros r' Hr' [= Hd Hg].
    assert (Hin : ∀ r', r' ∈ r :: rows2 → r' ∈ rows).
    { intros r0 Hr0. rewrite Hrows. apply elem_of_app. by right. }
    destruct (written_rows_stripped _ _ _ _ _ r Hreg Hmain)
      as (_ & _ & _ & o & Hr & Ho & Hob); [apply Hin; left|].
    destruct (written_rows_stripped _ _ _ _ _ r' Hreg Hmain)
      as (_ & _ & _ & o' & Hr0 & Ho' & Hob'); [apply Hin; by right|].
    assert (o' = o) as Hoo.
    { apply elem_of_dom in Ho as [g Hg1], Ho' as [g' Hg2].
      pose proof (f_equal GID_1 Hr) as Eg. simpl in Eg. rewrite Hg1 in Eg.
      pose proof (f_equal GID_1 Hr0) as Eg'. simpl in Eg'. rewrite Hg2 in Eg'.
      simpl in Eg, Eg'. apply (Hinj o' o g); congruence. }
    rewrite Hrows, fmap_app, fmap_cons in Hnd.
    apply NoDup_app in Hnd as (_ & _ & Hnd). apply NoDup_cons in Hnd as [Hnd _].
    destruct Hnd. apply list_elem_of_fmap. exists r'. split; [|done].
    unfold row_pair. congruence.
Qed.

(** The theorem at a region table of one region and two reports for it
    on one day. *)
Lemma C3_round_trip_witness :
  load_region_ids [mk_region_row (Some "Kyiv") (Some "UA-30")]
  = Some kyiv_table
  ∧ ∃ rows,
    main kyiv_table one_day_raw (mk_date 2026 1 31) = Some rows
    ∧ (∀ rows1 r rows2,
         rows = rows1 ++ r :: rows2 → GID_1 r ≠ "" →
         (∀ r', r' ∈ rows2 → (Date r', GID_1 r') ≠ (Date r, GID_1 r)) →
         ∃ e, loaded rows (Date r) (GID_1 r) = Some e
              ∧ build_maps.scheduled e = written_scheduled one_day_raw (mk_date 2026 1 31) r
              ∧ build_maps.actual e = written_actual one_day_raw (mk_date 2026 1 31) r
              ∧ (written_scheduled one_day_raw (mk_date 2026 1 31) r ≠ Some S754_nan →
                 num_eq (build_maps.scheduled e)
                   (written_scheduled one_day_raw (mk_date 2026 1 31) r) = true)
              ∧ (written_actual one_day_raw (mk_date 2026 1 31) r ≠ Some S754_nan →
                 num_eq (build_maps.actual e)
                   (written_actual one_day_raw (mk_date 2026 1 31) r) = true))
    ∧ ((∀ o1 o2 g, kyiv_table !! o1 = Some g → kyiv_table !! o2 = Some g →
                   g ≠ "" → o1 = o2) →
       ∀ r, r ∈ rows → GID_1 r ≠ "" →
            ∃ e, loaded rows (Date r) (GID_1 r) = Some e
                 ∧ build_maps.scheduled e = written_scheduled one_day_raw (mk_date 2026 1 31) r
                 ∧ build_maps.actual e = written_actual one_day_raw (mk_date 2026 1 31) r).
Proof.
  split; [reflexivity|].
  apply (C3_round_trip [mk_region_row (Some "Kyiv") (Some "UA-30")]).
  reflexivity.
Defined.

End round_trip_claims.

Section region_table_facts.
Import PyStr PyDate PyFloat clean_data Spec Run Reading.

Lemma load_region_ids_from_None mapping rows :
  load_region_ids_from mapping rows = None
  ↔ ∃ row, row ∈ rows ∧ (region_oblast row = None ∨ region_gid row = None).
Proof.
  revert mapping. induction rows as [|row rows IH]; intros mapping; simpl.
  - split; [done|]. intros (row & Hr & _). by apply elem_of_nil in Hr.
  - destruct (region_oblast row) as [o|] eqn:Eo, (region_gid row) as [g|] eqn:Eg;
      try (split; [intros _; exists row; split; [left|]; auto|done]).
    rewrite IH. split.
    + intros (r & Hr & H). exists r. split; [by right|done].
    + intros (r & Hr & H). apply elem_of_cons in Hr as [->|Hr]; [|by eauto].
      rewrite Eo, Eg in H. by destruct H.
Qed.

Lemma load_region_ids_from_lookup mapping rows m o g :
  load_region_ids_from mapping rows = Some m →
  m !! o = Some g ↔
    (o ≠ "" ∧ ∃ rows1 row rows2,
        rows = rows1 ++ row :: rows2
        ∧ region_name row = Some o ∧ region_id row = Some g
        ∧ ∀ r', r' ∈ rows2 → region_name r' ≠ Some o)
    ∨ (mapping !! o = Some g
       ∧ (o = "" ∨ ∀ r', r' ∈ rows → region_name r' ≠ Some o)).
Proof.
  revert mapping. induction rows as [|row rows IH]; intros mapping; simpl.
  - intros [= <-]. split.
    + intros H. right. split; [done|]. right. intros r' Hr'.
      by apply elem_of_nil in Hr'.
    + intros [(_ & rows1 & row & rows2 & H & _)|[H _]]; [|done].
      by destruct rows1.
  - destruct (region_oblast row) as [o'|] eqn:Eo; [|done].
    destruct (region_gid row) as [g'|] eqn:Eg; [|done].
    assert (Hn : region_name row = Some (strip o'))
      by (unfold region_name; by rewrite Eo).
    assert (Hi : region_id row = Some (strip g'))
      by (unfold region_id; by rewrite Eg).
    intros H. rewrite (IH _ H). clear IH H. split.
    + intros [(Hne & rows1 & r & rows2 & -> & H1 & H2 & H3)|[Hm Hrest]].
      * left. split; [done|]. by exists (row :: rows1), r, rows2.
      * destruct (truthy (strip o')) eqn:Et.
        -- destruct (decide (strip o' = o)) as [<-|Hno].
           ++ rewrite lookup_insert_eq in Hm. injection Hm as <-.
              apply truthy_true in Et. left. split; [done|].
              exists [], row, rows. split_and!; try done.
              by destruct Hrest.
           ++ rewrite lookup_insert_ne in Hm by done. right. split; [done|].
              destruct Hrest as [?|Hrest]; [by left|right].
              intros r' [->|Hr']%elem_of_cons; [congruence|by apply Hrest].
        -- apply truthy_false in Et. right. split; [done|].
           destruct Hrest as [?|Hrest]; [by left|].
           destruct (decide (o = "")) as [?|Hne]; [by left|right].
           intros r' [->|Hr']%elem_of_cons; [congruence|by apply Hrest].
    + intros [(Hne & rows1 & r & rows2 & Hrows & H1 & H2 & H3)|[Hm Hrest]].
      * destruct rows1 as [|r1 rows1]; simpl in Hrows; injection Hrows as <- ->.
        -- right. rewrite Hn in H1. injection H1 as H1.
           rewrite Hi in H2. injection H2 as <-.
           apply truthy_true in Hne as Ht. rewrite <- H1 in Ht. rewrite Ht, H1.
           rewrite lookup_insert_eq. split; [done|by right].
        -- left. split; [done|]. by exists rows1, r, rows2.
      * right. destruct Hrest as [->|Hrest].
        -- split; [|by left]. destruct (truthy (strip o')) eqn:Et; [|done].
           apply truthy_true in Et. by rewrite lookup_insert_ne.
        -- split.
           ++ destruct (truthy (strip o')); [|done].
              rewrite lookup_insert_ne; [done|].
              intros E. apply (Hrest row); [left|]. congruence.
           ++ right. intros r' Hr'. apply Hrest. by right.
Qed.

(** X1. Loading the region table fails exactly when some line is short
    of the name or of the identifier column. *)
Theorem load_region_ids_raises rows :
  load_region_ids rows = None
  ↔ ∃ row, row ∈ rows ∧ (region_oblast row = None ∨ region_gid row = None).
Proof. apply load_region_ids_from_None. Qed.

(** X2. In the loaded region table a name has the identifier of the last
    line that gives this name, both stripped of surrounding white space;
    lines whose stripped name is empty are passed over. *)
Theorem load_region_ids_last_wins rows m :
  load_region_ids rows = Some m →
  ∀ o g,
    m !! o = Some g
    ↔ o ≠ "" ∧ ∃ rows1 row rows2,
        rows = rows1 ++ row :: rows2
        ∧ region_name row = Some o ∧ region_id row = Some g
        ∧ ∀ r', r' ∈ rows2 → region_name r' ≠ Some o.
Proof.
  intros H o g. rewrite (load_region_ids_from_lookup _ _ _ o g H).
  rewrite lookup_empty. split; [|by left]. by intros [?|[? _]].
Qed.

(** The theorem at a table that names Kyiv twice. *)
Lemma load_region_ids_last_wins_witness :
  load_region_ids [mk_region_row (Some " Kyiv ") (Some "UA-30");
                   mk_region_row (Some "") (Some "UA-31");
                   mk_region_row (Some "Kyiv") (Some " UA-32")]
  = Some {["Kyiv" := "UA-32"]}
  ∧ ∀ o g,
    ({["Kyiv" := "UA-32"]} : gmap string string) !! o = Some g
    ↔ o ≠ "" ∧ ∃ rows1 row rows2,
        [mk_region_row (Some " Kyiv ") (Some "UA-30");
         mk_region_row (Some "") (Some "UA-31");
         mk_region_row (Some "Kyiv") (Some " UA-32")]
        = rows1 ++ row :: rows2
        ∧ region_name row = Some o ∧ region_id row = Some g
        ∧ ∀ r', r' ∈ rows2 → region_name r' ≠ Some o.
Proof.
  split; [reflexivity|].
  apply (load_region_ids_last_wins
           [mk_region_row (Some " Kyiv ") (Some "UA-30");
            mk_region_row (Some "") (Some "UA-31");
            mk_region_row (Some "Kyiv") (Some " UA-32")]).
  reflexivity.
Defined.

End region_table_facts.

Section aggregate_properties.
Import PyStr PyDate PyFloat clean_data Spec Run Reading.

Lemma group_app start raw1 raw2 key :
  group start (raw1 ++ raw2) key = group start raw1 key ++ group start raw2 key.
Proof. apply filter_app. Qed.

Lemma cell_of_app g1 g2 :
  cell_of (g1 ++ g2)
  = mk_cell (scheduled (cell_of g1) ++ scheduled (cell_of g2))
      (actual (cell_of g1) ++ actual (cell_of g2))
      (subqueues (cell_of g1) ∪ subqueues (cell_of g2)).
Proof.
  unfold cell_of, scheduled_values, actual_values, subqueue_labels. simpl.
  by rewrite !omap_app, fmap_app, filter_app, list_to_set_app_L.
Qed.

Lemma row_key_same_reading start r r' :
  same_reading r r' → row_key start r = row_key start r'.
Proof.
  intros (Hd & Ho & _). unfold row_key. rewrite <- Ho.
  destruct (truthy (strip (or_empty (raw_date r)))) eqn:E1,
    (truthy (strip (or_empty (raw_date r')))) eqn:E2; simpl.
  - by rewrite Hd.
  - apply truthy_false in E2. rewrite E2 in Hd.
    change (strptime "") with (@None datetime) in Hd. rewrite Hd.
    by destruct (truthy (strip (or_empty (raw_oblast r)))).
  - apply truthy_false in E1. rewrite E1 in Hd.
    change (strptime "") with (@None datetime) in Hd. rewrite <- Hd.
    by destruct (truthy (strip (or_empty (raw_oblast r)))).
  - done.
Qed.

Lemma store_row_same_reading r r' c :
  same_reading r r' → store_row r c = store_row r' c.
Proof. intros (_ & _ & Hq & Hs & Ha). unfold store_row. by rewrite Hq, Hs, Ha. Qed.

Lemma add_row_same_reading start data r r' :
  same_reading r r' → add_row start data r = add_row start data r'.
Proof.
  intros H. apply map_eq. intros key. rewrite !add_row_lookup.
  by rewrite (row_key_same_reading start r r' H), (store_row_same_reading r r' _ H).
Qed.

(** X3. Every key of the aggregate is a date in the two-digit,
    two-digit, four-digit form, of a calendar date not before the start
    date, with a region name that is non-empty and has no white space
    around it. *)
Theorem load_raw_data_keys raw start d o :
  (d, o) ∈ dom (load_raw_data raw start) →
  ∃ dt, PyDate.valid dt = true ∧ ¬ PyDate.lt dt start
        ∧ d = strftime dt ∧ strptime d = Some dt
        ∧ o ≠ "" ∧ strip o = o.
Proof.
  intros (r & _ & Hk)%elem_of_dom_load_raw_data%group_nonempty.
  destruct (row_key_date _ _ _ Hk) as (dt & Hd & Hv & Hlt & _ & Ho & Hne).
  simpl in *. exists dt. split_and!; try done.
  - subst d. by apply strptime_strftime.
  - rewrite Ho. apply strip_idemp.
Qed.

(** The theorem at one report dated with one-digit day and month. *)
Lemma load_raw_data_keys_witness :
  ("01.02.2026", "Kyiv")
    ∈ dom (load_raw_data
             [mk_raw_row (Some " 1.2.2026") (Some "Kyiv ") None (Some "4") None]
             (mk_date 2026 1 31))
  ∧ ∃ dt, PyDate.valid dt = true ∧ ¬ PyDate.lt dt (mk_date 2026 1 31)
          ∧ "01.02.2026" = strftime dt ∧ strptime "01.02.2026" = Some dt
          ∧ "Kyiv" ≠ "" ∧ strip "Kyiv" = "Kyiv".
Proof.
  assert (H : ("01.02.2026", "Kyiv")
    ∈ dom (load_raw_data
             [mk_raw_row (Some " 1.2.2026") (Some "Kyiv ") None (Some "4") None]
             (mk_date 2026 1 31))).
  { apply elem_of_dom. vm_compute. by eexists. }
  split; [exact H|].
  exact (load_raw_data_keys _ _ _ _ H).
Defined.

(** X4. Aggregating two batches of raw rows one after the other gives,
    for every key, the values of the first batch followed by those of
    the second and the union of their sub-unit labels; the keys are
    those of either batch. *)
Theorem load_raw_data_app raw1 raw2 start :
  dom (load_raw_data (raw1 ++ raw2) start)
  = dom (load_raw_data raw1 start) ∪ dom (load_raw_data raw2 start)
  ∧ ∀ key,
      let c1 := default empty_cell (load_raw_data raw1 start !! key) in
      let c2 := default empty_cell (load_raw_data raw2 start !! key) in
      default empty_cell (load_raw_data (raw1 ++ raw2) start !! key)
      = mk_cell (scheduled c1 ++ scheduled c2) (actual c1 ++ actual c2)
          (subqueues c1 ∪ subqueues c2).
Proof.
  split.
  - apply set_eq. intros key.
    rewrite elem_of_union, !elem_of_dom_load_raw_data, group_app.
    destruct (group start raw1 key), (group start raw2 key); simpl; split;
      try done; try (intros [?|?]; done); intros _; [right|left|left]; done.
  - intros key. simpl. rewrite !load_raw_data_default, group_app.
    apply cell_of_app.
Qed.

(** X5. The aggregate depends on a raw row only through its parsed
    date, its stripped region name and sub-unit label and its two
    parsed numbers: two inputs whose rows read alike one by one give the
    same aggregate. *)
Theorem load_raw_data_same_reading raw raw' start :
  Forall2 same_reading raw raw' →
  load_raw_data raw start = load_raw_data raw' start.
Proof.
  unfold load_raw_data. generalize (∅ : gmap (string * string) cell).
  intros data H. revert data.
  induction H as [|r r' raw raw' Hr _ IH]; intros data; [done|].
  simpl. by rewrite (add_row_same_reading start data r r' Hr).
Qed.

(** The theorem at two spellings of one report. *)
Lemma load_raw_data_same_reading_witness :
  Forall2 same_reading
    [mk_raw_row (Some "1.2.2026") (Some "Kyiv") (Some "1.1") (Some "4,5") None]
    [mk_raw_row (Some " 01.02.2026") (Some "Kyiv ") (Some " 1.1") (Some "4.5")
       (Some " ")]
  ∧ load_raw_data
      [mk_raw_row (Some "1.2.2026") (Some "Kyiv") (Some "1.1") (Some "4,5") None]
      (mk_date 2026 1 31)
    = load_raw_data
        [mk_raw_row (Some " 01.02.2026") (Some "Kyiv ") (Some " 1.1")
           (Some "4.5") (Some " ")]
        (mk_date 2026 1 31).
Proof.
  assert (H : Forall2 same_reading
    [mk_raw_row (Some "1.2.2026") (Some "Kyiv") (Some "1.1") (Some "4,5") None]
    [mk_raw_row (Some " 01.02.2026") (Some "Kyiv ") (Some " 1.1") (Some "4.5")
       (Some " ")]).
  { constructor; [|constructor]. unfold same_reading. vm_compute. done. }
  split; [exact H|].
  exact (load_raw_data_same_reading _ _ (mk_date 2026 1 31) H).
Defined.

End aggregate_properties.

Section order_facts.
Import PyStr PyDate PyFloat clean_data Spec.

Lemma dyadic_add_swap acc a b :
  dyadic_add (dyadic_add acc a) b = dyadic_add (dyadic_add acc b) a.
Proof.
  unfold dyadic_add. simpl. f_equal; [|lia].
  replace (Z.min (Z.min acc.2 b.2) a.2) with (Z.min (Z.min acc.2 a.2) b.2) by lia.
  set (e := Z.min (Z.min acc.2 a.2) b.2).
  rewrite !Z.mul_add_distr_r, <- !Z.mul_assoc, <- !Z.pow_add_r by lia.
  replace (acc.2 - Z.min acc.2 a.2 + (Z.min acc.2 a.2 - e)) with (acc.2 - e) by lia.
  replace (acc.2 - Z.min acc.2 b.2 + (Z.min acc.2 b.2 - e)) with (acc.2 - e) by lia.
  replace (a.2 - Z.min acc.2 a.2 + (Z.min acc.2 a.2 - e)) with (a.2 - e) by lia.
  replace (b.2 - Z.min acc.2 b.2 + (Z.min acc.2 b.2 - e)) with (b.2 - e) by lia.
  ring.
Qed.

Lemma foldl_swap_Permutation {A B} (f : B → A → B) (P : A → Prop) l l' :
  (∀ acc a b, P a → P b → f (f acc a) b = f (f acc b) a) →
  l ≡ₚ l' → Forall P l → ∀ acc, foldl f acc l = foldl f acc l'.
Proof.
  intros Hf Hp. induction Hp as [|x l l' Hp IH|x y l|l l' l'' Hp1 IH1 Hp2 IH2];
    intros HP acc.
  - done.
  - apply Forall_cons in HP as [_ HP]. simpl. by apply IH.
  - apply Forall_cons in HP as [Hy HP]. apply Forall_cons in HP as [Hx HP].
    simpl. by rewrite Hf.
  - rewrite IH1 by done. apply IH2. by rewrite <- Hp1.
Qed.

Lemma add_special_swap t a b :
  is_finite a = false → is_finite b = false →
  add_special (add_special t a) b = add_special (add_special t b) a.
Proof.
  destruct a as [| [] | |]; try done; destruct b as [| [] | |]; try done;
    destruct t as [| [] | |]; done.
Qed.

Lemma add_special_zero x l :
  is_finite x = false →
  foldl add_special x l = foldl add_special (S754_zero false) (x :: l).
Proof. intros Hx. simpl. by destruct x. Qed.

(** The mean does not depend on the order of the values. *)
Lemma mean_Permutation l l' : l ≡ₚ l' → mean l = mean l'.
Proof.
  intros Hp. unfold mean.
  destruct l as [|x0 l0], l' as [|y0 l0'];
    [done|by apply Permutation_nil_l in Hp|by apply Permutation_nil_r in Hp|].
  assert (Hf : filter (λ x, is_finite x = false) (x0 :: l0)
               ≡ₚ filter (λ x, is_finite x = false) (y0 :: l0'))
    by (by rewrite Hp).
  destruct (filter _ (x0 :: l0)) as [|x xs] eqn:E1,
    (filter _ (y0 :: l0')) as [|y ys] eqn:E2.
  - rewrite (foldl_swap_Permutation dyadic_add (λ _, True)
               (dyadic <$> x0 :: l0) (dyadic <$> y0 :: l0')).
    + by rewrite (Permutation_length Hp).
    + intros. apply dyadic_add_swap.
    + by rewrite Hp.
    + by apply Forall_forall.
  - by apply Permutation_nil_l in Hf.
  - by apply Permutation_nil_r in Hf.
  - assert (Hall : Forall (λ x, is_finite x = false) (x :: xs)).
    { rewrite <- E1. apply Forall_forall. by intros ? [? _]%list_elem_of_filter. }
    assert (Hy : is_finite y = false).
    { assert (y ∈ y :: ys) as Hy by left. rewrite <- Hf in Hy.
      by eapply Forall_forall in Hall. }
    pose proof Hall as Hx. apply Forall_cons in Hx as [Hx _].
    rewrite (add_special_zero x), (add_special_zero y) by done. f_equal.
    by apply (foldl_swap_Permutation add_special (λ x, is_finite x = false));
      [intros; apply add_special_swap|..].
Qed.

End order_facts.

Section equal_values.
Import PyStr PyFloat clean_data Spec FloatSpec.

Lemma foldl_dyadic_add_replicate k a c v e :
  c ≤ e →
  foldl dyadic_add (a, c) (replicate k (v, e))
  = (a + Z.of_nat k * (v * 2 ^ (e - c)), c).
Proof.
  intros Hc. revert a. induction k as [|k IH]; intros a.
  - simpl. f_equal. lia.
  - cbn [replicate foldl]. unfold dyadic_add at 2. cbn [fst snd].
    rewrite Z.min_l by done. rewrite Z.sub_diag, Z.pow_0_r, IH. f_equal. lia.
Qed.

Lemma filter_replicate_nil {A} (P : A → Prop) `{∀ x, Decision (P x)} k x :
  ¬ P x → filter P (replicate k x) = [].
Proof.
  intros Hx. induction k as [|k IH]; [done|].
  simpl. by rewrite filter_cons, decide_False.
Qed.

Lemma filter_replicate_all {A} (P : A → Prop) `{∀ x, Decision (P x)} k x :
  P x → filter P (replicate k x) = replicate k x.
Proof.
  intros Hx. induction k as [|k IH]; [done|].
  simpl. by rewrite filter_cons, decide_True, IH.
Qed.

Lemma foldl_add_special_replicate k x :
  is_finite x = false → foldl add_special x (replicate k x) = x.
Proof.
  intros Hx. induction k as [|k IH]; [done|]. simpl.
  assert (add_special x x = x) as -> by (by destruct x as [| [] | |]).
  done.
Qed.

Lemma mean_replicate_finite s m e n :
  bounded 53 1024 m e = true →
  mean (replicate (S n) (S754_finite s m e)) = Some (S754_finite s m e).
Proof.
  intros Hb. unfold mean. cbn [replicate].
  change (S754_finite s m e :: replicate n (S754_finite s m e))
    with (replicate (S n) (S754_finite s m e)).
  rewrite filter_replicate_nil by done.
  rewrite fmap_replicate, length_replicate.
  set (v := if s then Zneg m else Zpos m).
  set (c := Z.min 0 e).
  assert (Hf : foldl dyadic_add (0, 0) (replicate (S n) (dyadic (S754_finite s m e)))
               = (Z.of_nat (S n) * (v * 2 ^ (e - c)), c)).
  { cbn [replicate foldl dyadic]. fold v. unfold dyadic_add at 2. cbn [fst snd].
    fold c. rewrite foldl_dyadic_add_replicate by lia. f_equal. lia. }
  rewrite Hf. f_equal.
  assert (Hp : 0 < 2 ^ (e - c)) by (apply Z.pow_pos_nonneg; lia).
  assert (Hc0 : Z.max 0 c = 0) by lia.
  assert (HD : 0 < Z.of_nat (S n) * 2 ^ Z.max 0 (- c))
    by (apply Z.mul_pos_pos; [lia|apply Z.pow_pos_nonneg; lia]).
  assert (Heq : Z.of_nat (S n) * (Zpos m * 2 ^ (e - c)) * 2 ^ Z.max 0 (- e)
                = Zpos m * (Z.of_nat (S n) * 2 ^ Z.max 0 (- c) * 2 ^ Z.max 0 e)).
  { destruct (Z.le_ge_cases 0 e).
    - replace (e - c) with e by lia. replace (Z.max 0 (- e)) with 0 by lia.
      replace (Z.max 0 (- c)) with 0 by lia. replace (Z.max 0 e) with e by lia.
      rewrite Z.pow_0_r. ring.
    - replace (e - c) with 0 by lia. replace (Z.max 0 e) with 0 by lia.
      replace (Z.max 0 (- c)) with (- e) by lia.
      replace (Z.max 0 (- e)) with (- e) by lia.
      rewrite Z.pow_0_r. ring. }
  destruct (Z.of_nat (S n) * (v * 2 ^ (e - c))) as [|p|p] eqn:EM.
  - destruct s; unfold v in EM; nia.
  - destruct s; unfold v in EM; [nia|].
    apply round_ratio_exact; [done|]. unfold scaled_num, scaled_den.
    rewrite Pos2Z.inj_mul, !Z2Pos.id by (done || apply Z.pow_pos_nonneg; lia).
    rewrite Hc0. simpl (2 ^ 0). rewrite Z.mul_1_r, <- EM. exact Heq.
  - destruct s; unfold v in EM; [|nia].
    apply round_ratio_exact; [done|]. unfold scaled_num, scaled_den.
    rewrite Pos2Z.inj_mul, !Z2Pos.id by (done || apply Z.pow_pos_nonneg; lia).
    rewrite Hc0. simpl (2 ^ 0). rewrite Z.mul_1_r.
    assert (Zpos p = Z.of_nat (S n) * (Zpos m * 2 ^ (e - c))) as -> by lia.
    exact Heq.
Qed.

Lemma mean_replicate x n :
  valid x = true → x ≠ S754_zero true → mean (replicate (S n) x) = Some x.
Proof.
  intros Hv Hz. destruct x as [[]| s | |s m e].
  - done.
  - unfold mean. cbn [replicate].
    change (S754_zero false :: replicate n (S754_zero false))
      with (replicate (S n) (S754_zero false)).
    rewrite filter_replicate_nil by done.
    rewrite fmap_replicate. cbn [replicate foldl dyadic].
    unfold dyadic_add at 2. cbn [fst snd].
    rewrite foldl_dyadic_add_replicate by done.
    replace (0 * 2 ^ (0 - 0 `min` 0) + 0 * 2 ^ (0 - 0 `min` 0)
             + Z.of_nat n * (0 * 2 ^ (0 - 0 `min` 0))) with 0 by lia.
    done.
  - unfold mean. cbn [replicate]. rewrite filter_cons, decide_True by done.
    rewrite filter_replicate_all by done.
    by rewrite foldl_add_special_replicate.
  - unfold mean. cbn [replicate]. rewrite filter_cons, decide_True by done.
    rewrite filter_replicate_all by done.
    by rewrite foldl_add_special_replicate.
  - apply mean_replicate_finite. exact Hv.
Qed.

(** X6. When all the values of a group are one and the same number,
    the average written is that number (a negative zero apart, which is
    written as zero). *)
Theorem average_text_all_equal x n :
  valid x = true → x ≠ S754_zero true →
  average_text (replicate (S n) x) = Some (repr x).
Proof.
  intros Hv Hz. rewrite average_text_spec. unfold metric_text.
  by rewrite mean_replicate.
Qed.

(** The theorem at three reports of four hours. *)
Lemma average_text_all_equal_witness :
  valid (S754_finite false 4503599627370496 (-50)) = true
  ∧ S754_finite false 4503599627370496 (-50) ≠ S754_zero true
  ∧ average_text (replicate 3 (S754_finite false 4503599627370496 (-50)))
    = Some (repr (S754_finite false 4503599627370496 (-50))).
Proof.
  assert (H1 : valid (S754_finite false 4503599627370496 (-50)) = true)
    by reflexivity.
  assert (H2 : S754_finite false 4503599627370496 (-50) ≠ S754_zero true)
    by discriminate.
  split; [exact H1|]. split; [exact H2|].
  exact (average_text_all_equal _ 2 H1 H2).
Defined.

End equal_values.

Section writer_properties.
Import PyStr PyDate PyFloat clean_data Spec Run Reading.

Lemma group_Permutation start raw raw' key :
  raw ≡ₚ raw' → group start raw key ≡ₚ group start raw' key.
Proof. intros H. unfold group. by rewrite H. Qed.

Lemma metric_text_Permutation l l' : l ≡ₚ l' → metric_text l = metric_text l'.
Proof. intros H. unfold metric_text. by rewrite (mean_Permutation l l' H). Qed.

Lemma subqueue_labels_Permutation g g' :
  g ≡ₚ g' → subqueue_labels g = subqueue_labels g'.
Proof.
  intros H. apply set_eq. intros q. unfold subqueue_labels.
  rewrite !elem_of_list_to_set. by rewrite H.
Qed.

Lemma valid_dates_Permutation raw raw' start :
  raw ≡ₚ raw' → valid_dates raw start = valid_dates raw' start.
Proof.
  intros H. apply set_eq. intros d. unfold valid_dates.
  rewrite !elem_of_list_to_set. by rewrite H.
Qed.

Lemma expected_row_Permutation region_ids raw raw' start d o :
  raw ≡ₚ raw' →
  expected_row region_ids raw start d o = expected_row region_ids raw' start d o.
Proof.
  intros H. unfold expected_row.
  pose proof (group_Permutation start raw raw' (d, o) H) as Hg.
  f_equal.
  - apply metric_text_Permutation. unfold scheduled_values. by rewrite Hg.
  - apply metric_text_Permutation. unfold actual_values. by rewrite Hg.
  - by rewrite (subqueue_labels_Permutation _ _ Hg).
Qed.

(** X7. The clean dataset does not depend on the order of the raw
    rows. *)
Theorem main_row_order region_ids raw raw' start :
  raw ≡ₚ raw' → main region_ids raw start = main region_ids raw' start.
Proof.
  intros H.
  destruct (main_spec region_ids raw start) as (dates & Hp & Hs & ->).
  destruct (main_spec region_ids raw' start) as (dates' & Hp' & Hs' & ->).
  rewrite <- (valid_dates_Permutation raw raw' start H) in Hp'.
  assert (dates = dates') as <-.
  { apply (StronglySorted_unique_strong calendar_lt); [|done..|by rewrite Hp, Hp'].
    intros ???? H1 H2. destruct (calendar_lt_asym _ _ H1 H2). }
  f_equal. apply list_fmap_ext. intros _ [d o] _. simpl.
  by apply expected_row_Permutation.
Qed.

(** The theorem at two reports in either order. *)
Lemma main_row_order_witness :
  [mk_raw_row (Some "01.02.2026") (Some "Kyiv") None (Some "4") None;
   mk_raw_row (Some "02.02.2026") (Some "Kyiv") None (Some "6") None]
  ≡ₚ [mk_raw_row (Some "02.02.2026") (Some "Kyiv") None (Some "6") None;
      mk_raw_row (Some "01.02.2026") (Some "Kyiv") None (Some "4") None]
  ∧ main {["Kyiv" := "UA-30"]}
      [mk_raw_row (Some "01.02.2026") (Some "Kyiv") None (Some "4") None;
       mk_raw_row (Some "02.02.2026") (Some "Kyiv") None (Some "6") None]
      (mk_date 2026 1 31)
    = main {["Kyiv" := "UA-30"]}
        [mk_raw_row (Some "02.02.2026") (Some "Kyiv") None (Some "6") None;
         mk_raw_row (Some "01.02.2026") (Some "Kyiv") None (Some "4") None]
        (mk_date 2026 1 31).
Proof.
  split; [apply perm_swap|].
  apply (main_row_order {["Kyiv" := "UA-30"]}). apply perm_swap.
Defined.

Lemma main_rows region_ids raw start rows r :
  main region_ids raw start = Some rows → r ∈ rows →
  Date r ∈ valid_dates raw start ∧ Oblast r ∈ dom region_ids
  ∧ r = expected_row region_ids raw start (Date r) (Oblast r).
Proof.
  intros Hmain Hr.
  destruct (main_spec region_ids raw start) as (dates & Hp & _ & Hmain').
  destruct (sorted_strings (elements (dom region_ids))) as [Hpo _];
    [apply NoDup_elements|].
  rewrite Hmain in Hmain'. injection Hmain' as ->.
  apply list_elem_of_fmap in Hr as ([d o] & -> & Hg).
  apply elem_of_grid in Hg as [Hd Ho]. simpl.
  rewrite Hp, elem_of_elements in Hd. rewrite Hpo, elem_of_elements in Ho.
  done.
Qed.

(** X8. The sub-unit field of a line lists, separated by a comma and a
    space, the distinct non-empty stripped labels of the rows of the
    group of the line, each once and in strictly increasing order. *)
Theorem main_subqueue_text region_ids raw start rows r :
  main region_ids raw start = Some rows → r ∈ rows →
  ∃ labels,
    Subqueues r = join ", " labels
    ∧ StronglySorted string_lt labels
    ∧ ∀ q, q ∈ labels
           ↔ q ≠ ""
             ∧ ∃ row, row ∈ raw
                      ∧ row_key start row = Some (Date r, Oblast r)
                      ∧ strip (or_empty (raw_subqueue row)) = q.
Proof.
  intros Hmain Hr.
  destruct (main_rows _ _ _ _ _ Hmain Hr) as (_ & _ & E).
  set (g := group start raw (Date r, Oblast r)).
  destruct (sorted_strings (elements (subqueue_labels g))) as [Hp Hs];
    [apply NoDup_elements|].
  exists (sorted (elements (subqueue_labels g))). split_and!; [|done|].
  - rewrite E at 1. done.
  - intros q. rewrite Hp, elem_of_elements. unfold subqueue_labels.
    rewrite elem_of_list_to_set, list_elem_of_filter, truthy_true, list_elem_of_fmap.
    split.
    + intros (Hq & row & -> & (Hk & Hrow)%elem_of_group). eauto.
    + intros (Hq & row & Hrow & Hk & <-). split; [done|]. exists row.
      split; [done|]. by apply elem_of_group.
Qed.

(** The theorem at two reports of one group with sub-units out of
    order. *)
Lemma main_subqueue_text_witness :
  let raw :=
    [mk_raw_row (Some "01.02.2026") (Some "Kyiv") (Some "2.1") None None;
     mk_raw_row (Some "01.02.2026") (Some "Kyiv") (Some " 1.2") None None;
     mk_raw_row (Some "01.02.2026") (Some "Kyiv") (Some "2.1 ") None None] in
  let r := mk_clean_row "01.02.2026" "Kyiv" "UA-30" "" "" "1.2, 2.1" in
  main {["Kyiv" := "UA-30"]} raw (mk_date 2026 1 31) = Some [r]
  ∧ r ∈ [r]
  ∧ ∃ labels,
    Subqueues r = join ", " labels
    ∧ StronglySorted string_lt labels
    ∧ ∀ q, q ∈ labels
           ↔ q ≠ ""
             ∧ ∃ row, row ∈ raw
                      ∧ row_key (mk_date 2026 1 31) row = Some (Date r, Oblast r)
                      ∧ strip (or_empty (raw_subqueue row)) = q.
Proof.
  intros raw r.
  assert (H : main {["Kyiv" := "UA-30"]} raw (mk_date 2026 1 31) = Some [r])
    by (vm_compute; reflexivity).
  assert (Hr : r ∈ [r]) by left.
  split; [exact H|]. split; [exact Hr|].
  exact (main_subqueue_text _ _ _ _ _ H Hr).
Defined.

(** X9. Every line of the clean dataset is for a region of the region
    table and carries the identifier the table gives it: the fallback
    to an empty identifier is never taken. *)
Theorem main_gid_column region_ids raw start rows r :
  main region_ids raw start = Some rows → r ∈ rows →
  region_ids !! Oblast r = Some (GID_1 r).
Proof.
  intros Hmain Hr.
  destruct (main_rows _ _ _ _ _ Hmain Hr) as (_ & Ho & E).
  apply elem_of_dom in Ho as [g Hg]. rewrite E at 2. simpl. by rewrite Hg.
Qed.

(** The theorem at one report. *)
Lemma main_gid_column_witness :
  let raw :=
    [mk_raw_row (Some "01.02.2026") (Some "Kyiv") None (Some "4") None] in
  let r := mk_clean_row "01.02.2026" "Kyiv" "UA-30" "4.0" "" "" in
  main {["Kyiv" := "UA-30"]} raw (mk_date 2026 1 31) = Some [r]
  ∧ r ∈ [r]
  ∧ ({["Kyiv" := "UA-30"]} : gmap string string) !! Oblast r = Some (GID_1 r).
Proof.
  intros raw r.
  assert (H : main {["Kyiv" := "UA-30"]} raw (mk_date 2026 1 31) = Some [r])
    by (vm_compute; reflexivity).
  assert (Hr : r ∈ [r]) by left.
  split; [exact H|]. split; [exact Hr|].
  exact (main_gid_column _ _ _ _ _ H Hr).
Defined.

(** X10. One value that is an infinity or not a number decides the
    average of its group: the text written is [nan], [inf] or [-inf]. *)
Theorem average_text_not_finite values x :
  x ∈ values → is_finite x = false →
  ∃ t, average_text values = Some t ∧ t ∈ ["nan"; "inf"; "-inf"].
Proof.
  intros Hx Hf. rewrite average_text_spec. eexists. split; [done|].
  unfold metric_text, mean. destruct values as [|v values]; [by apply elem_of_nil in Hx|].
  assert (Hin : x ∈ filter (λ x, is_finite x = false) (v :: values))
    by (by apply list_elem_of_filter).
  assert (Hall : Forall (λ x, is_finite x = false)
                   (filter (λ x, is_finite x = false) (v :: values))).
  { apply Forall_forall. by intros ? [? _]%list_elem_of_filter. }
  destruct (filter _ (v :: values)) as [|y ys]; [by apply elem_of_nil in Hin|].
  apply Forall_cons in Hall as [Hy _].
  pose proof (add_special_not_finite y ys Hy) as Hr.
  destruct (foldl add_special y ys) as [| [] | |]; try done; simpl.
  - right. right. left.
  - right. left.
  - left.
Qed.

(** The theorem at a group with one report of [nan] hours. *)
Lemma average_text_not_finite_witness :
  S754_nan ∈ [S754_zero false; S754_nan]
  ∧ is_finite S754_nan = false
  ∧ ∃ t, average_text [S754_zero false; S754_nan] = Some t
         ∧ t ∈ ["nan"; "inf"; "-inf"].
Proof.
  assert (H : S754_nan ∈ [S754_zero false; S754_nan]) by (right; left).
  split; [exact H|]. split; [reflexivity|].
  exact (average_text_not_finite _ _ H eq_refl).
Defined.

(** X11. The cleaning run fails exactly when the text of the start date
    is no date of the expected form or a line of the region table is
    short of a column; no content of the raw survey makes it fail. *)
Theorem clean_data_main_raises start_text regions raw :
  clean_data_main start_text regions raw = None
  ↔ strptime start_text = None
    ∨ ∃ row, row ∈ regions
             ∧ (region_oblast row = None ∨ region_gid row = None).
Proof.
  unfold clean_data_main. rewrite <- (load_region_ids_from_None ∅).
  fold (load_region_ids regions).
  destruct (strptime start_text) as [start|]; simpl; [|split; [by left|done]].
  destruct (load_region_ids regions) as [region_ids|]; simpl;
    [|split; [by right|done]].
  destruct (main_spec region_ids raw start) as (dates & _ & _ & ->).
  split; [done|]. by intros [?|?].
Qed.

End writer_properties.

Section loader_properties.
Import PyStr PyDate PyFloat build_maps MapSpec Spec Run Reading.

Lemma row_date_valid r d : row_date r = Some d → PyDate.valid d = true.
Proof.
  unfold row_date. destruct (index_key r) as [k|]; [|done]. simpl.
  apply strptime_valid.
Qed.

Lemma StronglySorted_last {A} (R : relation A) (l : list A) s :
  StronglySorted R l → last l = Some s → ∀ x, x ∈ l → x = s ∨ R x s.
Proof.
  induction 1 as [|y l Hs IH Hall]; [done|].
  intros Hl x Hx. destruct l as [|z l].
  - injection Hl as <-. apply list_elem_of_singleton in Hx. by left.
  - change (last (z :: l) = Some s) in Hl.
    apply elem_of_cons in Hx as [->|Hx]; [|by apply IH].
    right. eapply Forall_forall in Hall; [done|].
    rewrite last_lookup in Hl. by eapply list_elem_of_lookup_2.
Qed.

Lemma initialDate_last dates : initialDate dates = last dates.
Proof.
  unfold initialDate, js_index. rewrite last_lookup.
  destruct dates as [|d dates]; [done|].
  rewrite (proj2 (Z.ltb_ge _ _)) by (simpl length; lia).
  f_equal. simpl length. lia.
Qed.

Lemma lookup2_filter_last rows d g :
  lookup2 (load_clean_data rows).2 d g
  = entry_of <$> last (filter (λ r, index_key r = Some (d, g)) rows).
Proof.
  rewrite load_clean_data_data.
  induction rows as [|r rows IH] using rev_ind; [done|].
  rewrite foldl_index_row_lookup2, filter_app, filter_cons, filter_nil.
  case_decide.
  - by rewrite last_snoc.
  - by rewrite app_nil_r.
Qed.

Lemma elem_of_dom_load_clean_data rows d :
  d ∈ dom (load_clean_data rows).2 ↔ ∃ r g, r ∈ rows ∧ index_key r = Some (d, g).
Proof.
  rewrite load_clean_data_data.
  induction rows as [|r rows IH] using rev_ind.
  - simpl. rewrite dom_empty. split; [by intros ?%elem_of_empty|].
    intros (r & g & Hr & _). by apply elem_of_nil in Hr.
  - rewrite foldl_app. simpl.
    destruct (foldl index_row (∅, []) rows) as [data dates].
    rewrite index_row_unfold. simpl in IH.
    destruct (index_key r) as [[d' g']|] eqn:Hk; simpl.
    + rewrite dom_insert, elem_of_union, elem_of_singleton, IH. split.
      * intros [->|(r0 & g & Hr0 & Hk0)].
        -- exists r, g'. split; [|done]. apply elem_of_app. right. left.
        -- exists r0, g. split; [|done]. apply elem_of_app. by left.
      * intros (r0 & g & [Hr0| ->%list_elem_of_singleton]%elem_of_app & Hk0).
        -- right. eauto.
        -- left. congruence.
    + rewrite IH. split.
      * intros (r0 & g & Hr0 & Hk0). exists r0, g. split; [|done].
        apply elem_of_app. by left.
      * intros (r0 & g & [Hr0| ->%list_elem_of_singleton]%elem_of_app & Hk0).
        -- eauto.
        -- congruence.
Qed.

Lemma date_list_sorted rows :
  StronglySorted calendar_lt (load_clean_data rows).1.
Proof.
  unfold load_clean_data. pose proof (foldl_index_row_dates rows) as Hd.
  destruct (foldl index_row (∅, []) rows) as [data dates]. simpl in *. subst.
  set (S := list_to_set (omap row_date rows) : gset datetime).
  assert (Hp := merge_sort_Permutation PyDate.le (elements S)).
  assert (Hv : ∀ d, d ∈ merge_sort PyDate.le (elements S) → PyDate.valid d = true).
  { intros d. rewrite Hp, elem_of_elements. unfold S.
    rewrite elem_of_list_to_set, list_elem_of_omap.
    intros (r & _ & Hr). by eapply row_date_valid. }
  eapply (StronglySorted_fmap strftime
            (λ a b, PyDate.lt a b ∧ PyDate.valid a = true ∧ PyDate.valid b = true)).
  - intros a b (Hlt & Ha & Hb). unfold calendar_lt.
    by rewrite !strptime_strftime.
  - eapply (StronglySorted_strict PyDate.le).
    + intros x y Hx Hy [?| ->] Hne; [|done]. split_and!; auto.
    + rewrite Hp. apply NoDup_elements.
    + apply (StronglySorted_merge_sort _).
Qed.

(** X12. The date list of the loader holds, each once and in calendar
    order, the formatted dates of the rows that have a date and a region
    identifier and whose date parses. *)
Theorem load_clean_data_dates_sorted rows :
  StronglySorted calendar_lt (load_clean_data rows).1
  ∧ ∀ s, s ∈ (load_clean_data rows).1
         ↔ ∃ r d, r ∈ rows ∧ row_date r = Some d ∧ s = strftime d.
Proof. split; [apply date_list_sorted|apply load_clean_data_dates]. Qed.

(** X13. The keyed structure of the loader holds, under a date string
    and a region identifier, the values of the last row filed under this
    pair, and nothing when no row is. *)
Theorem load_clean_data_last_row rows d g :
  lookup2 (load_clean_data rows).2 d g
  = entry_of <$> last (filter (λ r, index_key r = Some (d, g)) rows).
Proof. apply lookup2_filter_last. Qed.

(** X14. In the keyed structure of the loader no date key and no region
    key is empty or has white space around it, no date has an empty
    dictionary of regions, and the sub-unit text of an entry has no
    white space around it. *)
Theorem load_clean_data_keys rows d day :
  (load_clean_data rows).2 !! d = Some day →
  d ≠ "" ∧ strip d = d ∧ day ≠ ∅
  ∧ ∀ g e, day !! g = Some e →
           g ≠ "" ∧ strip g = g ∧ strip (subqueues e) = subqueues e.
Proof.
  intros Hd.
  assert (Hin : d ∈ dom (load_clean_data rows).2) by (apply elem_of_dom; eauto).
  apply elem_of_dom_load_clean_data in Hin as (r & g & Hr & Hk).
  destruct (index_key_inv _ _ _ Hk) as (Ed & Eg & Hdne & Hgne).
  pose proof (lookup2_is_Some rows r d g Hr Hk) as [e He].
  unfold lookup2 in He. rewrite Hd in He. simpl in He.
  split_and!.
  - done.
  - rewrite Ed. apply strip_idemp.
  - intros ->. by rewrite lookup_empty in He.
  - intros g0 e0 H0.
    assert (H2 : lookup2 (load_clean_data rows).2 d g0 = Some e0)
      by (unfold lookup2; by rewrite Hd).
    rewrite lookup2_filter_last in H2.
    destruct (last _) as [r0|] eqn:El; [|done]. injection H2 as <-.
    apply last_Some_elem_of, list_elem_of_filter in El as [Hk0 _].
    destruct (index_key_inv _ _ _ Hk0) as (_ & Eg0 & _ & Hg0).
    split_and!; [done|rewrite Eg0; apply strip_idemp|apply strip_idemp].
Qed.

(** The theorem at a dataset of one line. *)
Lemma load_clean_data_keys_witness :
  let rows :=
    [mk_csv_row (Some " 01.02.2026") (Some "UA-30 ") (Some "4.0") (Some "")
       (Some " 1.1, 1.2 ")] in
  let day : gmap string entry :=
    {["UA-30" := mk_entry (Some (of_decimal false 4 0)) None "1.1, 1.2"]} in
  (load_clean_data rows).2 !! "01.02.2026" = Some day
  ∧ "01.02.2026" ≠ "" ∧ strip "01.02.2026" = "01.02.2026" ∧ day ≠ ∅
  ∧ ∀ g e, day !! g = Some e →
           g ≠ "" ∧ strip g = g ∧ strip (subqueues e) = subqueues e.
Proof.
  intros rows day.
  assert (H : (load_clean_data rows).2 !! "01.02.2026" = Some day)
    by (vm_compute; reflexivity).
  split; [exact H|].
  exact (load_clean_data_keys rows "01.02.2026" day H).
Defined.

(** X15. The page opens on the last date of the list, which for the list
    of the loader is the latest date of the dataset; without a date the
    initial date is undefined. *)
Theorem initialDate_latest rows :
  match initialDate (load_clean_data rows).1 with
  | Some s =>
      s ∈ (load_clean_data rows).1
      ∧ ∀ s', s' ∈ (load_clean_data rows).1 → s' = s ∨ calendar_lt s' s
  | None => (load_clean_data rows).1 = [] ∧ ∀ r, r ∈ rows → row_date r = None
  end.
Proof.
  rewrite initialDate_last.
  pose proof (date_list_sorted rows) as Hs.
  pose proof (load_clean_data_dates rows) as Hin.
  destruct (last _) as [s|] eqn:El.
  - split; [by apply last_Some_elem_of|].
    by apply (StronglySorted_last calendar_lt).
  - apply last_None in El. split; [done|]. intros r Hr.
    destruct (row_date r) as [d|] eqn:E; [|done].
    assert (strftime d ∈ (load_clean_data rows).1) as H by (apply Hin; eauto).
    rewrite El in H. by apply elem_of_nil in H.
Qed.

End loader_properties.

Section pipeline_properties.
Import PyStr PyDate PyFloat Spec MapSpec RoundTrip Run Reading.
Import clean_data.

Lemma rstrip_String c s : rstrip s ≠ "" → rstrip (String c s) = String c (rstrip s).
Proof. simpl. by destruct (rstrip s). Qed.

Lemma rstrip_app_fix s t : t ≠ "" → rstrip t = t → rstrip (s +:+ t) = s +:+ t.
Proof.
  intros Hne Ht. induction s as [|c s IH]; [done|].
  rewrite app_String, rstrip_String; rewrite IH; [done|].
  by intros [_ ?]%app_eq_empty.
Qed.

Lemma head_ok_app s t : s ≠ "" → head_ok s → head_ok (s +:+ t).
Proof. by destruct s. Qed.

Lemma join_stripped labels :
  (∀ q, q ∈ labels → q ≠ "" ∧ head_ok q ∧ rstrip q = q) →
  head_ok (join ", " labels) ∧ rstrip (join ", " labels) = join ", " labels
  ∧ (labels ≠ [] → join ", " labels ≠ "").
Proof.
  induction labels as [|x labels IH]; intros H; [done|].
  destruct (H x) as (Hx & Hh & Hr); [left|].
  destruct labels as [|y labels]; [done|].
  destruct IH as (IH1 & IH2 & IH3); [intros q Hq; apply H; by right|].
  change (join ", " (x :: y :: labels))
    with (x +:+ ", " +:+ join ", " (y :: labels)).
  split_and!.
  - by apply head_ok_app.
  - apply rstrip_app_fix; [done|]. by apply rstrip_app_fix; [apply IH3|].
  - intros _ [? _]%app_eq_empty. done.
Qed.

Lemma strip_Subqueues region_ids raw start d o :
  strip (Subqueues (expected_row region_ids raw start d o))
  = Subqueues (expected_row region_ids raw start d o).
Proof.
  simpl. set (g := group start raw (d, o)).
  destruct (join_stripped (sorted (elements (subqueue_labels g))))
    as (Hh & Hr & _).
  - intros q. unfold sorted. rewrite merge_sort_Permutation, elem_of_elements.
    unfold subqueue_labels.
    rewrite elem_of_list_to_set, list_elem_of_filter, truthy_true, list_elem_of_fmap.
    intros (Hq & row & -> & _). split_and!; [done|..].
    + apply rstrip_head_ok, lstrip_head_ok.
    + apply rstrip_idemp.
  - unfold strip. by rewrite lstrip_fix.
Qed.

Lemma elem_of_main region_ids raw start rows r :
  main region_ids raw start = Some rows →
  r ∈ rows
  ↔ ∃ d o, d ∈ valid_dates raw start ∧ o ∈ dom region_ids
           ∧ r = expected_row region_ids raw start d o.
Proof.
  intros Hmain.
  destruct (main_spec region_ids raw start) as (dates & Hp & _ & Hmain').
  destruct (sorted_strings (elements (dom region_ids))) as [Hpo _];
    [apply NoDup_elements|].
  rewrite Hmain in Hmain'. injection Hmain' as ->.
  rewrite list_elem_of_fmap. split.
  - intros ([d o] & -> & Hg). apply elem_of_grid in Hg as [Hd Ho].
    rewrite Hp, elem_of_elements in Hd. rewrite Hpo, elem_of_elements in Ho.
    by exists d, o.
  - intros (d & o & Hd & Ho & ->). exists (d, o). split; [done|].
    apply elem_of_grid. by rewrite Hp, Hpo, !elem_of_elements.
Qed.

(** What the loader makes of a written line: its key and its date. *)
Lemma written_row_index region_rows region_ids raw start rows r :
  load_region_ids region_rows = Some region_ids →
  main region_ids raw start = Some rows → r ∈ rows →
  ∃ dt, PyDate.valid dt = true ∧ Date r = strftime dt
        ∧ index_key (read_back r)
          = (if truthy (GID_1 r) then Some (Date r, GID_1 r) else None)
        ∧ row_date (read_back r)
          = (if truthy (GID_1 r) then Some dt else None).
Proof.
  intros Hreg Hmain Hr.
  destruct (written_rows_stripped _ _ _ _ _ r Hreg Hmain Hr)
    as (Hsd & Hdne & Hsg & o & Hro & _ & _).
  apply (elem_of_main _ _ _ _ r) in Hmain.
  apply Hmain in Hr as (d & o' & Hd & _ & E).
  apply valid_dates_formatted in Hd as (dt & Hv & ->).
  assert (Date r = strftime dt) as HD by (by rewrite E).
  exists dt. split_and!; [done..| |].
  - rewrite index_key_read_back by done.
    apply truthy_true in Hdne as ->. done.
  - unfold row_date. rewrite index_key_read_back by done.
    apply truthy_true in Hdne as ->. simpl.
    destruct (truthy (GID_1 r)); [|done]. simpl.
    rewrite HD. by apply strptime_strftime.
Qed.

Lemma written_dates_keys_aux region_rows region_ids raw start rows :
  load_region_ids region_rows = Some region_ids →
  main region_ids raw start = Some rows →
  ∀ s,
    (s ∈ (build_maps.load_clean_data (read_back <$> rows)).1
     ↔ s ∈ dom (build_maps.load_clean_data (read_back <$> rows)).2)
    ∧ (s ∈ dom (build_maps.load_clean_data (read_back <$> rows)).2
       ↔ ∃ r, r ∈ rows ∧ Date r = s ∧ GID_1 r ≠ "").
Proof.
  intros Hreg Hmain s.
  assert (H2 : s ∈ dom (build_maps.load_clean_data (read_back <$> rows)).2
               ↔ ∃ r, r ∈ rows ∧ Date r = s ∧ GID_1 r ≠ "").
  { rewrite elem_of_dom_load_clean_data. split.
    - intros (row & g & (r & -> & Hr)%list_elem_of_fmap & Hk).
      destruct (written_row_index _ _ _ _ _ r Hreg Hmain Hr)
        as (dt & _ & _ & Hi & _).
      rewrite Hi in Hk. destruct (truthy (GID_1 r)) eqn:Et; [|done].
      injection Hk as <- <-. exists r. by rewrite <- truthy_true.
    - intros (r & Hr & <- & Hg). exists (read_back r), (GID_1 r).
      split; [apply list_elem_of_fmap; eauto|].
      destruct (written_row_index _ _ _ _ _ r Hreg Hmain Hr)
        as (dt & _ & _ & Hi & _).
      rewrite Hi. by apply truthy_true in Hg as ->. }
  split; [|done]. rewrite H2, load_clean_data_dates. split.
  - intros (row & d & (r & -> & Hr)%list_elem_of_fmap & Hd & ->).
    destruct (written_row_index _ _ _ _ _ r Hreg Hmain Hr)
      as (dt & _ & HD & _ & Hrd).
    rewrite Hrd in Hd. destruct (truthy (GID_1 r)) eqn:Et; [|done].
    injection Hd as <-. exists r. by rewrite <- truthy_true.
  - intros (r & Hr & <- & Hg).
    destruct (written_row_index _ _ _ _ _ r Hreg Hmain Hr)
      as (dt & _ & HD & _ & Hrd).
    exists (read_back r), dt. split_and!; [apply list_elem_of_fmap; eauto| |done].
    rewrite Hrd. by apply truthy_true in Hg as ->.
Qed.

(** X16. When the loader reads the lines the cleaning stage wrote, the
    dates of its list are exactly the date keys of its structure, and
    they are the dates of the lines with a non-empty identifier. *)
Theorem written_dates_are_keys region_rows region_ids raw start rows :
  load_region_ids region_rows = Some region_ids →
  main region_ids raw start = Some rows →
  ∀ s,
    (s ∈ (build_maps.load_clean_data (read_back <$> rows)).1
     ↔ s ∈ dom (build_maps.load_clean_data (read_back <$> rows)).2)
    ∧ (s ∈ dom (build_maps.load_clean_data (read_back <$> rows)).2
       ↔ ∃ r, r ∈ rows ∧ Date r = s ∧ GID_1 r ≠ "").
Proof. apply written_dates_keys_aux. Qed.

(** The theorem at a region table of one region and two reports for it
    on one day. *)
Lemma written_dates_are_keys_witness :
  let rows := [mk_clean_row "01.02.2026" "Kyiv" "UA-30" "5.0" "" ""] in
  load_region_ids [mk_region_row (Some "Kyiv") (Some "UA-30")]
  = Some kyiv_table
  ∧ main kyiv_table one_day_raw (mk_date 2026 1 31) = Some rows
  ∧ ∀ s,
    (s ∈ (build_maps.load_clean_data (read_back <$> rows)).1
     ↔ s ∈ dom (build_maps.load_clean_data (read_back <$> rows)).2)
    ∧ (s ∈ dom (build_maps.load_clean_data (read_back <$> rows)).2
       ↔ ∃ r, r ∈ rows ∧ Date r = s ∧ GID_1 r ≠ "").
Proof.
  intros rows.
  assert (H1 : load_region_ids [mk_region_row (Some "Kyiv") (Some "UA-30")]
               = Some kyiv_table) by reflexivity.
  assert (H2 : main kyiv_table one_day_raw (mk_date 2026 1 31) = Some rows)
    by (vm_compute; reflexivity).
  split; [exact H1|]. split; [exact H2|].
  exact (written_dates_are_keys _ _ _ _ _ H1 H2).
Defined.

(** X17. The sub-unit text of a written line comes back unchanged: for
    a line with a non-empty identifier that no later line repeats with
    the same date, the entry the loader keeps under the date and the
    identifier of the line has the sub-unit field as it was written. *)
Theorem subqueues_round_trip region_rows region_ids raw start rows rows1 r rows2 :
  load_region_ids region_rows = Some region_ids →
  main region_ids raw start = Some rows →
  rows = rows1 ++ r :: rows2 → GID_1 r ≠ "" →
  (∀ r', r' ∈ rows2 → (Date r', GID_1 r') ≠ (Date r, GID_1 r)) →
  ∃ e, loaded rows (Date r) (GID_1 r) = Some e
       ∧ build_maps.subqueues e = Subqueues r.
Proof.
  intros Hreg Hmain Hrows Hgid Hlater.
  assert (Hin : ∀ r', r' ∈ r :: rows2 → r' ∈ rows).
  { intros r' Hr'. rewrite Hrows. apply elem_of_app. by right. }
  exists (entry_of (read_back r)). split.
  - unfold loaded. rewrite Hrows, fmap_app, fmap_cons. apply lookup2_last.
    + destruct (written_row_index _ _ _ _ _ r Hreg Hmain) as (dt & _ & _ & -> & _);
        [apply Hin; left|].
      by apply truthy_true in Hgid as ->.
    + intros r0 (r' & -> & Hr')%list_elem_of_fmap Hk.
      destruct (written_row_index _ _ _ _ _ r' Hreg Hmain) as (dt & _ & _ & Hi & _);
        [apply Hin; by right|].
      rewrite Hi in Hk. destruct (truthy (GID_1 r')); [|done].
      apply (Hlater r' Hr'). congruence.
  - destruct (written_rows_stripped _ _ _ _ _ r Hreg Hmain)
      as (_ & _ & _ & o & Hr & _ & _); [apply Hin; left|].
    simpl. rewrite Hr. apply strip_Subqueues.
Qed.

(** The theorem at one line with two sub-units. *)
Lemma subqueues_round_trip_witness :
  let raw :=
    [mk_raw_row (Some "01.02.2026") (Some "Kyiv") (Some "2.1") None None;
     mk_raw_row (Some "01.02.2026") (Some "Kyiv") (Some " 1.2") None None] in
  let r := mk_clean_row "01.02.2026" "Kyiv" "UA-30" "" "" "1.2, 2.1" in
  load_region_ids [mk_region_row (Some "Kyiv") (Some "UA-30")]
  = Some kyiv_table
  ∧ main kyiv_table raw (mk_date 2026 1 31) = Some [r]
  ∧ [r] = [] ++ r :: []
  ∧ GID_1 r ≠ ""
  ∧ (∀ r', r' ∈ [] → (Date r', GID_1 r') ≠ (Date r, GID_1 r))
  ∧ ∃ e, loaded [r] (Date r) (GID_1 r) = Some e
         ∧ build_maps.subqueues e = Subqueues r.
Proof.
  intros raw r.
  assert (H5 : ∀ r', r' ∈ [] → (Date r', GID_1 r') ≠ (Date r, GID_1 r))
    by (intros r' Hr'; inversion Hr').
  assert (H4 : GID_1 r ≠ "") by discriminate.
  assert (H3 : [r] = [] ++ r :: []) by reflexivity.
  assert (H1 : load_region_ids [mk_region_row (Some "Kyiv") (Some "UA-30")]
               = Some kyiv_table) by reflexivity.
  assert (H2 : main kyiv_table raw (mk_date 2026 1 31) = Some [r])
    by (vm_compute; reflexivity).
  split; [exact H1|]. split; [exact H2|]. split; [exact H3|].
  split; [exact H4|]. split; [exact H5|].
  exact (subqueues_round_trip [mk_region_row (Some "Kyiv") (Some "UA-30")]
           kyiv_table raw (mk_date 2026 1 31) [r] [] r [] H1 H2 H3 H4 H5).
Defined.

(** X18. Read back by the loader, the clean dataset fills the whole
    grid: there is an entry under a date and an identifier exactly when
    the date is in the date list and the identifier is a non-empty
    identifier of the region table. *)
Theorem loaded_grid region_rows region_ids raw start rows :
  load_region_ids region_rows = Some region_ids →
  main region_ids raw start = Some rows →
  ∀ s g,
    is_Some (loaded rows s g)
    ↔ s ∈ (build_maps.load_clean_data (read_back <$> rows)).1
      ∧ g ≠ "" ∧ ∃ o, region_ids !! o = Some g.
Proof.
  intros Hreg Hmain s g.
  assert (Hl : is_Some (loaded rows s g)
               ↔ ∃ r, r ∈ rows ∧ Date r = s ∧ GID_1 r = g ∧ g ≠ "").
  { unfold loaded. rewrite lookup2_filter_last, fmap_is_Some. split.
    - intros [row Hrow]. apply last_Some_elem_of, list_elem_of_filter in Hrow
        as [Hk (r & -> & Hr)%list_elem_of_fmap].
      destruct (written_row_index _ _ _ _ _ r Hreg Hmain Hr)
        as (dt & _ & _ & Hi & _).
      rewrite Hi in Hk. destruct (truthy (GID_1 r)) eqn:Et; [|done].
      injection Hk as <- <-. exists r. by rewrite <- truthy_true.
    - intros (r & Hr & <- & <- & Hg).
      destruct (written_row_index _ _ _ _ _ r Hreg Hmain Hr)
        as (dt & _ & _ & Hi & _).
      apply truthy_true in Hg. rewrite Hg in Hi.
      destruct (last (filter _ (read_back <$> rows))) eqn:El; [done|].
      apply last_None in El.
      assert (read_back r ∈ filter
                (λ r0, index_key r0 = Some (Date r, GID_1 r)) (read_back <$> rows))
        as Hin.
      { apply list_elem_of_filter. split; [done|]. apply list_elem_of_fmap; eauto. }
      rewrite El in Hin. by apply elem_of_nil in Hin. }
  destruct (written_dates_keys_aux region_rows region_ids raw start rows Hreg Hmain s)
    as [Hd1 Hd2].
  rewrite Hl, Hd1, Hd2. split.
  - intros (r & Hr & <- & <- & Hg). split_and!; [eauto|done|].
    apply (elem_of_main _ _ _ _ r Hmain) in Hr as (d & o & _ & Ho & ->).
    exists o. simpl. apply elem_of_dom in Ho as [g Hg']. by rewrite Hg'.
  - intros ((r & Hr & <- & _) & Hg & o & Ho).
    apply (elem_of_main _ _ _ _ r Hmain) in Hr as (d & o' & Hd & _ & ->).
    exists (expected_row region_ids raw start d o). split_and!; try done.
    + apply (elem_of_main _ _ _ _ _ Hmain). exists d, o. split_and!; [done| |done].
      apply elem_of_dom. eauto.
    + simpl. by rewrite Ho.
Qed.

(** The theorem at a region table of one region and two reports for it
    on one day. *)
Lemma loaded_grid_witness :
  let rows := [mk_clean_row "01.02.2026" "Kyiv" "UA-30" "5.0" "" ""] in
  load_region_ids [mk_region_row (Some "Kyiv") (Some "UA-30")]
  = Some kyiv_table
  ∧ main kyiv_table one_day_raw (mk_date 2026 1 31) = Some rows
  ∧ ∀ s g,
    is_Some (loaded rows s g)
    ↔ s ∈ (build_maps.load_clean_data (read_back <$> rows)).1
      ∧ g ≠ "" ∧ ∃ o, kyiv_table !! o = Some g.
Proof.
  intros rows.
  assert (H1 : load_region_ids [mk_region_row (Some "Kyiv") (Some "UA-30")]
               = Some kyiv_table) by reflexivity.
  assert (H2 : main kyiv_table one_day_raw (mk_date 2026 1 31) = Some rows)
    by (vm_compute; reflexivity).
  split; [exact H1|]. split; [exact H2|].
  exact (loaded_grid _ _ _ _ _ H1 H2).
Defined.

End pipeline_properties.

Section value_properties.
Import PyStr PyDate PyFloat build_maps MapSpec.

(** X19. A number never gets the colour of the regions without data,
    also outside the hours of a day: a value that rounds to zero or
    below, and minus infinity, get the colour of "0"; a value that
    rounds to 21 or above, plus infinity and NaN get the colour of
    "21-24". *)
Theorem getColor_out_of_range :
  (∀ x, getColor (Number x) ≠ getColor Null)
  ∧ (∀ x n, Math_round x = RInt n → n ≤ 0 → bucket (Number x) = Some "0")
  ∧ (∀ x n, Math_round x = RInt n → 21 ≤ n → bucket (Number x) = Some "21-24")
  ∧ bucket (Number (S754_infinity true)) = Some "0"
  ∧ bucket (Number (S754_infinity false)) = Some "21-24"
  ∧ bucket (Number S754_nan) = Some "21-24".
Proof.
  split_and!; [| | |vm_compute; reflexivity..].
  - intros x. unfold getColor. generalize (Math_round x). intros r.
    repeat match goal with
           | |- context [if ?b then _ else _] => destruct b
           end; discriminate.
  - intros x n Hr Hn. unfold bucket, getColor. rewrite Hr. simpl.
    by rewrite (proj2 (Z.leb_le _ _) Hn).
  - intros x n Hr Hn. unfold bucket, getColor. rewrite Hr. simpl.
    rewrite (proj2 (Z.leb_gt n 0)), (proj2 (Z.leb_gt n 4)),
      (proj2 (Z.leb_gt n 8)), (proj2 (Z.leb_gt n 12)),
      (proj2 (Z.leb_gt n 16)), (proj2 (Z.leb_gt n 20)) by lia.
    by rewrite !andb_false_r.
Qed.

Lemma isspace_comma c :
  isspace (if Ascii.eqb c "," then "."%char else c) = isspace c.
Proof. by destruct (Ascii.eqb_spec c ",") as [->|]. Qed.

Lemma lstrip_replace_comma s : lstrip (replace_comma s) = replace_comma (lstrip s).
Proof.
  induction s as [|c s IH]; [done|]. cbn [replace_comma lstrip].
  rewrite isspace_comma. by destruct (isspace c).
Qed.

Lemma rstrip_replace_comma s : rstrip (replace_comma s) = replace_comma (rstrip s).
Proof.
  induction s as [|c s IH]; [done|]. cbn [replace_comma rstrip]. rewrite IH.
  destruct (rstrip s); cbn [replace_comma]; [|done]. rewrite isspace_comma.
  destruct (isspace c); reflexivity.
Qed.

Lemma strip_replace_comma s : strip (replace_comma s) = replace_comma (strip s).
Proof. unfold strip. by rewrite lstrip_replace_comma, rstrip_replace_comma. Qed.

Lemma replace_comma_idemp s : replace_comma (replace_comma s) = replace_comma s.
Proof.
  induction s as [|c s IH]; [done|]. cbn [replace_comma]. rewrite IH. f_equal.
  destruct (Ascii.eqb c ",") eqn:E; [reflexivity|by rewrite E].
Qed.

Lemma truthy_replace_comma s : truthy (replace_comma s) = truthy s.
Proof. by destruct s. Qed.

(** X20. [parse_float] reads a decimal comma as a decimal point and
    ignores white space around the text: replacing the commas by points
    or stripping the text beforehand changes nothing, in the cleaning
    stage and in the map stage alike. *)
Theorem parse_float_comma_point s :
  clean_data.parse_float (Some (replace_comma s))
  = clean_data.parse_float (Some s)
  ∧ clean_data.parse_float (Some (strip s)) = clean_data.parse_float (Some s)
  ∧ build_maps.parse_float (Some (replace_comma s))
    = build_maps.parse_float (Some s)
  ∧ build_maps.parse_float (Some (strip s)) = build_maps.parse_float (Some s).
Proof.
  assert (H1 : clean_data.parse_float (Some (replace_comma s))
               = clean_data.parse_float (Some s)).
  { unfold clean_data.parse_float.
    by rewrite strip_replace_comma, truthy_replace_comma, replace_comma_idemp. }
  assert (H2 : clean_data.parse_float (Some (strip s))
               = clean_data.parse_float (Some s)).
  { unfold clean_data.parse_float. by rewrite strip_idemp. }
  done.
Qed.

End value_properties.

Section start_date_properties.
Import PyStr PyDate PyFloat clean_data Spec Run Reading.

Lemma date_lt_le_trans a b c : PyDate.lt a b → PyDate.le b c → PyDate.lt a c.
Proof.
  intros H [H'| <-]; [|done]. destruct a, b, c. unfold lt in *; simpl in *. lia.
Qed.

Lemma filter_ext_elem_of {A} (P Q : A → Prop) `{∀ x, Decision (P x)}
    `{∀ x, Decision (Q x)} (l : list A) :
  (∀ x, x ∈ l → P x ↔ Q x) → filter P l = filter Q l.
Proof.
  induction l as [|x l IH]; intros HPQ; [done|].
  rewrite !filter_cons, IH by (intros y Hy; apply HPQ; by right).
  destruct (HPQ x) as [H1 H2]; [left|].
  destruct (decide (P x)), (decide (Q x)); tauto.
Qed.

Lemma row_key_later_start start start' r key :
  PyDate.le start start' →
  row_key start' r = Some key
  ↔ row_key start r = Some key ∧ on_or_after start' key.1.
Proof.
  intros Hle. unfold row_key.
  destruct (truthy _ && truthy _); [|by split; [|intros []]].
  destruct (strptime (strip (or_empty (raw_date r)))) as [d|] eqn:Ed;
    [|by split; [|intros []]].
  pose proof (strptime_valid _ _ Ed) as Hv.
  destruct (decide (PyDate.lt d start')) as [Hlt'|Hlt'],
    (decide (PyDate.lt d start)) as [Hlt|Hlt].
  - by split; [|intros []].
  - split; [done|]. intros [[= <-] Ho]. simpl in Ho. unfold on_or_after in Ho.
    by rewrite strptime_strftime in Ho.
  - destruct Hlt'. by eapply date_lt_le_trans.
  - split; [|by intros []]. intros [= <-]. split; [done|]. simpl.
    unfold on_or_after. by rewrite strptime_strftime.
Qed.

Lemma group_later_start start start' raw d o :
  PyDate.le start start' → on_or_after start' d →
  group start' raw (d, o) = group start raw (d, o).
Proof.
  intros Hle Hd. unfold group. apply filter_ext_elem_of. intros r _.
  rewrite (row_key_later_start start start') by done. simpl. tauto.
Qed.

Lemma valid_dates_later_start start start' raw d :
  PyDate.le start start' →
  d ∈ valid_dates raw start' ↔ d ∈ valid_dates raw start ∧ on_or_after start' d.
Proof.
  intros Hle. unfold valid_dates. rewrite !elem_of_list_to_set, !list_elem_of_omap.
  split.
  - intros (r & Hr & Hk). destruct (row_key start' r) as [key|] eqn:E; [|done].
    apply (row_key_later_start start start') in E as [E Ho]; [|done].
    simpl in Hk. injection Hk as <-. split; [|done]. exists r. by rewrite E.
  - intros [(r & Hr & Hk) Ho]. destruct (row_key start r) as [key|] eqn:E; [|done].
    simpl in Hk. injection Hk as <-. exists r. split; [done|].
    assert (row_key start' r = Some key) as ->; [|done].
    by apply (row_key_later_start start start').
Qed.

(** X21. A later start date only drops lines: the clean dataset for a
    start date is the clean dataset for any earlier start date without
    the lines dated before the later one, the other lines unchanged
    and in the same order. *)
Theorem main_later_start region_ids raw start start' :
  PyDate.le start start' →
  ∃ rows,
    main region_ids raw start = Some rows
    ∧ main region_ids raw start'
      = Some (filter (λ r, on_or_after start' (Date r)) rows).
Proof.
  intros Hle.
  destruct (main_spec region_ids raw start) as (dates & Hp & Hs & Hmain).
  destruct (main_spec region_ids raw start') as (dates' & Hp' & Hs' & Hmain').
  eexists. split; [exact Hmain|]. rewrite Hmain'. f_equal.
  rewrite (filter_ext_elem_of _ (λ r, Date r ∈ valid_dates raw start')).
  - rewrite filter_grid_rows by (by intros []).
    assert (dates' = filter (λ d, d ∈ valid_dates raw start') dates) as ->.
    { apply (StronglySorted_unique_strong calendar_lt).
      - intros ???? H1 H2. destruct (calendar_lt_asym _ _ H1 H2).
      - done.
      - by apply StronglySorted_filter.
      - rewrite Hp'. apply NoDup_Permutation.
        + apply NoDup_elements.
        + apply NoDup_filter. rewrite Hp. apply NoDup_elements.
        + intros d. rewrite list_elem_of_filter, Hp, !elem_of_elements.
          rewrite (valid_dates_later_start start start') by done.
          tauto. }
    apply list_fmap_ext. intros i [d o] Hi. simpl.
    apply list_elem_of_lookup_2, elem_of_grid in Hi as [Hd _].
    apply list_elem_of_filter in Hd as [Hd _].
    apply (valid_dates_later_start start start') in Hd as [_ Hd]; [|done].
    unfold expected_row. by rewrite (group_later_start start start').
  - intros r ([d o] & -> & Hg)%list_elem_of_fmap. simpl.
    apply elem_of_grid in Hg as [Hd _]. rewrite Hp, elem_of_elements in Hd.
    rewrite (valid_dates_later_start start start') by done. tauto.
Qed.

(** The theorem at two reports, one on each side of the later date. *)
Lemma main_later_start_witness :
  PyDate.le (mk_date 2026 1 31) (mk_date 2026 2 2)
  ∧ ∃ rows,
    main {["Kyiv" := "UA-30"]}
      [mk_raw_row (Some "01.02.2026") (Some "Kyiv") None (Some "4") None;
       mk_raw_row (Some "02.02.2026") (Some "Kyiv") None (Some "6") None]
      (mk_date 2026 1 31) = Some rows
    ∧ main {["Kyiv" := "UA-30"]}
        [mk_raw_row (Some "01.02.2026") (Some "Kyiv") None (Some "4") None;
         mk_raw_row (Some "02.02.2026") (Some "Kyiv") None (Some "6") None]
        (mk_date 2026 2 2)
      = Some (filter (λ r, on_or_after (mk_date 2026 2 2) (Date r)) rows).
Proof.
  assert (H : PyDate.le (mk_date 2026 1 31) (mk_date 2026 2 2)).
  { left. unfold lt. simpl. lia. }
  split; [exact H|].
  exact (main_later_start {["Kyiv" := "UA-30"]} _ _ _ H).
Defined.

End start_date_properties.

Section scenarios.
Import PyStr PyDate PyFloat Spec RoundTrip.
Import clean_data.

(** The scenario of the specification: two reports of 4 and 6 hours for
    Kyiv give the line [01.02.2026, Kyiv, UA-30, 5.0, "", ""]. *)
Example main_two_reports :
  main kyiv_table one_day_raw (mk_date 2026 1 31)
  = Some [mk_clean_row "01.02.2026" "Kyiv" "UA-30" "5.0" "" ""].
Proof. vm_compute. reflexivity. Qed.

(** Sub-unit labels are written sorted and without repetition. *)
Example main_subqueues :
  main kyiv_table
    [mk_raw_row (Some "01.02.2026") (Some "Kyiv") (Some "B") None None;
     mk_raw_row (Some "01.02.2026") (Some "Kyiv") (Some "A") None None;
     mk_raw_row (Some "01.02.2026") (Some "Kyiv") (Some "A") None None]
    (mk_date 2026 1 31)
  = Some [mk_clean_row "01.02.2026" "Kyiv" "UA-30" "" "" "A, B"].
Proof. vm_compute. reflexivity. Qed.

(** Calendar order is not the order of the date strings: the last of
    January comes before the first of February. *)
Example main_calendar_order :
  fmap (M := option) (fmap (M := list) Date)
    (main kyiv_table
          [mk_raw_row (Some "01.02.2026") (Some "Kyiv") None None None;
           mk_raw_row (Some "31.01.2026") (Some "Kyiv") None None None]
          (mk_date 2026 1 31))
  = Some ["31.01.2026"; "01.02.2026"]
  ∧ String.ltb "01.02.2026" "31.01.2026" = true.
Proof. vm_compute. split; reflexivity. Qed.

(** A row before the start date leaves no trace. *)
Example main_before_start :
  main kyiv_table
    [mk_raw_row (Some "15.01.2026") (Some "Kyiv") None (Some "4") None]
    (mk_date 2026 1 31)
  = Some [].
Proof. vm_compute. reflexivity. Qed.

(** A decimal comma and a decimal point give the same number; a text
    that is no number gives an absent field. *)
Example parse_float_samples :
  parse_float (Some "1,5") = parse_float (Some "1.5")
  ∧ parse_float (Some " 4 ") = float_of_str "4.0"
  ∧ parse_float (Some "four") = None
  ∧ parse_float (Some "1.234,5") = None
  ∧ parse_float (Some "") = None.
Proof. vm_compute. by split_and!. Qed.

End scenarios.

